(** * Enterprise_Scorecard: the tabular input normaliser of [app1a.py]

    A shallow embedding of the spreadsheet-handling code of [app1a.py] and
    of its run bookkeeping:
    - [read_excel_data] (the three sheet layouts) and the helpers of
      [run_automation] and [get_measure_configs] that group and order its
      records;
    - [process_weights_targets_file]: the header row detector, the column
      mappers, the helper [extract_number], the setup-sheet mapping, the
      overrides (Step 1), the defaults (Step 2), and of Step 3 the matching
      of retailer names, the row filter and the pass that writes the
      retailer values;
    - [process_search_term_weights_file]: the header search, the row filter
      and the weights;
    - [process_category_brand_mapping]: the cleaning of the two sheets;
    - the step tracker and the monitoring log ([track_step],
      [log_operation], [complete_phase] and the metrics);
    followed by the properties of that code.  The browser automation is not
    part of it.

    Modelling conventions.
    - A Python [str] is a [string]; the text is taken to be ASCII, so
      [str.lower], [str.strip], [len] and the regular expression class [\d]
      are the ASCII ones.
    - A cell is a [pyval]: [None], a [bool], an [int], a [float] or a [str].
      A finite float is represented by the rational it denotes (kept in lowest
      terms); [nan] and the infinities are separate values, and the sign of
      zero is not represented.  The conversions [float(str)] and [float(int)]
      round to the nearest binary64 value ([binary64]).
    - An exception is a value of [exn]; code that may raise returns [res]. *)

From Stdlib Require Import ZArith QArith Ascii String DecimalString.
From stdpp Require Import gmap strings list fin_maps sorting.

Local Open Scope Z_scope.

(** ** Exceptions *)

Inductive exn : Set :=
| KeyError | ValueError | TypeError | OverflowError | IndexError
| AttributeError | OSError.

Inductive res (A : Type) : Type :=
| Ok (a : A)
| Raise (e : exn).
Arguments Ok {A} a.
Arguments Raise {A} e.

Definition rbind {A B} (m : res A) (k : A → res B) : res B :=
  match m with
  | Ok a => k a
  | Raise e => Raise e
  end.

Notation "'let?' x ':=' m 'in' k" := (rbind m (fun x => k))
  (at level 10, x name, m at level 100, k at level 200, only parsing).

(** [try: m except Exception as e: h e] *)
Definition try_except {A} (m : res A) (h : exn → res A) : res A :=
  match m with
  | Ok a => Ok a
  | Raise e => h e
  end.

Fixpoint rmapM {A B} (f : A → res B) (l : list A) : res (list B) :=
  match l with
  | [] => Ok []
  | a :: l' => let? b := f a in let? bs := rmapM f l' in Ok (b :: bs)
  end.

(** ** Python values *)

Inductive pyfloat : Set :=
| FNan
| FInf (neg : bool)
| FFin (q : Q).

Inductive pyval : Set :=
| PNone
| PBool (b : bool)
| PInt (z : Z)
| PFloat (f : pyfloat)
| PStr (s : string).

(** [pd.isna] / [pd.notna] on a scalar. *)
Definition isna (v : pyval) : bool :=
  match v with
  | PNone | PFloat FNan => true
  | _ => false
  end.

Definition notna (v : pyval) : bool := negb (isna v).

(** [value == ''] *)
Definition is_empty_str (v : pyval) : bool :=
  match v with
  | PStr EmptyString => true
  | _ => false
  end.

(** ** Strings *)

Definition ascii_in (lo hi : N) (a : ascii) : bool :=
  (lo <=? N_of_ascii a)%N && (N_of_ascii a <=? hi)%N.

(** [str.isspace] on an ASCII character: TAB..CR, FS..US and the space. *)
Definition is_space (a : ascii) : bool :=
  ascii_in 9 13 a || ascii_in 28 32 a.

Definition is_digit (a : ascii) : bool := ascii_in 48 57 a.

Definition digit_val (a : ascii) : option N :=
  if is_digit a then Some (N_of_ascii a - 48)%N else None.

Definition lower_ascii (a : ascii) : ascii :=
  if ascii_in 65 90 a then ascii_of_N (N_of_ascii a + 32) else a.

Definition upper_ascii (a : ascii) : ascii :=
  if ascii_in 97 122 a then ascii_of_N (N_of_ascii a - 32) else a.

Fixpoint str_map (f : ascii → ascii) (s : string) : string :=
  match s with
  | EmptyString => EmptyString
  | String a s' => String (f a) (str_map f s')
  end.

Definition lower : string → string := str_map lower_ascii.
Definition upper : string → string := str_map upper_ascii.

Fixpoint lstrip (s : string) : string :=
  match s with
  | EmptyString => EmptyString
  | String a s' => if is_space a then lstrip s' else s
  end.

Fixpoint rstrip (s : string) : string :=
  match s with
  | EmptyString => EmptyString
  | String a s' =>
      match rstrip s' with
      | EmptyString => if is_space a then EmptyString else String a EmptyString
      | r => String a r
      end
  end.

Definition strip (s : string) : string := rstrip (lstrip s).

Definition str_eqb (s t : string) : bool := bool_decide (s = t).

(** [hay.startswith(prefix)] *)
Fixpoint starts_with (prefix hay : string) : bool :=
  match prefix, hay with
  | EmptyString, _ => true
  | String a prefix', String b hay' => Ascii.eqb a b && starts_with prefix' hay'
  | String _ _, EmptyString => false
  end.

(** [needle in hay] *)
Fixpoint contains (needle hay : string) : bool :=
  starts_with needle hay ||
  match hay with
  | EmptyString => false
  | String _ hay' => contains needle hay'
  end.

(** [sep.join(l)] *)
Fixpoint join (sep : string) (l : list string) : string :=
  match l with
  | [] => ""
  | [s] => s
  | s :: l' => s +:+ sep +:+ join sep l'
  end.

Fixpoint take_while (p : ascii → bool) (s : string) : string :=
  match s with
  | EmptyString => EmptyString
  | String a s' => if p a then String a (take_while p s') else EmptyString
  end.

Fixpoint drop_while (p : ascii → bool) (s : string) : string :=
  match s with
  | EmptyString => EmptyString
  | String a s' => if p a then drop_while p s' else s
  end.

(** ** Number literals: [float(str)] and [int(str)] *)

(** The tail of a digit part: digits, each optionally preceded by one
    underscore.  Returns the accumulated value, the number of digits read and
    the unread rest. *)
Fixpoint digits_tail (acc : N) (n : nat) (s : string) : N * nat * string :=
  match s with
  | EmptyString => (acc, n, s)
  | String a s' =>
      match digit_val a with
      | Some d => digits_tail (10 * acc + d)%N (S n) s'
      | None =>
          if Ascii.eqb a "_" then
            match s' with
            | String b s'' =>
                match digit_val b with
                | Some d => digits_tail (10 * acc + d)%N (S n) s''
                | None => (acc, n, s)
                end
            | EmptyString => (acc, n, s)
            end
          else (acc, n, s)
      end
  end.

(** A digit part continues the mantissa [acc]; it starts with a digit. *)
Definition digitpart (acc : N) (s : string) : option (N * nat * string) :=
  match s with
  | String a s' =>
      match digit_val a with
      | Some d => Some (digits_tail (10 * acc + d)%N 1 s')
      | None => None
      end
  | EmptyString => None
  end.

(** An optional sign: [true] for a minus. *)
Definition read_sign (s : string) : bool * string :=
  match s with
  | String "-" s' => (true, s')
  | String "+" s' => (false, s')
  | _ => (false, s)
  end.

(** [m * 10^e] as a rational in lowest terms. *)
Definition scale10 (m e : Z) : Q :=
  if 0 <=? e then Qmake (m * 10 ^ e) 1
  else Qred (Qmake m (Z.to_pos (10 ^ (- e)))).

Definition signed (neg : bool) (m : N) : Z :=
  if neg then - Z.of_N m else Z.of_N m.

(** The optional exponent of a float literal; [None] when an exponent marker
    is not followed by digits. *)
Definition read_exponent (s : string) : option (Z * string) :=
  match s with
  | String a s' =>
      if Ascii.eqb (lower_ascii a) "e" then
        let '(eneg, s1) := read_sign s' in
        match digitpart 0 s1 with
        | Some (e, _, rest) => Some (signed eneg e, rest)
        | None => None
        end
      else Some (0, s)
  | EmptyString => Some (0, s)
  end.

(** The integer nearest to [a / b] for [0 ≤ a] and [0 < b], a tie going to
    the even one. *)
Definition round_half_even (a b : Z) : Z :=
  let k := a / b in
  match 2 * (a mod b) ?= b with
  | Lt => k
  | Gt => k + 1
  | Eq => if Z.even k then k else k + 1
  end.

(** [m * 2^p] as a rational in lowest terms. *)
Definition scale2 (m p : Z) : Q :=
  if 0 <=? p then Qmake (m * 2 ^ p) 1
  else Qred (Qmake m (Z.to_pos (2 ^ (- p)))).

(** The binary64 value nearest to a rational, as the conversion of a
    literal and the float arithmetic produce it: 53 significant bits, no
    exponent below -1074, ties to the even significand, and an infinity
    from [2^1024 - 2^970] on. *)
Definition binary64 (q : Q) : pyfloat :=
  let q := Qred q in
  let neg := Qnum q <? 0 in
  let n := Z.abs (Qnum q) in
  let d := Z.pos (Qden q) in
  if n =? 0 then FFin 0
  else
    let e0 := Z.log2 n - Z.log2 d in
    let e :=
      if n * 2 ^ Z.max 0 (- e0) <? d * 2 ^ Z.max 0 e0 then e0 - 1 else e0 in
    let p := Z.max (e - 52) (-1074) in
    let m := round_half_even (n * 2 ^ Z.max 0 (- p)) (d * 2 ^ Z.max 0 p) in
    if m =? 0 then FFin 0
    else if 1024 <=? Z.log2 m + p then FInf neg
    else FFin (scale2 (if neg then - m else m) p).

(** The digits of a float literal after its sign: an integer part, a
    fraction, or both, then an optional exponent and nothing else. *)
Definition float_digits (neg : bool) (s : string) : option pyfloat :=
  let '(m1, n1, r1) :=
    match digitpart 0 s with
    | Some t => t
    | None => (0%N, 0%nat, s)
    end in
  let '(m2, n2, r2) :=
    match r1 with
    | String "." r1' =>
        match digitpart m1 r1' with
        | Some t => t
        | None => (m1, 0%nat, r1')
        end
    | _ => (m1, 0%nat, r1)
    end in
  if (n1 + n2 =? 0)%nat then None
  else
    match read_exponent r2 with
    | Some (e, EmptyString) =>
        Some (binary64 (scale10 (signed neg m2) (e - Z.of_nat n2)))
    | _ => None
    end.

(** [float(s)] for a [str]: [None] stands for the [ValueError]. *)
Definition py_float (s : string) : option pyfloat :=
  let '(neg, body) := read_sign (strip s) in
  let word := lower body in
  if str_eqb word "inf" || str_eqb word "infinity" then Some (FInf neg)
  else if str_eqb word "nan" then Some FNan
  else float_digits neg body.

(** [int(s)] for a [str], base 10. *)
Definition py_int_str (s : string) : option Z :=
  let '(neg, body) := read_sign (strip s) in
  match digitpart 0 body with
  | Some (m, _, EmptyString) => Some (signed neg m)
  | _ => None
  end.

(** [int(v)]: truncation toward zero for a float. *)
Definition py_int (v : pyval) : res Z :=
  match v with
  | PNone => Raise TypeError
  | PBool b => Ok (if b then 1 else 0)
  | PInt z => Ok z
  | PFloat FNan => Raise ValueError
  | PFloat (FInf _) => Raise OverflowError
  | PFloat (FFin q) => Ok (Z.quot (Qnum q) (Z.pos (Qden q)))
  | PStr s =>
      match py_int_str s with
      | Some z => Ok z
      | None => Raise ValueError
      end
  end.

(** ** [extract_number] (nested in [process_weights_targets_file]) *)

Definition is_numchar (a : ascii) : bool := is_digit a || Ascii.eqb a ".".

(** [re.search(r'([\d.]+)', s)]: the leftmost maximal run of digits and dots. *)
Definition re_search_number (s : string) : option string :=
  match drop_while (fun a => negb (is_numchar a)) s with
  | EmptyString => None
  | rest => Some (take_while is_numchar rest)
  end.

Definition extract_number (value : pyval) : pyval :=
  if isna value || is_empty_str value then PNone
  else
    match value with
    | PStr s =>
        let value_str := strip s in
        if contains "%" value_str then
          match re_search_number value_str with
          | Some group =>
              match py_float group with
              | Some num_value => PFloat num_value
              | None => value            (* except Exception: return value *)
              end
          | None => value                (* no match: the final return value *)
          end
        else
          match py_float value_str with
          | Some num_value => PFloat num_value
          | None => PNone                (* inner except: return None *)
          end
    | _ => value
    end.

(** ** The caller's reading of a weight or target cell:
    [row[col] if pd.notna(row[col]) else None] *)
Definition raw_cell (v : pyval) : pyval := if notna v then v else PNone.

(** [repr] of a finite float (the shortest digits that read back as the same
    binary64 value).  It is not computed here: the development is
    parameterised by it. *)
Class FloatRepr : Type := float_repr : Q → string.

Section Normaliser.

Context `{FloatRepr}.

(** [str(v)] *)
Definition py_str (v : pyval) : string :=
  match v with
  | PNone => "None"
  | PBool true => "True"
  | PBool false => "False"
  | PInt z => NilZero.string_of_int (Z.to_int z)
  | PFloat FNan => "nan"
  | PFloat (FInf true) => "-inf"
  | PFloat (FInf false) => "inf"
  | PFloat (FFin q) => float_repr q
  | PStr s => s
  end.

(** ** Data frames

    A frame as pandas hands it over after reading: the column labels (text)
    and the data rows in index order; the index is the default [RangeIndex],
    so the label [idx] of a row is its 0-based position. *)

Record DataFrame : Type := {
  columns : list string;
  rows : list (list pyval)
}.

(** [df.columns = df.columns.str.strip()] *)
Definition strip_columns (df : DataFrame) : DataFrame :=
  {| columns := map strip (columns df); rows := rows df |}.

(** [name in df.columns] *)
Definition has_column (cols : list string) (name : string) : bool :=
  existsb (str_eqb name) cols.

Fixpoint label_positions (name : string) (cols : list string) (i : nat)
  : list nat :=
  match cols with
  | [] => []
  | c :: cols' =>
      if str_eqb name c then i :: label_positions name cols' (S i)
      else label_positions name cols' (S i)
  end.

Inductive label_pos : Set :=
| Absent
| At (i : nat)
| Ambiguous.

Definition find_label (cols : list string) (name : string) : label_pos :=
  match label_positions name cols 0 with
  | [] => Absent
  | [i] => At i
  | _ => Ambiguous
  end.

(** [row.iloc[i]] *)
Definition row_iloc (row : list pyval) (i : nat) : res pyval :=
  match row !! i with
  | Some v => Ok v
  | None => Raise IndexError
  end.

(** [row[name]].  With a label that occurs twice pandas returns a Series, and
    every use this code makes of it (the truth value of [pd.notna] of it, or
    [.dtype] of the frame slice) raises. *)
Definition row_item (cols : list string) (row : list pyval) (name : string)
  : res pyval :=
  match find_label cols name with
  | Absent => Raise KeyError
  | At i => row_iloc row i
  | Ambiguous => Raise ValueError
  end.

(** [row.get(name, default)] *)
Definition row_get (cols : list string) (row : list pyval) (name : string)
    (default : pyval) : res pyval :=
  match find_label cols name with
  | Absent => Ok default
  | At i => row_iloc row i
  | Ambiguous => Raise ValueError
  end.

(** [str(row[name]).strip() if pd.notna(row[name]) else ""] *)
Definition cell_text (cols : list string) (row : list pyval) (name : string)
  : res string :=
  let? c := row_item cols row name in
  if notna c then let? v := row_item cols row name in Ok (strip (py_str v))
  else Ok "".

(** [str(row[name]).strip() if pd.notna(row.get(name, '')) else ""] *)
Definition cell_text_get (cols : list string) (row : list pyval)
    (name : string) : res string :=
  let? c := row_get cols row name (PStr "") in
  if notna c then let? v := row_item cols row name in Ok (strip (py_str v))
  else Ok "".

(** [df[name]] as the list of its cells. *)
Definition column_cells (df : DataFrame) (name : string) : res (list pyval) :=
  match find_label (columns df) name with
  | Absent => Raise KeyError
  | At i => rmapM (fun row => row_iloc row i) (rows df)
  | Ambiguous => Raise AttributeError
  end.

(** ** The boolean selection column *)

Inductive dtype : Set := DBool | DInt | DFloat | DObject.

Definition is_bool_cell (v : pyval) : bool :=
  match v with PBool _ => true | _ => false end.
Definition is_int_cell (v : pyval) : bool :=
  match v with PInt _ => true | _ => false end.
Definition is_number_cell (v : pyval) : bool :=
  match v with PInt _ | PFloat _ => true | _ => false end.

(** The dtype pandas gives a column holding these cells: [bool] for booleans
    only, [int64] for integers only, [float64] for numbers only, [object]
    for anything else (text, or a mixture). *)
Definition series_dtype (cells : list pyval) : dtype :=
  if forallb is_bool_cell cells then DBool
  else if forallb is_int_cell cells then DInt
  else if forallb is_number_cell cells then DFloat
  else DObject.

(** [.fillna(False)] *)
Definition fillna_false (cells : list pyval) : list pyval :=
  map (fun v => if isna v then PBool false else v) cells.

(** [.map({'true': True, 'false': False, '': False, 'nan': False})]: a text
    that is not a key becomes NaN. *)
Definition map_flag (s : string) : pyval :=
  if str_eqb s "true" then PBool true
  else if str_eqb s "false" then PBool false
  else if str_eqb s "" then PBool false
  else if str_eqb s "nan" then PBool false
  else PFloat FNan.

(** [v == True] on a cell *)
Definition eq_true (v : pyval) : bool :=
  match v with
  | PBool b => b
  | PInt z => (z =? 1)%Z
  | PFloat (FFin q) => Qeq_bool q 1
  | _ => false
  end.

(** The column after
    [df[c] = df[c].fillna(False)] and, for an [object] column,
    [.astype(str).str.strip().str.lower()], [.map(...)], [.fillna(False)]. *)
Definition normalize_selection (cells : list pyval) : list pyval :=
  let filled := fillna_false cells in
  match series_dtype filled with
  | DObject =>
      fillna_false (map (fun v => map_flag (lower (strip (py_str v)))) filled)
  | _ => filled
  end.

(** The mask [df[c] == True]. *)
Definition selection_mask (cells : list pyval) : list bool :=
  map eq_true (normalize_selection cells).

(** [df[mask]] with the index labels of the rows kept. *)
Fixpoint select_rows {A} (mask : list bool) (l : list A) : list A :=
  match mask, l with
  | true :: mask', a :: l' => a :: select_rows mask' l'
  | false :: mask', _ :: l' => select_rows mask' l'
  | _, _ => []
  end.

Definition selection_col : string := "Scorecard Measure Selection/Add Measure".

(** ** [read_excel_data] *)

Record MeasureRecord : Type := {
  measure_group : string;
  standard_kpis : string;
  measure_display_name : string;
  definition : string;
  order : option Z
}.

(** [if not measure_group or measure_group == "nan": continue] *)
Definition blank_group (g : string) : bool := str_eqb g "" || str_eqb g "nan".

(** [[str(val).strip().lower() if pd.notna(val) else "" for val in row]] *)
Definition row_values_lower (row : list pyval) : list string :=
  map (fun val => if notna val then lower (strip (py_str val)) else "") row.

(** The header search loops: the first of the first [n] rows whose joined
    text contains one of [keys], else 0. *)
Fixpoint search_header (keys : list string) (n : nat) (i : nat)
    (grid : list (list pyval)) : nat :=
  match n, grid with
  | S n', row :: grid' =>
      if existsb (fun k => contains k (join " " (row_values_lower row))) keys
      then i
      else search_header keys n' (S i) grid'
  | _, _ => 0%nat
  end.

(** What pandas returns for the path: [read_table k] is
    [pd.read_csv / pd.read_excel (path, header=k)], [read_grid n] the rows of
    [(path, header=None, nrows=n)]. *)
Record source_file : Type := {
  is_csv : bool;
  read_table : nat → res DataFrame;
  read_grid : nat → res (list (list pyval))
}.

Definition load_frame (f : source_file) : res DataFrame :=
  if is_csv f then
    try_except (read_table f 2)
      (fun _ =>
         let? grid := read_grid f 10 in
         read_table f
           (search_header ["measure group"; "scorecard measure selection"]
              10 0 grid))
  else
    let? df_temp := read_grid f 5 in
    let header_row :=
      search_header
        ["measure group"; "scorecard measure selection"; "grouping name"]
        5 0 df_temp in
    let? header_row :=
      if (header_row =? 0)%nat then
        match df_temp with
        | [] => Raise IndexError
        | first :: _ =>
            let first_row_str := join " " (row_values_lower first) in
            if contains "#ref!" first_row_str
               || contains "unnamed" (lower first_row_str)
            then Ok 1%nat else Ok header_row
        end
      else Ok header_row in
    read_table f header_row.

(** The first column whose label contains 'Internal', 'Measures' and 'Name'. *)
Definition find_internal_col (cols : list string) : option string :=
  List.find (fun col => contains "Internal" col && contains "Measures" col
                        && contains "Name" col) cols.

(** [int(row['Measure Order']) if pd.notna(row.get('Measure Order', ''))
    else (idx + 1)] *)
Definition measure_order_of (cols : list string) (idx : nat)
    (row : list pyval) : res Z :=
  let? c := row_get cols row "Measure Order" (PStr "") in
  if notna c then let? v := row_item cols row "Measure Order" in py_int v
  else Ok (Z.of_nat idx + 1).

(** One row of the 'Grouping Name' layout; [None] when the row is skipped. *)
Definition grouping_row (cols : list string) (idx : nat) (row : list pyval)
  : res (option MeasureRecord) :=
  let? grouping_name := cell_text_get cols row "Grouping Name" in
  let? client_name := cell_text_get cols row "Client Name of Metric" in
  let? internal_name :=
    match find_internal_col cols with
    | Some internal_col =>
        if negb (str_eqb internal_col "") then
          cell_text_get cols row internal_col
        else Ok ""
    | None => Ok ""
    end in
  let? notes := cell_text_get cols row "Notes" in
  let? measure_order := measure_order_of cols idx row in
  if blank_group grouping_name then Ok None
  else
    Ok (Some {| measure_group := grouping_name;
                standard_kpis := internal_name;
                measure_display_name :=
                  if negb (str_eqb client_name "")
                     && negb (str_eqb client_name "nan")
                  then client_name else internal_name;
                definition := notes;
                order := Some measure_order |}).

(** One kept row of the selection-flag layout. *)
Definition selection_row (cols : list string) (row : list pyval)
  : res (option MeasureRecord) :=
  let? group := cell_text cols row "Measure Group" in
  let? measure_name := cell_text cols row "Measure Name" in
  let? display_name := cell_text cols row "Display Name" in
  let? defn := cell_text_get cols row "Definitions" in
  if blank_group group then Ok None
  else
    Ok (Some {| measure_group := group;
                standard_kpis := measure_name;
                measure_display_name :=
                  if negb (str_eqb display_name "")
                     && negb (str_eqb display_name "nan")
                  then display_name else measure_name;
                definition := defn;
                order := None |}).

(** [str(row.iloc[i]).strip() if len(row) > i and pd.notna(row.iloc[i]) else ""] *)
Definition iloc_text (row : list pyval) (i : nat) : string :=
  match row !! i with
  | Some v => if notna v then strip (py_str v) else ""
  | None => ""
  end.

(** One row of the plain four-column layout. *)
Definition plain_row (cols : list string) (row : list pyval)
  : res (option MeasureRecord) :=
  let? fields :=
    if has_column cols "Measure Group" then
      let? g := cell_text_get cols row "Measure Group" in
      let? k := cell_text_get cols row "Standard KPIs" in
      let? d := cell_text_get cols row "Measure Display Name" in
      let? n := cell_text_get cols row "Definition" in
      Ok (g, k, d, n)
    else
      let? first := row_iloc row 0 in
      let first_col_val :=
        if notna first then lower (strip (py_str first)) else "" in
      if existsb (str_eqb first_col_val) ["nan"; ""; "#ref!"]
         || contains "unnamed" first_col_val
      then Ok (iloc_text row 1, iloc_text row 2, iloc_text row 3,
               iloc_text row 4)
      else Ok ((if notna first then strip (py_str first) else ""),
               iloc_text row 1, iloc_text row 2, iloc_text row 3) in
  let '(g, k, d, n) := fields in
  if blank_group g then Ok None
  else
    Ok (Some {| measure_group := g; standard_kpis := k;
                measure_display_name := d; definition := n;
                order := None |}).

(** The [for idx, row in ...iterrows()] loops: the rows in order, each either
    appended, skipped, or raising (which abandons the whole loop). *)
Fixpoint collect_rows (f : nat → list pyval → res (option MeasureRecord))
    (idx : nat) (rs : list (list pyval)) : res (list MeasureRecord) :=
  match rs with
  | [] => Ok []
  | row :: rs' =>
      let? r := f idx row in
      let? data := collect_rows f (S idx) rs' in
      Ok (match r with Some x => x :: data | None => data end)
  end.

Inductive Layout : Set := Grouping | SelectionFlag | Plain.

Definition layout_of (cols : list string) : Layout :=
  if has_column cols "Grouping Name" then Grouping
  else if has_column cols selection_col then SelectionFlag
  else Plain.

(** The body of [read_excel_data] from [df.columns = ...] on. *)
Definition records_of_frame (df0 : DataFrame) : res (list MeasureRecord) :=
  let df := strip_columns df0 in
  let cols := columns df in
  match layout_of cols with
  | Grouping => collect_rows (grouping_row cols) 0 (rows df)
  | SelectionFlag =>
      let? cells := column_cells df selection_col in
      let df_filtered := select_rows (selection_mask cells) (rows df) in
      collect_rows (fun _ => selection_row cols) 0 df_filtered
  | Plain => collect_rows (fun _ => plain_row cols) 0 (rows df)
  end.

(** The statements inside the [try] of [read_excel_data]. *)
Definition read_excel_body (f : source_file) : res (list MeasureRecord) :=
  let? df := load_frame f in
  records_of_frame df.

(** [read_excel_data]: [try: <body>; return data] with the handler
    [except Exception as e: ...; return None].  The result of the call is
    [Ok v] when it returns [v] and [Raise e] when [e] reaches the caller. *)
Definition read_excel_data (f : source_file)
  : res (option (list MeasureRecord)) :=
  try_except (let? data := read_excel_body f in Ok (Some data))
             (fun _ => Ok None).

(** ** [process_weights_targets_file]: the header row detector *)

Record pattern_info : Type := {
  keywords : list string;
  weight : Z;
  max_length : nat
}.

Definition column_patterns : list (string * pattern_info) :=
  [ ("target", {| keywords := ["target"]; weight := 3; max_length := 30 |});
    ("weight",
      {| keywords := ["weight"; "weig"]; weight := 3; max_length := 30 |});
    ("metric_name",
      {| keywords := ["metric name"; "measure name"]; weight := 2;
         max_length := 30 |});
    ("display_name",
      {| keywords := ["display name"]; weight := 2; max_length := 30 |});
    ("retailer", {| keywords := ["retailer"]; weight := 1; max_length := 30 |});
    ("measure_group",
      {| keywords := ["measure group"; "grouping name"]; weight := 1;
         max_length := 30 |});
    ("selection",
      {| keywords := ["selection"; "add measure"]; weight := 1;
         max_length := 50 |}) ].

Definition max_rows_to_check : nat := 30.
Definition default_header_row : nat := 2.
Definition min_header_score : Z := 5.

(** [[str(val).strip() if pd.notna(val) else "" for val in row]] *)
Definition row_values (row : list pyval) : list string :=
  map (fun val => if notna val then strip (py_str val) else "") row.

(** [for keyword in keywords: if keyword in val: score += weight; break] *)
Fixpoint keyword_loop (kws : list string) (val : string) (w score : Z) : Z :=
  match kws with
  | [] => score
  | keyword :: kws' =>
      if contains keyword val then score + w
      else keyword_loop kws' val w score
  end.

(** [for val in row_lower: if len(val) <= max_length: <keyword loop>] *)
Definition cell_loop (p : pattern_info) (row_lower : list string) (score : Z)
  : Z :=
  fold_left
    (fun sc val =>
       if (String.length val <=? max_length p)%nat
       then keyword_loop (keywords p) val (weight p) sc
       else sc)
    row_lower score.

(** [for pattern_name, pattern_info in column_patterns.items(): ...] *)
Definition pattern_loop (row_lower : list string) : Z :=
  fold_left (fun sc np => cell_loop (snd np) row_lower sc) column_patterns 0.

Definition count_if {A} (p : A → bool) (l : list A) : nat :=
  length (List.filter p l).

Definition nonempty (v : string) : bool := negb (str_eqb v "").

(** The score of one candidate row, [None] when the row is skipped by a
    [continue].  [empty_ratio > 0.7] is decided on the integers
    ([10 * empties > 7 * cells]); for rows shorter than 2^50 cells the
    binary64 quotient compares the same way. *)
Definition row_score (row : list pyval) : option Z :=
  let vals := row_values row in
  let row_lower := row_values_lower row in
  if (count_if nonempty vals <? 3)%nat then None
  else if (2 <? count_if (fun v => 50 <? String.length v) vals)%nat then None
  else
    let score := pattern_loop row_lower in
    let short_values :=
      count_if (fun v => (String.length v <? 30)%nat && nonempty v) vals in
    let score := if (4 <=? short_values)%nat then score + 2 else score in
    let empties := count_if (fun v => negb (nonempty v)) vals in
    let score :=
      if (7 * Z.of_nat (Nat.max (length vals) 1) <? 10 * Z.of_nat empties)
      then score - 5 else score in
    Some score.

(** The scan [for i in range(min(max_rows_to_check, len(temp_df)))], carrying
    [(best_score, best_row)]. *)
Fixpoint scan_rows (n i : nat) (grid : list (list pyval))
    (best : Z * option nat) : Z * option nat :=
  match n, grid with
  | S n', row :: grid' =>
      let best' :=
        match row_score row with
        | Some score => if fst best <? score then (score, Some i) else best
        | None => best
        end in
      scan_rows n' (S i) grid' best'
  | _, _ => best
  end.

Definition detect_header_row (temp_df : list (list pyval)) : nat :=
  let '(best_score, best_row) :=
    scan_rows max_rows_to_check 0 temp_df (0, None) in
  match best_row with
  | Some r => if min_header_score <=? best_score then r else default_header_row
  | None => default_header_row
  end.

(** ** The column mappers *)

(** Truth value of a variable holding [None] or a label. *)
Definition truthy (c : option string) : bool :=
  match c with
  | Some s => nonempty s
  | None => false
  end.

Definition is_none {A} (o : option A) : bool :=
  match o with None => true | Some _ => false end.

Record ColumnMap : Type := {
  target_col : option string;
  metric_col : option string;
  display_name_col : option string;
  weight_col : option string;
  retailer_col : option string
}.

Definition no_columns : ColumnMap :=
  {| target_col := None; metric_col := None; display_name_col := None;
     weight_col := None; retailer_col := None |}.

(** One turn of [for col in setup_df.columns]. *)
Definition map_setup_column (m : ColumnMap) (col : string) : ColumnMap :=
  let col_lower := lower col in
  if contains "target" col_lower && is_none (target_col m)
     && negb (contains "retailer" col_lower)
  then {| target_col := Some col; metric_col := metric_col m;
          display_name_col := display_name_col m;
          weight_col := weight_col m; retailer_col := retailer_col m |}
  else if contains "display" col_lower && contains "name" col_lower
  then {| target_col := target_col m; metric_col := metric_col m;
          display_name_col := Some col;
          weight_col := weight_col m; retailer_col := retailer_col m |}
  else if (contains "metric" col_lower && contains "name" col_lower)
          || (contains "measure" col_lower && contains "name" col_lower)
  then
    if is_none (metric_col m)
    then {| target_col := target_col m; metric_col := Some col;
            display_name_col := display_name_col m;
            weight_col := weight_col m; retailer_col := retailer_col m |}
    else m
  else if (contains "metric" col_lower && contains "weight" col_lower)
          || (contains "measure" col_lower && contains "weight" col_lower)
  then
    if is_none (weight_col m)
    then {| target_col := target_col m; metric_col := metric_col m;
            display_name_col := display_name_col m;
            weight_col := Some col; retailer_col := retailer_col m |}
    else m
  else if contains "retailer" col_lower && negb (contains "target" col_lower)
          && negb (contains "weight" col_lower)
  then {| target_col := target_col m; metric_col := metric_col m;
          display_name_col := display_name_col m;
          weight_col := weight_col m; retailer_col := Some col |}
  else m.

(** The loop, followed by
    [if display_name_col: metric_col = display_name_col]. *)
Definition map_setup_columns (cols : list string) : ColumnMap :=
  let m := fold_left map_setup_column cols no_columns in
  if truthy (display_name_col m)
  then {| target_col := target_col m; metric_col := display_name_col m;
          display_name_col := display_name_col m;
          weight_col := weight_col m; retailer_col := retailer_col m |}
  else m.

(** The retailer sheet: [for col in retailer_df.columns]. *)
Record RetailerColumns : Type := {
  retailer_name_col : option string;
  retailer_target_col : option string;
  retailer_weight_col : option string
}.

Inductive retailer_field : Set :=
| RetailerName | RetailerTarget | RetailerWeight.

(** The branch of the [if]/[elif] chain a retailer-sheet label takes. *)
Definition classify_retailer_column (col : string) : option retailer_field :=
  let col_lower := lower col in
  if contains "retailer" col_lower && negb (contains "target" col_lower)
     && negb (contains "weight" col_lower)
  then Some RetailerName
  else if contains "retailer" col_lower && contains "target" col_lower
  then Some RetailerTarget
  else if contains "retailer" col_lower && contains "weight" col_lower
  then Some RetailerWeight
  else None.

Definition map_retailer_column (m : RetailerColumns) (col : string)
  : RetailerColumns :=
  match classify_retailer_column col with
  | Some RetailerName =>
      {| retailer_name_col := Some col;
         retailer_target_col := retailer_target_col m;
         retailer_weight_col := retailer_weight_col m |}
  | Some RetailerTarget =>
      {| retailer_name_col := retailer_name_col m;
         retailer_target_col := Some col;
         retailer_weight_col := retailer_weight_col m |}
  | Some RetailerWeight =>
      {| retailer_name_col := retailer_name_col m;
         retailer_target_col := retailer_target_col m;
         retailer_weight_col := Some col |}
  | None => m
  end.

Definition map_retailer_columns (cols : list string) : RetailerColumns :=
  fold_left map_retailer_column cols
    {| retailer_name_col := None; retailer_target_col := None;
       retailer_weight_col := None |}.

(** ** The setup-sheet mapping and the two passes over the export file *)

(** The export file's shortened column names. *)
Definition normalize_export_column (col : string) : string :=
  let col_str := lower (strip col) in
  let among l := existsb (str_eqb col_str) l in
  if among ["targ"; "target"] then "target"
  else if among ["weig"; "weight"] then "weight"
  else if among ["retailer"; "ret"] then "retailer"
  else if among ["scorecard"; "score"] then "scorecard"
  else if among ["brand"; "br"] then "brand"
  else if among ["measure_group"; "measuregroup"; "mg"] then "measure_group"
  else if among ["measure_config"; "measureconfig"; "mc"] then "measure_config"
  else col.

Definition rename_export_columns (df : DataFrame) : DataFrame :=
  {| columns := map normalize_export_column (columns df); rows := rows df |}.

(** The setup sheet rows kept by the selection column, when there is one. *)
Definition filter_setup_rows (setup_df : DataFrame) : res DataFrame :=
  if has_column (columns setup_df) selection_col then
    let? cells := column_cells setup_df selection_col in
    Ok {| columns := columns setup_df;
          rows := select_rows (selection_mask cells) (rows setup_df) |}
  else Ok setup_df.

(** [{'target': target_val, 'weight': weight_val}] *)
Record setup_entry : Type := {
  entry_target : pyval;
  entry_weight : pyval
}.

(** The keys of [setup_mapping]: a metric name, or a (retailer, metric)
    tuple when the setup sheet has a retailer column. *)
Abbreviation setup_key := (string + string * string)%type.

Record SetupMappings : Type := {
  setup_mapping : gmap setup_key setup_entry;
  setup_mapping_all : gmap string setup_entry
}.

Definition no_mappings : SetupMappings :=
  {| setup_mapping := ∅; setup_mapping_all := ∅ |}.

(** One turn of [for idx, row in setup_df.iterrows()]. *)
Definition add_setup_row (cols : list string)
    (target_c metric_c weight_c : string) (retailer_c : option string)
    (maps : SetupMappings) (row : list pyval) : res SetupMappings :=
  let? metric_name := cell_text cols row metric_c in
  let? t := row_item cols row target_c in
  let target_val_raw := raw_cell t in
  let? w := row_item cols row weight_c in
  let weight_val_raw := raw_cell w in
  let data := {| entry_target := extract_number target_val_raw;
                 entry_weight := extract_number weight_val_raw |} in
  if blank_group metric_name then Ok maps
  else
    match retailer_c with
    | Some rc =>
        let? retailer_name := cell_text cols row rc in
        let retailer_name_upper :=
          if nonempty retailer_name then upper retailer_name else "" in
        if str_eqb retailer_name_upper "ALL" then
          Ok {| setup_mapping := setup_mapping maps;
                setup_mapping_all :=
                  <[lower metric_name := data]> (setup_mapping_all maps) |}
        else
          let key :=
            ((if nonempty retailer_name then lower retailer_name else ""),
             lower metric_name) in
          Ok {| setup_mapping := <[inr key := data]> (setup_mapping maps);
                setup_mapping_all := setup_mapping_all maps |}
    | None =>
        Ok {| setup_mapping :=
                <[inl (lower metric_name) := data]> (setup_mapping maps);
              setup_mapping_all := setup_mapping_all maps |}
    end.

Fixpoint build_setup_mappings (cols : list string)
    (target_c metric_c weight_c : string) (retailer_c : option string)
    (maps : SetupMappings) (rs : list (list pyval)) : res SetupMappings :=
  match rs with
  | [] => Ok maps
  | row :: rs' =>
      let? maps' :=
        add_setup_row cols target_c metric_c weight_c retailer_c maps row in
      build_setup_mappings cols target_c metric_c weight_c retailer_c maps' rs'
  end.

(** [s.isna() | (s == '')] on a cell *)
Definition blank_cell (v : pyval) : bool := isna v || is_empty_str v.

(** [cell == name] for a text [name] *)
Definition eq_str (v : pyval) (name : string) : bool :=
  match v with
  | PStr s => str_eqb s name
  | _ => false
  end.

(** [metric_mask], one flag per export row. *)
Definition metric_mask (export_df : DataFrame) (scorecard_name : string)
  : res (list bool) :=
  let? scorecard := column_cells export_df "scorecard" in
  let? retailer := column_cells export_df "retailer" in
  let? brand_filter :=
    if has_column (columns export_df) "brand" then
      let? brand := column_cells export_df "brand" in
      Ok (map blank_cell brand)
    else Ok (map (fun _ => true) (rows export_df)) in
  let? mgroup := column_cells export_df "measure_group" in
  let? mconfig := column_cells export_df "measure_config" in
  Ok (zip_with andb
        (zip_with andb
           (zip_with andb
              (zip_with andb
                 (map (fun v => eq_str v scorecard_name) scorecard)
                 (map blank_cell retailer))
              brand_filter)
           (map blank_cell mgroup))
        (map (fun v => notna v && negb (is_empty_str v)) mconfig)).

(** The index labels [export_df[metric_mask].index]. *)
Fixpoint masked_index (i : nat) (mask : list bool) : list nat :=
  match mask with
  | [] => []
  | b :: mask' =>
      if b then i :: masked_index (S i) mask' else masked_index (S i) mask'
  end.

(** [export_df.at[idx, name]] *)
Definition at_get (df : DataFrame) (idx : nat) (name : string) : res pyval :=
  match rows df !! idx with
  | Some row => row_item (columns df) row name
  | None => Raise KeyError
  end.

(** [export_df.at[idx, name] = v] *)
Definition at_set (df : DataFrame) (idx : nat) (name : string) (v : pyval)
  : res DataFrame :=
  match find_label (columns df) name, rows df !! idx with
  | At j, Some row =>
      Ok {| columns := columns df;
            rows := <[idx := <[j := v]> row]> (rows df) |}
  | Absent, _ | _, None => Raise KeyError
  | Ambiguous, _ => Raise ValueError
  end.

(** The setup entry that matches one export row, if any. *)
Definition find_setup_data (maps : SetupMappings) (has_retailer_col : bool)
    (cols : list string) (row : list pyval) (metric_key : string)
  : res (option setup_entry) :=
  if has_retailer_col && has_column cols "retailer" then
    let? retailer_name := cell_text_get cols row "retailer" in
    let retailer_key :=
      if nonempty retailer_name then lower retailer_name else "" in
    match setup_mapping maps !! inr (retailer_key, metric_key) with
    | Some d => Ok (Some d)
    | None => Ok (setup_mapping_all maps !! metric_key)
    end
  else Ok (setup_mapping maps !! inl metric_key).

(** [if pd.notna(setup_data[field]): old = at[idx, field]; at[idx, field] = ...] *)
Definition override_cell (df : DataFrame) (idx : nat) (name : string)
    (v : pyval) : res DataFrame :=
  if notna v then
    let? _old := at_get df idx name in
    at_set df idx name v
  else Ok df.

(** One turn of [for idx in export_df[metric_mask].index]. *)
Definition override_row (maps : SetupMappings) (has_retailer_col : bool)
    (df : DataFrame) (idx : nat) : res DataFrame :=
  match rows df !! idx with
  | None => Raise KeyError
  | Some row =>
      let? measure_config := cell_text (columns df) row "measure_config" in
      if blank_group measure_config then Ok df
      else
        let metric_key := lower measure_config in
        let? setup_data :=
          find_setup_data maps has_retailer_col (columns df) row metric_key in
        match setup_data with
        | Some d =>
            let? df1 := override_cell df idx "target" (entry_target d) in
            override_cell df1 idx "weight" (entry_weight d)
        | None => Ok df
        end
  end.

(** Step 1: the metric-level values of the setup sheet. *)
Fixpoint apply_overrides (maps : SetupMappings) (has_retailer_col : bool)
    (df : DataFrame) (index : list nat) : res DataFrame :=
  match index with
  | [] => Ok df
  | idx :: index' =>
      let? df' := override_row maps has_retailer_col df idx in
      apply_overrides maps has_retailer_col df' index'
  end.

(** [pd.isna(v) or v == '' or v is None] *)
Definition is_blank (v : pyval) : bool := isna v || is_empty_str v.

(** [for idx, row in export_df.iterrows(): if <blank>: at[idx, name] = dflt],
    from row [idx] on for [n] rows. *)
Fixpoint fill_blank (name : string) (dflt : pyval) (n idx : nat)
    (df : DataFrame) : res DataFrame :=
  match n with
  | O => Ok df
  | S n' =>
      match rows df !! idx with
      | None => Ok df
      | Some row =>
          let? v := row_get (columns df) row name PNone in
          let? df' := if is_blank v then at_set df idx name dflt else Ok df in
          fill_blank name dflt n' (S idx) df'
      end
  end.

Definition default_target : pyval := PInt 50.
Definition default_weight : pyval := PFloat (FFin 1).

(** Step 2: the defaults for the cells still empty. *)
Definition apply_defaults (df : DataFrame) : res DataFrame :=
  let? df1 :=
    if has_column (columns df) "target"
    then fill_blank "target" default_target (length (rows df)) 0 df
    else Ok df in
  if has_column (columns df1) "weight"
  then fill_blank "weight" default_weight (length (rows df1)) 0 df1
  else Ok df1.

(** The diagnostics stored in [automation_status["message"]] when the
    function returns [False]; [found] is the [list(df.columns)] that the
    message prints. *)
Inductive diagnostic : Type :=
| ExportFileMissing
| SetupSheetMissing
| RequiredColumnsNotFound (found : list string)
| MeasureConfigMissing (found : list string)
| ProcessingError (e : exn).

(** [Failed d]: [return False] with message [d]; nothing has been written.
    [Resolved df]: the export frame after Step 2, from which the retailer
    step (which only writes non-missing numbers) and the CSV writer go on. *)
Inductive outcome : Type :=
| Failed (d : diagnostic)
| Resolved (export_df : DataFrame).

Record phase2_input : Type := {
  export_exists : bool;
  setup_exists : bool;
  read_export : res DataFrame;
  setup_sheet : source_file;
  scorecard_name : string
}.

Definition all_truthy (m : ColumnMap) : bool :=
  truthy (target_col m) && truthy (metric_col m) && truthy (weight_col m).

(** From the mapped setup sheet to the export frame after Step 2. *)
Definition resolve_with_setup (setup_df : DataFrame) (export_df : DataFrame)
    (scorecard : string) : res outcome :=
  let m := map_setup_columns (columns setup_df) in
  match target_col m, metric_col m, weight_col m with
  | Some target_c, Some metric_c, Some weight_c =>
      if negb (all_truthy m)
      then Ok (Failed (RequiredColumnsNotFound (columns setup_df)))
      else
        let has_retailer_col := negb (is_none (retailer_col m)) in
        let? maps :=
          build_setup_mappings (columns setup_df) target_c metric_c weight_c
            (retailer_col m) no_mappings (rows setup_df) in
        if negb (has_column (columns export_df) "measure_config")
        then Ok (Failed (MeasureConfigMissing (columns export_df)))
        else
          let? mask := metric_mask export_df scorecard in
          let? df1 :=
            apply_overrides maps has_retailer_col export_df
              (masked_index 0 mask) in
          let? df2 := apply_defaults df1 in
          Ok (Resolved df2)
  | _, _, _ => Ok (Failed (RequiredColumnsNotFound (columns setup_df)))
  end.

(** [temp_df.iloc[i]] *)
Definition grid_iloc (grid : list (list pyval)) (i : nat)
  : res (list pyval) :=
  match grid !! i with
  | Some row => Ok row
  | None => Raise IndexError
  end.

Definition phase2_body (inp : phase2_input) : res outcome :=
  let? export_df0 := read_export inp in
  let export_df := rename_export_columns export_df0 in
  let? temp_df := read_grid (setup_sheet inp) max_rows_to_check in
  let header_row := detect_header_row temp_df in
  (* both branches print [temp_df.iloc[header_row]] *)
  let? _shown := grid_iloc temp_df header_row in
  let? setup_df0 := read_table (setup_sheet inp) header_row in
  let? setup_df := filter_setup_rows (strip_columns setup_df0) in
  resolve_with_setup setup_df export_df (scorecard_name inp).

(** [process_weights_targets_file] up to the end of Step 2. *)
Definition process_weights_targets_file (inp : phase2_input) : outcome :=
  if negb (export_exists inp) then Failed ExportFileMissing
  else if negb (setup_exists inp) then Failed SetupSheetMissing
  else
    match phase2_body inp with
    | Ok o => o
    | Raise e => Failed (ProcessingError e)
    end.

(** ** Vocabulary of the statements about frames *)

(** The flag of a selection cell as the specification words it: the cell,
    converted to text, trimmed and lowercased, reads "true" (the boolean
    [True] does: its text is "True"). *)
Definition flag_is_true (v : pyval) : bool :=
  str_eqb (lower (strip (py_str v))) "true".

(** The selection column holds booleans, text or blanks: pandas has not
    typed it as a numeric column. *)
Definition flag_column (cells : list pyval) : bool :=
  match series_dtype (fillna_false cells) with
  | DInt | DFloat => false
  | DBool | DObject => true
  end.

(** The 'Measure Group' text of a row is blank (or cannot be read). *)
Definition group_text_blank (cols : list string) (row : list pyval) : bool :=
  match cell_text cols row "Measure Group" with
  | Ok g => blank_group g
  | Raise _ => true
  end.

(** A record whose grouping field is filled in. *)
Definition has_group (r : MeasureRecord) : Prop :=
  measure_group r ≠ "" ∧ measure_group r ≠ "nan".

(** The selection rule as the specification states it: every row whose flag
    reads true gives a Record. *)
Definition emits_every_flagged_row (df : DataFrame) : Prop :=
  let cols := columns (strip_columns df) in
  ∀ cells data,
    column_cells (strip_columns df) selection_col = Ok cells →
    records_of_frame df = Ok data →
    Forall2 (fun row r => selection_row cols row = Ok (Some r))
      (select_rows (map flag_is_true cells) (rows df)) data.

(** A cell matches a keyword group: it is no longer than the group allows
    and contains one of the group's keywords. *)
Definition cell_matches (p : pattern_info) (val : string) : bool :=
  (String.length val <=? max_length p)%nat
  && existsb (fun keyword => contains keyword val) (keywords p).

(** The keyword part of the score as the specification words it: the weight
    of each group that matches at least one cell, once per group. *)
Definition spec_pattern_score (row_lower : list string) : Z :=
  fold_left
    (fun sc np =>
       if existsb (cell_matches (snd np)) row_lower
       then sc + weight (snd np) else sc)
    column_patterns 0.

Definition spec_row_score (row : list pyval) : option Z :=
  let vals := row_values row in
  let row_lower := row_values_lower row in
  if (count_if nonempty vals <? 3)%nat then None
  else if (2 <? count_if (fun v => 50 <? String.length v) vals)%nat then None
  else
    let score := spec_pattern_score row_lower in
    let short_values :=
      count_if (fun v => (String.length v <? 30)%nat && nonempty v) vals in
    let score := if (4 <=? short_values)%nat then score + 2 else score in
    let empties := count_if (fun v => negb (nonempty v)) vals in
    let score :=
      if (7 * Z.of_nat (Nat.max (length vals) 1) <? 10 * Z.of_nat empties)
      then score - 5 else score in
    Some score.

Fixpoint spec_scan_rows (n i : nat) (grid : list (list pyval))
    (best : Z * option nat) : Z * option nat :=
  match n, grid with
  | S n', row :: grid' =>
      let best' :=
        match spec_row_score row with
        | Some score => if fst best <? score then (score, Some i) else best
        | None => best
        end in
      spec_scan_rows n' (S i) grid' best'
  | _, _ => best
  end.

Definition spec_detect_header_row (temp_df : list (list pyval)) : nat :=
  let '(best_score, best_row) :=
    spec_scan_rows max_rows_to_check 0 temp_df (0, None) in
  match best_row with
  | Some r => if min_header_score <=? best_score then r else default_header_row
  | None => default_header_row
  end.

(** The keyword part of the score, group by group: the weight times the
    number of matching cells. *)
Definition cellwise_pattern_score (row_lower : list string) : Z :=
  fold_left
    (fun sc np =>
       sc + weight (snd np)
            * Z.of_nat (count_if (cell_matches (snd np)) row_lower))
    column_patterns 0.

(** An export row whose 'measure_config' text is matched by the setup
    entry [d]. *)
Definition matched_entry (maps : SetupMappings)
    (has_retailer_col : bool) (cols : list string) (row : list pyval)
    (d : setup_entry) : Prop :=
  ∃ measure_config,
    cell_text cols row "measure_config" = Ok measure_config
    ∧ blank_group measure_config = false
    ∧ find_setup_data maps has_retailer_col cols row (lower measure_config)
      = Ok (Some d).

End Normaliser.

(** ** [get_distinct_measure_groups] and the grouping of [run_automation] *)

(** [item["measure_group"] not in seen] *)
Definition group_seen (seen : list string) (g : string) : bool :=
  existsb (str_eqb g) seen.

Fixpoint distinct_groups_loop (seen groups : list string)
    (excel_data : list MeasureRecord) : list string :=
  match excel_data with
  | [] => groups
  | item :: rest =>
      if group_seen seen (measure_group item)
      then distinct_groups_loop seen groups rest
      else distinct_groups_loop (seen ++ [measure_group item])
             (groups ++ [measure_group item]) rest
  end.

Definition get_distinct_measure_groups (excel_data : list MeasureRecord)
  : list string :=
  distinct_groups_loop [] [] excel_data.

(** [grouped_data]: one turn of
    [if group not in grouped_data: grouped_data[group] = []] and
    [grouped_data[group].append(item)]. *)
Definition group_item (grouped_data : gmap string (list MeasureRecord))
    (item : MeasureRecord) : gmap string (list MeasureRecord) :=
  let group := measure_group item in
  <[group := default [] (grouped_data !! group) ++ [item]]> grouped_data.

Definition group_excel_data (excel_data : list MeasureRecord)
  : gmap string (list MeasureRecord) :=
  fold_left group_item excel_data ∅.

(** [x.get('order', 999)] *)
Definition order_key (x : MeasureRecord) : Z := default 999 (order x).

(** [sorted(configs, key=...)].  Python's sort is stable, and a list has one
    stable sorted arrangement: the insertion sort computes it. *)
Fixpoint insert_by_key {A} (key : A → Z) (x : A) (l : list A) : list A :=
  match l with
  | [] => [x]
  | y :: l' =>
      if key x <=? key y then x :: l else y :: insert_by_key key x l'
  end.

Fixpoint sorted_by_key {A} (key : A → Z) (l : list A) : list A :=
  match l with
  | [] => []
  | x :: l' => insert_by_key key x (sorted_by_key key l')
  end.

(** [if configs and 'order' in configs[0]: configs = sorted(configs, key=...)] *)
Definition order_configs (configs : list MeasureRecord)
  : list MeasureRecord :=
  match configs with
  | first :: _ =>
      if bool_decide (is_Some (order first))
      then sorted_by_key order_key configs else configs
  | [] => configs
  end.

(** The names of [get_measure_configs]: the loop over the records, then
    [sorted(configs)] (text ordered by code point; the names are distinct,
    so the sorted list is determined). *)
Fixpoint config_names_loop (seen configs : list string)
    (excel_data : list MeasureRecord) : list string :=
  match excel_data with
  | [] => configs
  | item :: rest =>
      let config_name := strip (measure_display_name item) in
      if nonempty config_name && negb (group_seen seen config_name)
         && negb (str_eqb config_name "nan")
      then config_names_loop (seen ++ [config_name])
             (configs ++ [config_name]) rest
      else config_names_loop seen configs rest
  end.

Definition measure_config_names (excel_data : list MeasureRecord)
  : list string :=
  merge_sort String.le (config_names_loop [] [] excel_data).

(** ** Step 3 of [process_weights_targets_file]: the retailer-level values *)

(** [s.replace(old, new)] for a non-empty [old]: the matches are taken from
    the left and do not overlap; [skip] counts the characters of a match
    that are still to be passed over. *)
Fixpoint replace_from (old new : string) (skip : nat) (s : string) : string :=
  match s with
  | EmptyString => EmptyString
  | String c s' =>
      match skip with
      | S k => replace_from old new k s'
      | O =>
          if starts_with old s
          then new +:+ replace_from old new (String.length old - 1) s'
          else String c (replace_from old new 0 s')
      end
  end.

Definition py_replace (old new s : string) : string := replace_from old new 0 s.

(** [name.replace('-toys', '').replace('-es', '').replace('-', '').strip()] *)
Definition retailer_normalized (name : string) : string :=
  strip (py_replace "-" "" (py_replace "-es" "" (py_replace "-toys" "" name))).

(** One turn of [for mapping_key in retailer_mapping.keys()]: whether the
    turn returns [mapping_key]. *)
Definition retailer_key_matches (export_retailer_lower mapping_key : string)
  : bool :=
  let export_normalized := retailer_normalized export_retailer_lower in
  let mapping_normalized := retailer_normalized mapping_key in
  if str_eqb export_normalized mapping_normalized then true
  else if nonempty export_normalized && nonempty mapping_normalized
          && (contains export_normalized mapping_normalized
              || contains mapping_normalized export_normalized)
          && (3 <? String.length export_normalized)%nat
          && (3 <? String.length mapping_normalized)%nat
  then true
  else contains mapping_key export_retailer_lower
       || contains export_retailer_lower mapping_key.

Fixpoint retailer_key_loop (export_retailer_lower : string)
    (keys : list string) : option string :=
  match keys with
  | [] => None
  | mapping_key :: keys' =>
      if retailer_key_matches export_retailer_lower mapping_key
      then Some mapping_key
      else retailer_key_loop export_retailer_lower keys'
  end.

(** [find_matching_retailer]; [keys] are the keys of [retailer_mapping] in
    the order of their insertion. *)
Definition find_matching_retailer (export_retailer_name : string)
    (keys : list string) : option string :=
  if negb (nonempty export_retailer_name) then None
  else
    let export_retailer_lower := strip (lower export_retailer_name) in
    if existsb (str_eqb export_retailer_lower) keys
    then Some export_retailer_lower
    else retailer_key_loop export_retailer_lower keys.

(** [{'target': retailer_target, 'weight': retailer_weight}] *)
Record retailer_data : Type := {
  retailer_target : pyval;
  retailer_weight : pyval
}.

(** [retailer_mapping]: a dict, kept as its items in insertion order. *)
Definition RetailerMapping : Type := list (string * retailer_data).

(** [retailer_mapping[key]] *)
Fixpoint dict_item (mapping : RetailerMapping) (key : string)
  : res retailer_data :=
  match mapping with
  | [] => Raise KeyError
  | (k, d) :: mapping' =>
      if str_eqb k key then Ok d else dict_item mapping' key
  end.

(** [float(v)]; an int cell is a 64-bit integer, which always converts, to
    the nearest float. *)
Definition py_float_val (v : pyval) : res pyfloat :=
  match v with
  | PNone => Raise TypeError
  | PBool b => Ok (FFin (if b then 1 else 0)%Q)
  | PInt z => Ok (binary64 (inject_Z z))
  | PFloat f => Ok f
  | PStr s =>
      match py_float s with
      | Some f => Ok f
      | None => Raise ValueError
      end
  end.

(** The numeric value of a cell that [==] compares. *)
Definition cell_number (v : pyval) : option pyfloat :=
  match v with
  | PBool b => Some (FFin (if b then 1 else 0)%Q)
  | PInt z => Some (FFin (inject_Z z))
  | PFloat f => Some f
  | _ => None
  end.

Definition float_eqb (f g : pyfloat) : bool :=
  match f, g with
  | FFin p, FFin q => Qeq_bool p q
  | FInf a, FInf b => Bool.eqb a b
  | _, _ => false
  end.

(** [cell == value], one cell of [export_df[c] == value]: a missing cell
    compares false, text compares with text and numbers with numbers. *)
Definition cell_eq (v w : pyval) : bool :=
  match v, w with
  | PStr s, PStr t => str_eqb s t
  | _, _ =>
      match cell_number v, cell_number w with
      | Some f, Some g => float_eqb f g
      | _, _ => false
      end
  end.

Section RetailerStep.

Context `{FloatRepr}.

(** [retailer_mask], one flag per export row. *)
Definition retailer_mask (export_df : DataFrame) (scorecard_to_use : pyval)
  : res (list bool) :=
  let? retailer_brand_filter :=
    if has_column (columns export_df) "brand" then
      let? brand := column_cells export_df "brand" in
      Ok (map blank_cell brand)
    else Ok (map (fun _ => true) (rows export_df)) in
  let? retailer := column_cells export_df "retailer" in
  let? scorecard := column_cells export_df "scorecard" in
  let? mgroup := column_cells export_df "measure_group" in
  let? mconfig := column_cells export_df "measure_config" in
  Ok (zip_with andb
        (zip_with andb
           (zip_with andb
              (zip_with andb
                 (zip_with andb
                    (map notna retailer)
                    (map (fun v => negb (is_empty_str v)) retailer))
                 (map (fun v => cell_eq v scorecard_to_use) scorecard))
              retailer_brand_filter)
           (map blank_cell mgroup))
        (map blank_cell mconfig)).

(** [if value is not None: try: f = float(value); if not pd.isna(f):
    old = at[idx, name]; at[idx, name] = f
    except (ValueError, TypeError): <print>]; the flag tells whether the
    cell was written. *)
Definition force_apply (df : DataFrame) (idx : nat) (name : string)
    (value : pyval) : res (DataFrame * bool) :=
  match value with
  | PNone => Ok (df, false)
  | _ =>
      try_except
        (let? value_float := py_float_val value in
         if notna (PFloat value_float) then
           let? _old := at_get df idx name in
           let? df' := at_set df idx name (PFloat value_float) in
           Ok (df', true)
         else Ok (df, false))
        (fun e =>
           match e with
           | ValueError | TypeError => Ok (df, false)
           | _ => Raise e
           end)
  end.

(** One turn of [for idx in export_df[retailer_mask].index], with
    [retailer_updated_count]. *)
Definition retailer_row (retailer_mapping : RetailerMapping)
    (st : DataFrame * nat) (idx : nat) : res (DataFrame * nat) :=
  let '(df, retailer_updated_count) := st in
  match rows df !! idx with
  | None => Raise KeyError
  | Some row =>
      let? retailer_name := cell_text_get (columns df) row "retailer" in
      if nonempty retailer_name then
        match find_matching_retailer retailer_name (map fst retailer_mapping)
        with
        | Some matching_key =>
            if nonempty matching_key then
              let? data := dict_item retailer_mapping matching_key in
              let? r1 := force_apply df idx "target" (retailer_target data) in
              let? r2 :=
                force_apply (fst r1) idx "weight" (retailer_weight data) in
              Ok (fst r2,
                  if snd r1 then S retailer_updated_count
                  else retailer_updated_count)
            else Ok st
        | None => Ok st
        end
      else Ok st
  end.

Fixpoint apply_retailer_rows (retailer_mapping : RetailerMapping)
    (st : DataFrame * nat) (index : list nat) : res (DataFrame * nat) :=
  match index with
  | [] => Ok st
  | idx :: index' =>
      let? st' := retailer_row retailer_mapping st idx in
      apply_retailer_rows retailer_mapping st' index'
  end.

End RetailerStep.

(** ** [process_search_term_weights_file] *)

Module SearchTerms.
Section SearchTermWeights.

Context `{FloatRepr}.

(** The four variables of the header search that one row's cells set. *)
Record header_scan : Type := {
  has_search_term_col : bool;
  has_weight_col : bool;
  search_term_col_idx : option nat;
  weight_col_idx : option nat
}.

Definition new_scan : header_scan :=
  {| has_search_term_col := false; has_weight_col := false;
     search_term_col_idx := None; weight_col_idx := None |}.

(** The body of [for col_idx, cell in enumerate(row)]. *)
Definition scan_cell (st : header_scan) (col_idx : nat) (cell : pyval)
  : header_scan :=
  if notna cell then
    let cell_str := lower (strip (py_str cell)) in
    if contains "search term" cell_str && negb (contains "weight" cell_str)
       && (String.length cell_str <? 50)%nat
    then {| has_search_term_col := true;
            has_weight_col := has_weight_col st;
            search_term_col_idx :=
              if is_none (search_term_col_idx st) then Some col_idx
              else search_term_col_idx st;
            weight_col_idx := weight_col_idx st |}
    else if contains "weight" cell_str
            && negb (contains "search term" cell_str)
            && (String.length cell_str <? 50)%nat
    then {| has_search_term_col := has_search_term_col st;
            has_weight_col := true;
            search_term_col_idx := search_term_col_idx st;
            weight_col_idx :=
              if is_none (weight_col_idx st) then Some col_idx
              else weight_col_idx st |}
    else st
  else st.

Fixpoint scan_cells (st : header_scan) (col_idx : nat) (row : list pyval)
  : header_scan :=
  match row with
  | [] => st
  | cell :: row' => scan_cells (scan_cell st col_idx cell) (S col_idx) row'
  end.

(** [for idx in range(len(temp_df))]: the header row with the positions of
    its two cells, [None] when the loop ends without a [break]. *)
Fixpoint find_header (idx : nat) (temp_df : list (list pyval))
  : option (nat * nat * nat) :=
  match temp_df with
  | [] => None
  | row :: temp_df' =>
      let st := scan_cells new_scan 0 row in
      match has_search_term_col st && has_weight_col st,
            search_term_col_idx st, weight_col_idx st with
      | true, Some i, Some j => Some (idx, i, j)
      | _, _, _ => find_header (S idx) temp_df'
      end
  end.

(** The rows kept by the filter on [result_df['search_term']]; the two
    [str.contains(..., case=False)] compare the lowercased texts. *)
Definition keep_search_term (search_term : string) : bool :=
  negb (str_eqb search_term "")
  && negb (str_eqb search_term "nan")
  && negb (str_eqb search_term "Search Term")
  && negb (contains "branded search terms" (lower search_term))
  && negb (contains "please enter" (lower search_term)).

(** [float(int(num)) if num == int(num) else num]; [int] of an infinity or
    of NaN raises. *)
Definition whole_float (num : pyfloat) : res pyfloat :=
  match num with
  | FNan => Raise ValueError
  | FInf _ => Raise OverflowError
  | FFin q =>
      let i := Z.quot (Qnum q) (Z.pos (Qden q)) in
      if Qeq_bool q (inject_Z i) then Ok (FFin (inject_Z i)) else Ok num
  end.

(** What a [return] of the number gives inside the function's [try]: an
    exception there makes the function return [None]. *)
Definition number_or_none (num : option pyfloat) : pyval :=
  match num with
  | Some num =>
      match whole_float num with
      | Ok f => PFloat f
      | Raise _ => PNone
      end
  | None => PNone
  end.

(** The nested [extract_number] of this function. *)
Definition extract_number (value : pyval) : pyval :=
  if isna value || is_empty_str value then PNone
  else
    match value with
    | PStr s =>
        let value_str := lower (strip s) in
        if contains "weighted evenly" value_str then PFloat (FFin 1)
        else
          let plain := number_or_none (py_float value_str) in
          if contains "%" value_str then
            match re_search_number value_str with
            | Some group => number_or_none (py_float group)
            | None => plain
            end
          else plain
    | PFloat f =>
        match whole_float f with
        | Ok f' => PFloat f'
        | Raise _ => PNone
        end
    | _ => value
    end.

(** [processed_weight] of one row. *)
Definition processed_weight (weight_val : pyval) : pyval :=
  let w := extract_number weight_val in
  if isna w then PFloat (FFin 1) else w.

(** The rows of the final [result_df]: search term, weight, scorecard. *)
Definition result_rows (df : DataFrame) (search_term_col weight_col : string)
    (scorecard_name : string) : res (list (string * pyval * string)) :=
  let? terms := column_cells df search_term_col in
  let? weights := column_cells df weight_col in
  Ok (map (fun tw => (fst tw, processed_weight (snd tw), scorecard_name))
        (List.filter (fun tw => keep_search_term (fst tw))
           (zip (map (fun v => strip (py_str v)) terms) weights))).

End SearchTermWeights.
End SearchTerms.

(** ** The step tracker and the monitoring log

    [step_tracker] and [monitoring_log] are module-level dicts that the
    functions below update in place; here they are the two fields of a
    [tracker] that each function takes and returns.  [datetime.now()] is
    read from a clock: the state counts the readings and [now] gives the
    text of each.  The console output and the text of a stack trace are
    left out. *)

Module StepTracker.

(** The [error] argument: a text or an exception (its class name and its
    [str]). *)
Inductive error_arg : Type :=
| ErrorText (text : string)
| ErrorException (type_name text : string).

(** The truth value of the [error] argument. *)
Definition error_given (error : option error_arg) : bool :=
  match error with
  | None => false
  | Some (ErrorText text) => nonempty text
  | Some (ErrorException _ _) => true
  end.

Definition error_str (error : error_arg) : string :=
  match error with
  | ErrorText text => text
  | ErrorException _ text => text
  end.

(** What the functions ask of a Selenium driver. *)
Record driver : Type := {
  current_url : res string;
  page_source : res string;
  save_screenshot : string → string → option string
}.

Record operation : Type := {
  op_type : string;
  op_phase : string;
  op_step : string;
  op_status : string;
  op_timestamp : string;
  op_message : string;
  op_error : option string;
  op_error_type : option string;
  op_url : option string;
  op_page_source_snippet : option string;
  op_screenshot_path : option string;
  op_details : list (string * pyval)
}.

Record screenshot : Type := {
  shot_path : string;
  shot_phase : string;
  shot_step : string;
  shot_timestamp : string
}.

(** The fields that [init_step_tracker] gives to both dicts. *)
Record run_info : Type := {
  run_start_time : string;
  run_end_time : option string;
  run_customer_name : string;
  run_scorecard_name : string
}.

Record monitoring : Type := {
  log_info : run_info;
  operations : list operation;
  errors : list operation;
  warnings : list operation;
  screenshots : list screenshot
}.

Record step_entry : Type := {
  step_name : string;
  step_status : string;
  step_timestamp : string;
  step_message : string;
  step_details : list (string * pyval);
  step_error : option string;
  step_error_type : option string
}.

Record phase : Type := {
  start_time : string;
  end_time : option string;
  phase_status : string;
  steps : list step_entry
}.

Record tracker : Type := {
  info : run_info;
  phases : gmap string phase;
  monitoring_log : monitoring;
  clock : nat
}.

Section Clock.

Variable now : nat → string.

Definition init_step_tracker (customer_name scorecard_name : string)
    (st : tracker) : tracker :=
  {| info :=
       {| run_start_time := now (clock st); run_end_time := None;
          run_customer_name := customer_name;
          run_scorecard_name := scorecard_name |};
     phases := ∅;
     monitoring_log :=
       {| log_info :=
            {| run_start_time := now (S (clock st)); run_end_time := None;
               run_customer_name := customer_name;
               run_scorecard_name := scorecard_name |};
          operations := []; errors := []; warnings := [];
          screenshots := [] |};
     clock := S (S (clock st)) |}.

(** [capture_error_screenshot]: the path of the file saved, [None] when
    anything in it raised. *)
Definition capture_error_screenshot (drv : driver)
    (phase_name step_name : string) : option string :=
  save_screenshot drv phase_name step_name.

Definition log_operation (operation_type phase_name step_name status : string)
    (message : string) (error : option error_arg) (drv : option driver)
    (details : option (list (string * pyval))) (st : tracker) : tracker :=
  let timestamp := now (clock st) in
  let error_text :=
    if error_given error then error_str <$> error else None in
  let error_type :=
    match error with
    | Some (ErrorException type_name _) => Some type_name
    | _ => None
    end in
  let '(url, snippet) :=
    match drv with
    | Some d =>
        match current_url d with
        | Ok u =>
            (Some u,
             match page_source d with
             | Ok src => Some (String.substring 0 500 src)
             | Raise _ => None
             end)
        | Raise _ => (None, None)
        end
    | None => (None, None)
    end in
  let shot :=
    match drv with
    | Some d =>
        if str_eqb status "failed" then
          match capture_error_screenshot d phase_name step_name with
          | Some path => if nonempty path then Some path else None
          | None => None
          end
        else None
    | None => None
    end in
  let operation :=
    {| op_type := operation_type; op_phase := phase_name;
       op_step := step_name; op_status := status;
       op_timestamp := timestamp; op_message := message;
       op_error := error_text; op_error_type := error_type;
       op_url := url; op_page_source_snippet := snippet;
       op_screenshot_path := shot;
       op_details := default [] details |} in
  let log := monitoring_log st in
  {| info := info st;
     phases := phases st;
     monitoring_log :=
       {| log_info := log_info log;
          operations := operations log ++ [operation];
          errors :=
            if str_eqb status "failed" then errors log ++ [operation]
            else errors log;
          warnings :=
            if contains "warning" (lower message)
               || contains "warn" (lower message)
            then warnings log ++ [operation] else warnings log;
          screenshots :=
            match shot with
            | Some path =>
                screenshots log
                ++ [{| shot_path := path; shot_phase := phase_name;
                       shot_step := step_name;
                       shot_timestamp := now (S (clock st)) |}]
            | None => screenshots log
            end |};
     clock :=
       match shot with
       | Some _ => S (S (clock st))
       | None => S (clock st)
       end |}.

(** [all(s["status"] in ["success", "skipped"] for s in steps)] *)
Definition all_success (l : list step_entry) : bool :=
  forallb (fun s => str_eqb (step_status s) "success"
                    || str_eqb (step_status s) "skipped") l.

Definition track_step (phase_name step_name status : string)
    (message : string) (details : option (list (string * pyval)))
    (error : option error_arg) (drv : option driver) (st : tracker)
  : tracker :=
  let st1 :=
    log_operation "step" phase_name step_name status message error drv
      details st in
  let '(ph, c) :=
    match phases st1 !! phase_name with
    | Some ph => (ph, clock st1)
    | None =>
        ({| start_time := now (clock st1); end_time := None;
            phase_status := "in_progress"; steps := [] |},
         S (clock st1))
    end in
  let step_entry :=
    {| step_name := step_name; step_status := status;
       step_timestamp := now c; step_message := message;
       step_details := default [] details;
       step_error :=
         if error_given error then error_str <$> error else None;
       step_error_type :=
         match error with
         | Some (ErrorException type_name _) => Some type_name
         | _ => None
         end |} in
  let steps' := steps ph ++ [step_entry] in
  let status' :=
    if str_eqb status "failed" then "failed"
    else if str_eqb status "success"
            && str_eqb (phase_status ph) "in_progress"
    then if all_success steps' then "success" else phase_status ph
    else phase_status ph in
  {| info := info st1;
     phases :=
       <[phase_name :=
           {| start_time := start_time ph; end_time := end_time ph;
              phase_status := status'; steps := steps' |}]> (phases st1);
     monitoring_log := monitoring_log st1;
     clock := S c |}.

Definition complete_phase (phase_name status : string) (st : tracker)
  : tracker :=
  match phases st !! phase_name with
  | Some ph =>
      {| info := info st;
         phases :=
           <[phase_name :=
               {| start_time := start_time ph;
                  end_time := Some (now (clock st));
                  phase_status := status; steps := steps ph |}]> (phases st);
         monitoring_log := monitoring_log st;
         clock := S (clock st) |}
  | None => st
  end.

(** The [performance_metrics] of [finalize_step_tracker]; the success rate
    is the exact quotient. *)
Record metrics : Type := {
  total_operations : nat;
  total_errors : nat;
  total_warnings : nat;
  total_screenshots : nat;
  success_rate : Q
}.

Definition performance_metrics (log : monitoring) : metrics :=
  let ops := length (operations log) in
  let errs := length (errors log) in
  {| total_operations := ops;
     total_errors := errs;
     total_warnings := length (warnings log);
     total_screenshots := length (screenshots log);
     success_rate :=
       match operations log with
       | [] => 0
       | _ => (inject_Z (Z.of_nat ops - Z.of_nat errs)
               / inject_Z (Z.of_nat (Nat.max ops 1))) * 100
       end%Q |}.

End Clock.
End StepTracker.

(** ** [process_category_brand_mapping]: the cleaning of the two sheets *)

Module CategoryBrand.
Section CategoryBrandMapping.

Context `{FloatRepr}.

(** [s.ffill()]: a missing cell takes the last cell above it that is not
    missing; with none above it stays as it is. *)
Fixpoint ffill_from (last : option pyval) (cells : list pyval)
  : list pyval :=
  match cells with
  | [] => []
  | c :: cells' =>
      if notna c then c :: ffill_from (Some c) cells'
      else default c last :: ffill_from last cells'
  end.

Definition ffill (cells : list pyval) : list pyval := ffill_from None cells.

(** [s.astype(str).str.strip() != ''] on one cell. *)
Definition text_not_empty (v : pyval) : bool :=
  negb (str_eqb (strip (py_str v)) "").

(** [df[['Category', 'Brand']]] as the list of its rows. *)
Definition category_brand_columns (df : DataFrame)
  : res (list (pyval * pyval)) :=
  let? categories := column_cells df "Category" in
  let? brands := column_cells df "Brand" in
  Ok (zip categories brands).


(** [df_competition_clean] *)
Definition competition_clean (df_competition : DataFrame)
  : res (option (list (pyval * pyval))) :=
  if negb (has_column (columns df_competition) "Category")
     || negb (has_column (columns df_competition) "Brand")
  then Ok None
  else
    let? pairs := category_brand_columns df_competition in
    let filled := zip (ffill (map fst pairs)) (map snd pairs) in
    let dropped := List.filter (fun cb => notna (snd cb)) filled in
    Ok (Some
          (List.filter
             (fun cb => text_not_empty (fst cb) && text_not_empty (snd cb))
             dropped)).

End CategoryBrandMapping.
End CategoryBrand.

(** ** Step 3: the retailer sheet and its mapping *)

Section RetailerSheet.

Context `{FloatRepr}.

(** The three flags that the cells of one row set:
    [(has_retailer_name_col, has_retailer_target_col,
      has_retailer_weight_col)]. *)
Definition retailer_flag_step (flags : bool * bool * bool) (val : string)
  : bool * bool * bool :=
  let '(has_name, has_target, has_weight) := flags in
  if nonempty val then
    if contains "retailer" val && negb (contains "target" val)
       && negb (contains "weight" val)
    then (true, has_target, has_weight)
    else if contains "retailer" val && contains "target" val
    then (has_name, true, has_weight)
    else if contains "retailer" val && contains "weight" val
    then (has_name, has_target, true)
    else flags
  else flags.

Definition retailer_flags (row_values : list string) : bool * bool * bool :=
  fold_left retailer_flag_step row_values (false, false, false).

(** [for i in range(min(15, len(temp_retailer_df)))]: the row at which the
    loop breaks, if it does. *)
Fixpoint retailer_header_loop (n i : nat) (temp_retailer_df : list (list pyval))
  : option nat :=
  match n, temp_retailer_df with
  | S n', row :: rest =>
      match retailer_flags (row_values_lower row) with
      | (true, true, true) => Some i
      | _ => retailer_header_loop n' (S i) rest
      end
  | _, _ => None
  end.

(** [retailer_header_row], 9 unless the loop finds one. *)
Definition retailer_header_row (temp_retailer_df : list (list pyval)) : nat :=
  default 9%nat (retailer_header_loop 15 0 temp_retailer_df).

(** [isinstance(v, (int, float))]; an int cell is a Python int, as
    [iterrows] yields it for a sheet that has a text column. *)
Definition is_int_or_float (v : pyval) : bool :=
  match v with
  | PBool _ | PInt _ | PFloat _ => true
  | _ => false
  end.

(** The fallback [if value is None and raw is not None: try: ... except
    (ValueError, TypeError): pass]. *)
Definition retailer_fallback (value raw : pyval) : pyval :=
  match value with
  | PNone =>
      match raw with
      | PNone => value
      | PBool b => PFloat (FFin (if b then 1 else 0)%Q)
      | PInt z => PFloat (binary64 (inject_Z z))
      | PFloat f => PFloat f
      | PStr s =>
          if nonempty (strip s) then
            match py_float (strip s) with
            | Some f => PFloat f
            | None => value
            end
          else value
      end
  | _ => value
  end.

(** The numeric value that the comparisons of the conversion read. *)
Definition number_of (v : pyval) : option pyfloat :=
  match v with
  | PBool b => Some (FFin (if b then 1 else 0)%Q)
  | PInt z => Some (FFin (inject_Z z))
  | PFloat f => Some f
  | _ => None
  end.

(** [if 0 < v < 1.0: v = v * 100 elif v == 1.0: v = 100.0]; the product
    is rounded to the nearest float. *)
Definition percent_scale (value : pyval) : pyval :=
  if is_int_or_float value then
    match number_of value with
    | Some (FFin q) =>
        if negb (Qle_bool q 0) && negb (Qle_bool 1 q)
        then PFloat (binary64 (q * 100))
        else if Qeq_bool q 1 then PFloat (FFin 100)
        else value
    | _ => value
    end
  else value.

(** The target or the weight of one retailer row, from its cell. *)
Definition retailer_cell_value (cell : pyval) : pyval :=
  let raw := raw_cell cell in
  percent_scale (retailer_fallback (extract_number raw) raw).

(** [retailer_mapping[key] = data] *)
Fixpoint dict_set (mapping : RetailerMapping) (key : string)
    (data : retailer_data) : RetailerMapping :=
  match mapping with
  | [] => [(key, data)]
  | (k, d) :: mapping' =>
      if str_eqb k key then (k, data) :: mapping'
      else (k, d) :: dict_set mapping' key data
  end.

(** One turn of [for idx, row in retailer_df.iterrows()]. *)
Definition add_retailer_row (cols : list string)
    (name_col target_col weight_col : string) (mapping : RetailerMapping)
    (row : list pyval) : res RetailerMapping :=
  let? retailer_name := cell_text cols row name_col in
  if negb (nonempty retailer_name) || str_eqb retailer_name "nan" then
    Ok mapping
  else
    let? target_cell := row_item cols row target_col in
    let? weight_cell := row_item cols row weight_col in
    Ok (dict_set mapping (lower retailer_name)
          {| retailer_target := retailer_cell_value target_cell;
             retailer_weight := retailer_cell_value weight_cell |}).

Fixpoint build_retailer_mapping (cols : list string)
    (name_col target_col weight_col : string) (mapping : RetailerMapping)
    (rs : list (list pyval)) : res RetailerMapping :=
  match rs with
  | [] => Ok mapping
  | row :: rs' =>
      let? mapping' :=
        add_retailer_row cols name_col target_col weight_col mapping row in
      build_retailer_mapping cols name_col target_col weight_col mapping' rs'
  end.

End RetailerSheet.

(** ** Sample data for the examples *)

(** A [repr] good for integral floats ("50.0"); other values print as a
    fraction.  It only serves to run the model on examples. *)
Definition sample_float_repr : FloatRepr :=
  fun q =>
    if (Qden q =? 1)%positive
    then NilZero.string_of_int (Z.to_int (Qnum q)) +:+ ".0"
    else NilZero.string_of_int (Z.to_int (Qnum q)) +:+ "/"
         +:+ NilZero.string_of_int (Z.to_int (Z.pos (Qden q))).

(** A file that pandas reads as the frame [df] whatever header row is asked
    for, and whose raw grid is [grid]. *)
Definition file_of (csv : bool) (grid : list (list pyval)) (df : DataFrame)
  : source_file :=
  {| is_csv := csv; read_table := fun _ => Ok df;
     read_grid := fun n => Ok (take n grid) |}.

Definition enterprise_columns : list string :=
  ["Measure Group"; "Measure Name"; "Display Name"; "Definitions";
   "Scorecard Measure Selection/Add Measure"].

Definition sample_enterprise_frame : DataFrame :=
  {| columns := enterprise_columns;
     rows :=
       [ [PStr "Availability"; PStr "in_stock"; PStr "In Stock %";
          PStr "defn text"; PStr " TRUE "];
         [PStr "Content"; PStr "images"; PFloat FNan; PFloat FNan;
          PStr "False"];
         [PStr "Search"; PStr "rank"; PStr "Rank"; PStr "d"; PFloat FNan];
         [PStr "Ratings"; PStr "stars"; PStr "Stars"; PStr "d"; PBool true];
         [PStr "Other"; PStr "x"; PStr "X"; PStr "d"; PStr "yes"] ] |}.

(** One row, flagged [True], whose Measure Group cell is empty. *)
Definition flagged_blank_group_frame : DataFrame :=
  {| columns := enterprise_columns;
     rows := [ [PFloat FNan; PStr "in_stock"; PStr "In Stock %";
                PStr "defn text"; PBool true] ] |}.

Definition grouping_columns : list string :=
  ["Grouping Name"; "Client Name of Metric"; "Internal  Measures Name";
   "Notes"; "Measure Order"].

Definition sample_grouping_frame : DataFrame :=
  {| columns := grouping_columns;
     rows :=
       [ [PStr "Availability"; PStr "In Stock"; PStr "in_stock";
          PStr "note"; PFloat (FFin 7)];
         [PStr "Content"; PFloat FNan; PStr "images"; PFloat FNan;
          PFloat FNan];
         [PFloat FNan; PStr "x"; PStr "y"; PStr "z"; PStr "12"] ] |}.

(** One row whose Measure Order cell is a text that is not a number. *)
Definition bad_order_frame : DataFrame :=
  {| columns := grouping_columns;
     rows := [ [PStr "Availability"; PStr "In Stock"; PStr "in_stock";
                PStr "note"; PStr "abc"] ] |}.

(** A row with two target columns, and a sheet that has it on top. *)
Definition two_targets_row : list pyval :=
  [PStr "Target 2023"; PStr "Target 2024"; PStr "Comments"].

Definition two_targets_grid : list (list pyval) :=
  [ two_targets_row;
    [PStr "80%"; PStr "85%"; PStr "ok"];
    [PStr "70%"; PStr "75%"; PStr "ok"] ].

Definition export_columns : list string :=
  ["scorecard"; "retailer"; "brand"; "measure_group"; "measure_config";
   "target"; "weight"].

(** Two metric rows of the scorecard and one retailer row, nothing filled
    in yet. *)
Definition sample_export_frame : DataFrame :=
  {| columns := export_columns;
     rows :=
       [ [PStr "Default"; PFloat FNan; PFloat FNan; PFloat FNan;
          PStr "In Stock %"; PFloat FNan; PFloat FNan];
         [PStr "Default"; PFloat FNan; PFloat FNan; PFloat FNan;
          PStr "Image Count"; PFloat FNan; PFloat FNan];
         [PStr "Default"; PStr "Shop-ES"; PFloat FNan; PFloat FNan;
          PFloat FNan; PFloat (FFin 70); PStr ""] ] |}.

(** A setup sheet that gives 'In Stock %' the target 0 and the weight 25%. *)
Definition sample_setup_frame : DataFrame :=
  {| columns := ["Display Name"; "Target"; "Metric Weight"];
     rows :=
       [ [PStr "In Stock %"; PInt 0; PStr "25%"];
         [PStr "Unused"; PStr "85%"; PFloat (FFin (1 # 2))] ] |}.

Definition sample_setup_mappings : SetupMappings :=
  {| setup_mapping :=
       <[inl "unused" := {| entry_target := PFloat (FFin 85);
                            entry_weight := PFloat (FFin (1 # 2)) |}]>
       (<[inl "in stock %" := {| entry_target := PInt 0;
                                 entry_weight := PFloat (FFin 25) |}]> ∅);
     setup_mapping_all := ∅ |}.

Definition sample_overridden_frame : DataFrame :=
  {| columns := export_columns;
     rows :=
       [ [PStr "Default"; PFloat FNan; PFloat FNan; PFloat FNan;
          PStr "In Stock %"; PInt 0; PFloat (FFin 25)];
         [PStr "Default"; PFloat FNan; PFloat FNan; PFloat FNan;
          PStr "Image Count"; PFloat FNan; PFloat FNan];
         [PStr "Default"; PStr "Shop-ES"; PFloat FNan; PFloat FNan;
          PFloat FNan; PFloat (FFin 70); PStr ""] ] |}.

Definition sample_resolved_frame : DataFrame :=
  {| columns := export_columns;
     rows :=
       [ [PStr "Default"; PFloat FNan; PFloat FNan; PFloat FNan;
          PStr "In Stock %"; PInt 0; PFloat (FFin 25)];
         [PStr "Default"; PFloat FNan; PFloat FNan; PFloat FNan;
          PStr "Image Count"; PInt 50; PFloat (FFin 1)];
         [PStr "Default"; PStr "Shop-ES"; PFloat FNan; PFloat FNan;
          PFloat FNan; PFloat (FFin 70); PFloat (FFin 1)] ] |}.

(** A setup sheet header with both name columns and a retailer target. *)
Definition sample_setup_header : list string :=
  ["Retailer Target"; "Target"; "Metric Name"; "Display Name";
   "Metric Weight"; "Retailer"].

(** A setup sheet header whose Display Name column also names the target. *)
Definition display_target_header : list string :=
  ["Display Name of Target Metric"; "Metric Name"; "Metric Weight"].

(** A setup sheet without a weight column. *)
Definition no_weight_frame : DataFrame :=
  {| columns := ["Display Name "; " Target"; "Notes"];
     rows := [ [PStr "In Stock %"; PInt 80; PStr "n"] ] |}.

Definition no_weight_grid : list (list pyval) :=
  [ [PStr "Weights and targets"; PFloat FNan; PFloat FNan];
    [PStr "Display Name "; PStr " Target"; PStr "Notes"];
    [PStr "In Stock %"; PInt 80; PStr "n"] ].

Definition no_weight_input : phase2_input :=
  {| export_exists := true; setup_exists := true;
     read_export := Ok sample_export_frame;
     setup_sheet := file_of true no_weight_grid no_weight_frame;
     scorecard_name := "Default" |}.

(** An Excel workbook whose sheet has two title rows above the header: pandas
    gives the frame [df] only when asked for header row [k]. *)
Definition workbook_with_header_at (k : nat) (grid : list (list pyval))
    (df : DataFrame) : source_file :=
  {| is_csv := false;
     read_table := fun h => if (h =? k)%nat then Ok df else Raise ValueError;
     read_grid := fun n => Ok (take n grid) |}.

(** The four-column sheet of the specification's end-to-end scenario: the
    header on the third row, then one filled row, one blank row and one row
    of empty texts. *)
Definition plain_grid : list (list pyval) :=
  [ [PStr "Scorecard setup"; PFloat FNan; PFloat FNan; PFloat FNan];
    [PFloat FNan; PFloat FNan; PFloat FNan; PFloat FNan];
    [PStr "Measure Group"; PStr "Standard KPIs";
     PStr "Measure Display Name"; PStr "Definition"];
    [PStr "Availability"; PStr "kpi_1"; PStr "In Stock %"; PStr "defn text"];
    [PFloat FNan; PFloat FNan; PFloat FNan; PFloat FNan];
    [PStr ""; PStr ""; PStr ""; PStr ""] ].

Definition plain_frame : DataFrame :=
  {| columns := ["Measure Group"; "Standard KPIs"; "Measure Display Name";
                 "Definition"];
     rows :=
       [ [PStr "Availability"; PStr "kpi_1"; PStr "In Stock %";
          PStr "defn text"];
         [PFloat FNan; PFloat FNan; PFloat FNan; PFloat FNan];
         [PStr ""; PStr ""; PStr ""; PStr ""] ] |}.

(** A sheet read with a corrupted header: positional columns, the first one
    an artefact. *)
Definition shifted_frame : DataFrame :=
  {| columns := ["Unnamed: 0"; "#REF!"; "Unnamed: 2"; "Unnamed: 3";
                 "Unnamed: 4"];
     rows :=
       [ [PFloat FNan; PStr "Availability"; PStr "kpi_1"; PStr "In Stock %";
          PStr "defn text"];
         [PStr "Content"; PStr "kpi_2"; PStr "Images"; PStr "d"; PStr "x"] ] |}.

(** ** Vocabulary of the statements *)

(** One of the three required columns has not been located. *)
Definition unlocated (m : ColumnMap) : Prop :=
  target_col m = None ∨ metric_col m = None ∨ weight_col m = None.

(** The retailer-target field holds a column that names both. *)
Definition holds_retailer_target (m : RetailerColumns) : Prop :=
  ∃ c, retailer_target_col m = Some c
       ∧ contains "retailer" (lower c) = true
       ∧ contains "target" (lower c) = true.

(** The header names a Display Name column, or a Metric/Measure Name one. *)
Definition names_display (c : string) : bool :=
  contains "display" (lower c) && contains "name" (lower c).

Definition names_metric (c : string) : bool :=
  (contains "metric" (lower c) || contains "measure" (lower c))
  && contains "name" (lower c).

(** "Whenever both a Display Name column and a Metric/Measure Name column
    are present, the Display Name column is the one used for metric
    matching", for one header row. *)
Definition display_name_preferred (cols : list string) : Prop :=
  (∃ c, c ∈ cols ∧ names_display c = true) →
  (∃ c, c ∈ cols ∧ names_metric c = true) →
  ∃ d, d ∈ cols ∧ names_display d = true
       ∧ metric_col (map_setup_columns cols) = Some d.

(** A numeric zero. *)
Definition is_zero (v : pyval) : bool :=
  match v with
  | PInt z => z =? 0
  | PFloat (FFin q) => Qeq_bool q 0
  | _ => false
  end.

(** Row [k] is one of the [n] rows from [i] on. *)
Definition in_range (i n k : nat) : bool := (i <=? k)%nat && (k <? i + n)%nat.

Fixpoint all_chars (p : ascii → bool) (s : string) : bool :=
  match s with
  | EmptyString => true
  | String a s' => p a && all_chars p s'
  end.

Definition all_digits : string → bool := all_chars is_digit.

Definition not_space (a : ascii) : bool := negb (is_space a).

(** The text after a run of digits: empty, or starting with a character that
    is neither a digit nor an underscore. *)
Definition ends_digits (rest : string) : bool :=
  match rest with
  | EmptyString => true
  | String a _ => negb (is_digit a) && negb (Ascii.eqb a "_")
  end.

(** The natural number a digit string denotes, continuing from [acc]. *)
Fixpoint digits_N (acc : N) (s : string) : N :=
  match s with
  | EmptyString => acc
  | String a s' => digits_N (10 * acc + (N_of_ascii a - 48))%N s'
  end.

(** An unsigned decimal numeral: the digits [ip], then optionally a point and
    the digits [fp]; at least one digit in all. *)
Definition numeral_text (ip : string) (fp : option string) : string :=
  match fp with
  | Some f => ip +:+ "." +:+ f
  | None => ip
  end.

Definition is_numeral (ip : string) (fp : option string) : bool :=
  all_digits ip && all_digits (default "" fp)
  && (0 <? String.length ip + String.length (default "" fp))%nat.

Definition numeral_value (ip : string) (fp : option string) : Q :=
  Qmake (Z.of_N (digits_N 0 (ip +:+ default "" fp)))
        (Z.to_pos (10 ^ Z.of_nat (String.length (default "" fp)))).

(** The text after a run of digits and points: empty, or starting with a
    character that is neither. *)
Definition ends_number (rest : string) : bool :=
  match rest with
  | EmptyString => true
  | String a _ => negb (is_numchar a)
  end.

Definition no_numchar (a : ascii) : bool := negb (is_numchar a).

(** The reading of "a string of the form <number>% yields the bare number"
    that takes for <number> any text that [float] reads. *)
Definition percent_yields_bare_number : Prop :=
  ∀ s f, py_float s = Some f → extract_number (PStr (s +:+ "%")) = PFloat f.

(** The first run of digits and dots of a text does not read as a number
    (or there is none). *)
Definition no_number (s : string) : bool :=
  match re_search_number s with
  | Some group => is_none (py_float group)
  | None => true
  end.

(** The distinct elements of a list, each at its first occurrence. *)
Fixpoint first_occurrences (l : list string) : list string :=
  match l with
  | [] => []
  | x :: l' =>
      x :: List.filter (fun y => negb (str_eqb y x)) (first_occurrences l')
  end.

Definition in_group (g : string) (item : MeasureRecord) : bool :=
  str_eqb (measure_group item) g.

(** The name that [get_measure_configs] takes from a record, when it takes
    one. *)
Definition config_name_of (item : MeasureRecord) : string :=
  strip (measure_display_name item).

Definition valid_config_name (name : string) : bool :=
  nonempty name && negb (str_eqb name "nan").

Definition valid_config_names (l : list MeasureRecord) : list string :=
  List.filter valid_config_name (map config_name_of l).

(** A row of the sheet mentions one of the header keywords. *)
Definition mentions `{FloatRepr} (keys : list string) (row : list pyval)
  : bool :=
  existsb (fun k => contains k (join " " (row_values_lower row))) keys.

(** A setup sheet that names 'In Stock %' twice, in different letter case. *)
Definition repeated_metric_rows : list (list pyval) :=
  [ [PStr "In Stock %"; PInt 80; PStr "25%"];
    [PStr "IN STOCK %"; PInt 90; PStr "30%"];
    [PStr "Unused"; PStr "85%"; PFloat (FFin (1 # 2))] ].

Definition repeated_metric_mappings : SetupMappings :=
  match @build_setup_mappings sample_float_repr
          ["Display Name"; "Target"; "Metric Weight"]
          "Target" "Display Name" "Metric Weight" None no_mappings
          repeated_metric_rows with
  | Ok maps => maps
  | Raise _ => no_mappings
  end.

(** A workbook whose header stands on its fourth row. *)
Definition late_header_grid : list (list pyval) :=
  [ [PStr "Scorecard setup"; PFloat FNan];
    [PFloat FNan; PFloat FNan];
    [PStr "Instructions"; PStr "fill in below"];
    [PStr "Measure Group"; PStr "Standard KPIs"];
    [PStr "Availability"; PStr "kpi_1"] ].

(** A workbook whose first row is the header and holds a broken formula. *)
Definition broken_header_grid : list (list pyval) :=
  [ [PStr "Measure Group"; PStr "#REF!"];
    [PStr "Availability"; PStr "kpi_1"] ].

(** Every row of the frame has one cell per column. *)
Definition rectangular (df : DataFrame) : Prop :=
  Forall (fun row => length row = length (columns df)) (rows df).

(** The values of two retailers, one of them without a usable weight. *)
Definition sample_retailer_mapping : RetailerMapping :=
  [ ("carrefour-es",
      {| retailer_target := PFloat (FFin 60); retailer_weight := PNone |});
    ("shop-toys-es",
      {| retailer_target := PFloat (FFin 80);
         retailer_weight := PFloat (FFin 25) |}) ].

(** [sample_resolved_frame] after the retailer pass with that mapping. *)
Definition sample_retailer_frame : DataFrame :=
  {| columns := export_columns;
     rows :=
       [ [PStr "Default"; PFloat FNan; PFloat FNan; PFloat FNan;
          PStr "In Stock %"; PInt 0; PFloat (FFin 25)];
         [PStr "Default"; PFloat FNan; PFloat FNan; PFloat FNan;
          PStr "Image Count"; PInt 50; PFloat (FFin 1)];
         [PStr "Default"; PStr "Shop-ES"; PFloat FNan; PFloat FNan;
          PFloat FNan; PFloat (FFin 80); PFloat (FFin 25)] ] |}.

(** A cell that reads as the heading of the search-term column, and one that
    reads as the heading of the weight column. *)
Definition search_term_heading `{FloatRepr} (cell : pyval) : bool :=
  let cell_str := lower (strip (py_str cell)) in
  notna cell && contains "search term" cell_str
  && negb (contains "weight" cell_str) && (String.length cell_str <? 50)%nat.

Definition weight_heading `{FloatRepr} (cell : pyval) : bool :=
  let cell_str := lower (strip (py_str cell)) in
  notna cell && contains "weight" cell_str
  && negb (contains "search term" cell_str)
  && (String.length cell_str <? 50)%nat.

(** A row that lacks one of the two headings. *)
Definition lacks_heading `{FloatRepr} (row : list pyval) : Prop :=
  Forall (fun c => search_term_heading c = false) row
  ∨ Forall (fun c => weight_heading c = false) row.

(** A bool, an int or a finite float. *)
Definition finite_number (v : pyval) : bool :=
  match v with
  | PBool _ | PInt _ | PFloat (FFin _) => true
  | _ => false
  end.

(** A sheet with two lines of instructions above its header. *)
Definition search_term_grid : list (list pyval) :=
  [ [PStr "Please enter each Search Term and its Weight"; PFloat FNan];
    [PFloat FNan; PFloat FNan];
    [PStr "Search Term"; PStr "Weight*"];
    [PStr "lego city"; PStr "50%"] ].

Definition search_term_frame : DataFrame :=
  {| columns := ["Search Term"; "Weight*"];
     rows :=
       [ [PStr "lego city"; PStr "50%"];
         [PStr " lego duplo "; PStr "Weighted Evenly"];
         [PFloat FNan; PInt 3];
         [PStr "Please enter more terms below"; PFloat FNan];
         [PStr "lego technic"; PFloat FNan] ] |}.

(** One call of [track_step]. *)
Record step_call : Type := {
  call_phase : string;
  call_step : string;
  call_status : string;
  call_message : string;
  call_details : option (list (string * pyval));
  call_error : option StepTracker.error_arg;
  call_driver : option StepTracker.driver
}.

(** A run of [track_step] calls. *)
Definition track_steps (now : nat → string) (calls : list step_call)
    (st : StepTracker.tracker) : StepTracker.tracker :=
  fold_left
    (fun st c =>
       StepTracker.track_step now (call_phase c) (call_step c)
         (call_status c) (call_message c) (call_details c) (call_error c)
         (call_driver c) st)
    calls st.

(** The statuses passed for one phase, in the order of the calls. *)
Definition statuses_for (phase_name : string) (calls : list step_call)
  : list string :=
  map call_status
    (List.filter (fun c => str_eqb (call_phase c) phase_name) calls).

(** The status of a phase read off the statuses of its steps: 'failed' when
    one of them is 'failed'; otherwise 'success' when the first one that is
    not 'skipped' is 'success'; otherwise 'in_progress'. *)
Definition status_of_steps (statuses : list string) : string :=
  if existsb (fun s => str_eqb s "failed") statuses then "failed"
  else
    match List.filter (fun s => negb (str_eqb s "skipped")) statuses with
    | s :: _ => if str_eqb s "success" then "success" else "in_progress"
    | [] => "in_progress"
    end.

(** A monitoring log without entries. *)
Definition empty_log (log : StepTracker.monitoring) : Prop :=
  StepTracker.operations log = [] ∧ StepTracker.errors log = []
  ∧ StepTracker.warnings log = [] ∧ StepTracker.screenshots log = [].

(** A tracker as [init_step_tracker] leaves it, for a clock that always
    reads the same. *)
Definition sample_clock (n : nat) : string := "2024-01-01T00:00:00".

Definition fresh_tracker : StepTracker.tracker :=
  StepTracker.init_step_tracker sample_clock "Acme" "Default"
    {| StepTracker.info :=
         {| StepTracker.run_start_time := "";
            StepTracker.run_end_time := None;
            StepTracker.run_customer_name := "";
            StepTracker.run_scorecard_name := "" |};
       StepTracker.phases := ∅;
       StepTracker.monitoring_log :=
         {| StepTracker.log_info :=
              {| StepTracker.run_start_time := "";
                 StepTracker.run_end_time := None;
                 StepTracker.run_customer_name := "";
                 StepTracker.run_scorecard_name := "" |};
            StepTracker.operations := []; StepTracker.errors := [];
            StepTracker.warnings := []; StepTracker.screenshots := [] |};
       StepTracker.clock := 0 |}.

Definition plain_call (phase_name step_name status message : string)
  : step_call :=
  {| call_phase := phase_name; call_step := step_name;
     call_status := status; call_message := message;
     call_details := None; call_error := None; call_driver := None |}.

(** The steps that [run_automation] records while it starts up. *)
Definition startup_calls : list step_call :=
  [ plain_call "Initialization" "Automation Started" "in_progress"
      "Starting automation";
    plain_call "Initialization" "Browser Setup" "in_progress"
      "Starting Chrome browser...";
    plain_call "Initialization" "Browser Setup" "success"
      "Chrome browser started successfully";
    plain_call "Initialization" "Read Excel File" "success"
      "Successfully loaded the rows (warning: none skipped)" ].

(** A competition sheet: the category stands on the first row of its group
    only, and one brand stands above the first category. *)
Definition competition_frame : DataFrame :=
  {| columns := ["Category"; "Brand"];
     rows :=
       [ [PFloat FNan; PStr "Mega Bloks"];
         [PStr "Toys"; PStr "Lego"];
         [PFloat FNan; PStr "Playmobil"];
         [PFloat FNan; PFloat FNan];
         [PStr "Games"; PStr "Hasbro"] ] |}.

(** The three kinds of heading that the retailer sheet must show, each in a
    cell of its own. *)
Definition names_retailer (val : string) : bool :=
  nonempty val && contains "retailer" val && negb (contains "target" val)
  && negb (contains "weight" val).

Definition names_retailer_target (val : string) : bool :=
  nonempty val && contains "retailer" val && contains "target" val.

Definition names_retailer_weight (val : string) : bool :=
  nonempty val && contains "retailer" val && negb (contains "target" val)
  && contains "weight" val.

Definition complete_retailer_header `{FloatRepr} (row : list pyval) : bool :=
  existsb names_retailer (row_values_lower row)
  && existsb names_retailer_target (row_values_lower row)
  && existsb names_retailer_weight (row_values_lower row).

(** A retailer sheet with a line of instructions and its header. *)
Definition retailer_grid : list (list pyval) :=
  [ [PStr "Enter the Retailer Target and the Retailer Weight"; PFloat FNan;
     PFloat FNan];
    [PStr "Retailer"; PStr "Retailer Target"; PStr "Retailer Weight"];
    [PStr "Shop-Toys-ES"; PStr "80%"; PFloat (FFin (1 # 4))] ].

Definition retailer_sheet_columns : list string :=
  ["Retailer"; "Retailer Target"; "Retailer Weight"].


(* ================================================================== *)
(** * Properties *)
(* ================================================================== *)

(** ** Strings *)

Ltac ascii_cases a :=
  destruct a as [[|] [|] [|] [|] [|] [|] [|] [|]].

Lemma append_cons a s t : String a s +:+ t = String a (s +:+ t).
Proof. reflexivity. Qed.

Lemma append_empty_l t : "" +:+ t = t.
Proof. reflexivity. Qed.

Lemma append_empty_r s : s +:+ "" = s.
Proof. induction s as [|a s IH]; [reflexivity|]. by rewrite append_cons, IH. Qed.

Lemma append_assoc s t u : (s +:+ t) +:+ u = s +:+ t +:+ u.
Proof.
  induction s as [|a s IH]; [reflexivity|]. by rewrite !append_cons, IH.
Qed.

Lemma length_append s t :
  String.length (s +:+ t) = (String.length s + String.length t)%nat.
Proof.
  induction s as [|a s IH]; [reflexivity|].
  rewrite append_cons. simpl. by rewrite IH.
Qed.

Lemma all_chars_app p s t :
  all_chars p (s +:+ t) = all_chars p s && all_chars p t.
Proof.
  induction s as [|a s IH]; [reflexivity|].
  rewrite append_cons. simpl. rewrite IH. by rewrite andb_assoc.
Qed.

Lemma all_chars_impl (p q : ascii → bool) s :
  (∀ a, p a = true → q a = true) →
  all_chars p s = true → all_chars q s = true.
Proof.
  intros Hpq. induction s as [|a s IH]; [done|]. simpl.
  intros [Ha Hs]%andb_true_iff. rewrite (Hpq _ Ha). by apply IH.
Qed.

Lemma lstrip_not_space s : all_chars not_space s = true → lstrip s = s.
Proof.
  destruct s as [|a s]; [done|]. simpl. unfold not_space.
  intros [Ha _]%andb_true_iff. by destruct (is_space a).
Qed.

Lemma rstrip_not_space s : all_chars not_space s = true → rstrip s = s.
Proof.
  induction s as [|a s IH]; [done|]. simpl. unfold not_space at 1.
  intros [Ha Hs]%andb_true_iff. rewrite (IH Hs).
  destruct s; [|done]. by destruct (is_space a).
Qed.

Lemma strip_not_space s : all_chars not_space s = true → strip s = s.
Proof.
  intros Hs. unfold strip. rewrite (lstrip_not_space _ Hs).
  by apply rstrip_not_space.
Qed.

Lemma numchar_not_space a : is_numchar a = true → not_space a = true.
Proof. ascii_cases a; vm_compute; congruence. Qed.

Lemma digit_numchar a : is_digit a = true → is_numchar a = true.
Proof. unfold is_numchar. by intros ->. Qed.

Lemma digit_val_digit a :
  is_digit a = true → digit_val a = Some (N_of_ascii a - 48)%N.
Proof. unfold digit_val. by intros ->. Qed.

(** ** The percent sign and the numeral inside a text *)

Lemma contains_percent_cons a s :
  contains "%" (String a s) = Ascii.eqb a "%" || contains "%" s.
Proof.
  change (contains "%" (String a s))
    with ((Ascii.eqb "%" a && true) || contains "%" s).
  by rewrite andb_true_r, (Ascii.eqb_sym "%" a).
Qed.

Lemma contains_percent_app s t :
  contains "%" (s +:+ t) = contains "%" s || contains "%" t.
Proof.
  induction s as [|a s IH].
  - rewrite append_empty_l. by destruct t.
  - rewrite append_cons, !contains_percent_cons, IH. by rewrite orb_assoc.
Qed.

Lemma take_while_app p s t :
  all_chars p s = true → take_while p (s +:+ t) = s +:+ take_while p t.
Proof.
  induction s as [|a s IH]; [done|]. simpl.
  intros [Ha Hs]%andb_true_iff. rewrite append_cons. simpl.
  by rewrite Ha, IH.
Qed.

Lemma re_search_numeral a n t :
  all_chars is_numchar (String a n) = true →
  re_search_number (String a n +:+ String "%" t) = Some (String a n).
Proof.
  intros Hn. unfold re_search_number.
  pose proof Hn as [Ha Hn']%andb_true_iff.
  rewrite append_cons. simpl drop_while. rewrite Ha. simpl negb. cbv iota.
  rewrite <- append_cons, (take_while_app _ _ _ Hn).
  simpl take_while. by rewrite append_empty_r.
Qed.

(** ** Reading digits *)

Lemma digits_tail_digits s : ∀ acc n rest,
  all_digits s = true → ends_digits rest = true →
  digits_tail acc n (s +:+ rest)
  = (digits_N acc s, (n + String.length s)%nat, rest).
Proof.
  induction s as [|a s IH]; intros acc n rest Hs Hrest.
  - rewrite append_empty_l, Nat.add_0_r. simpl digits_N.
    destruct rest as [|b r]; [done|]. simpl in Hrest.
    apply andb_true_iff in Hrest as [Hd Hu].
    simpl. unfold digit_val.
    destruct (is_digit b); [done|]. by destruct (Ascii.eqb b "_").
  - apply andb_true_iff in Hs as [Ha Hs].
    rewrite append_cons. simpl digits_tail. rewrite (digit_val_digit _ Ha).
    rewrite (IH _ _ _ Hs Hrest). simpl. do 2 f_equal. lia.
Qed.

Lemma digitpart_digits a s acc rest :
  all_digits (String a s) = true → ends_digits rest = true →
  digitpart acc (String a s +:+ rest)
  = Some (digits_N acc (String a s), S (String.length s), rest).
Proof.
  intros [Ha Hs]%andb_true_iff Hrest.
  rewrite append_cons. unfold digitpart. rewrite (digit_val_digit _ Ha).
  by rewrite (digits_tail_digits _ _ _ _ Hs Hrest).
Qed.

Lemma digitpart_none acc rest :
  ends_digits rest = true → digitpart acc rest = None.
Proof.
  destruct rest as [|b r]; [done|]. simpl.
  intros [Hd _]%andb_true_iff. unfold digit_val. by destruct (is_digit b).
Qed.

Lemma digits_N_app s t acc :
  digits_N acc (s +:+ t) = digits_N (digits_N acc s) t.
Proof.
  revert acc. induction s as [|a s IH]; intros acc; [done|].
  rewrite append_cons. simpl. by rewrite IH.
Qed.

Lemma scale10_value m (n : nat) :
  (scale10 m (0 - Z.of_nat n) == Qmake m (Z.to_pos (10 ^ Z.of_nat n)))%Q.
Proof.
  unfold scale10. destruct n as [|n].
  - simpl. unfold Qeq. simpl. lia.
  - assert ((0 <=? 0 - Z.of_nat (S n)) = false) as -> by (apply Z.leb_gt; lia).
    replace (- (0 - Z.of_nat (S n))) with (Z.of_nat (S n)) by lia.
    apply Qred_correct.
Qed.

Lemma read_sign_numchar a s :
  is_numchar a = true → read_sign (String a s) = (false, String a s).
Proof. ascii_cases a; vm_compute; congruence. Qed.

Lemma not_special_word a s w :
  is_numchar a = true → Ascii.eqb a (lower_ascii a) = true →
  match w with String b _ => Ascii.eqb a b | EmptyString => true end = false →
  str_eqb (lower (String a s)) w = false.
Proof.
  intros Ha Hl Hw. apply bool_decide_eq_false. intros Heq.
  destruct w as [|b w]; [done|]. simpl in Heq. injection Heq as Hb _.
  apply Ascii.eqb_eq in Hl. rewrite <- Hl in Hb. subst b.
  by rewrite Ascii.eqb_refl in Hw.
Qed.

Lemma numchar_words a s :
  is_numchar a = true →
  str_eqb (lower (String a s)) "inf" = false
  ∧ str_eqb (lower (String a s)) "infinity" = false
  ∧ str_eqb (lower (String a s)) "nan" = false.
Proof.
  intros Ha.
  assert (Ascii.eqb a (lower_ascii a) = true
          ∧ Ascii.eqb a "i" = false ∧ Ascii.eqb a "n" = false)
    as (Hl & Hi & Hn).
  { revert Ha. ascii_cases a; vm_compute; intuition congruence. }
  repeat split; by apply not_special_word.
Qed.

Lemma numeral_text_numchars ip fp :
  is_numeral ip fp = true →
  all_chars is_numchar (numeral_text ip fp) = true
  ∧ numeral_text ip fp ≠ "".
Proof.
  unfold is_numeral. intros [[Hip Hfp]%andb_true_iff Hlen]%andb_true_iff.
  apply Nat.ltb_lt in Hlen.
  pose proof (all_chars_impl _ _ _ digit_numchar Hip) as Hip'.
  pose proof (all_chars_impl _ _ _ digit_numchar Hfp) as Hfp'.
  destruct fp as [f|]; simpl in *.
  - split.
    + rewrite !all_chars_app, Hip', Hfp'. reflexivity.
    + destruct ip; [rewrite append_empty_l|]; done.
  - split; [done|]. destruct ip; [simpl in Hlen; lia|done].
Qed.

Lemma dot_append s : "." +:+ s = String "." s.
Proof. reflexivity. Qed.

Lemma float_digits_numeral neg ip fp :
  is_numeral ip fp = true →
  float_digits neg (numeral_text ip fp)
  = Some (binary64 (scale10 (signed neg (digits_N 0 (ip +:+ default "" fp)))
                            (0 - Z.of_nat (String.length (default "" fp))))).
Proof.
  unfold is_numeral. intros [[Hip Hfp]%andb_true_iff Hlen]%andb_true_iff.
  apply Nat.ltb_lt in Hlen. unfold float_digits.
  destruct fp as [f|]; simpl default in *; simpl numeral_text;
    rewrite ?dot_append.
  - destruct ip as [|a ip].
    + rewrite !append_empty_l.
      destruct f as [|b f]; [simpl in Hlen; lia|].
      change (digitpart 0 (String "." (String b f)))
        with (@None (N * nat * string)).
      cbv iota beta.
      pose proof (digitpart_digits b f 0%N "" Hfp eq_refl) as Hd.
      rewrite append_empty_r in Hd. rewrite Hd. reflexivity.
    + rewrite (digitpart_digits a ip _ (String "." f) Hip eq_refl).
      cbv iota beta.
      rewrite digits_N_app.
      destruct f as [|b f].
      * reflexivity.
      * pose proof (digitpart_digits b f (digits_N 0 (String a ip)) ""
                      Hfp eq_refl) as Hd.
        rewrite append_empty_r in Hd. rewrite Hd. reflexivity.
  - destruct ip as [|a ip]; [simpl in Hlen; lia|].
    pose proof (digitpart_digits a ip 0%N "" Hip eq_refl) as Hd.
    rewrite append_empty_r in Hd. rewrite Hd.
    rewrite append_empty_r. reflexivity.
Qed.

(** Rationals of equal value round to the same float. *)
Lemma binary64_value q1 q2 : (q1 == q2)%Q → binary64 q1 = binary64 q2.
Proof. intros Heq. unfold binary64. by rewrite (Qred_complete _ _ Heq). Qed.

Lemma py_float_numeral ip fp :
  is_numeral ip fp = true →
  py_float (numeral_text ip fp) = Some (binary64 (numeral_value ip fp)).
Proof.
  intros Hnum.
  rewrite (binary64_value (numeral_value ip fp)
             (scale10 (signed false (digits_N 0 (ip +:+ default "" fp)))
                (0 - Z.of_nat (String.length (default "" fp)))))
    by (symmetry; exact (scale10_value _ _)).
  destruct (numeral_text_numchars _ _ Hnum) as [Hchars Hne].
  unfold py_float.
  rewrite (strip_not_space _ (all_chars_impl _ _ _ numchar_not_space Hchars)).
  rewrite <- (float_digits_numeral false _ _ Hnum).
  destruct (numeral_text ip fp) as [|a s] eqn:Htext; [done|].
  apply andb_true_iff in Hchars as [Ha _].
  rewrite (read_sign_numchar _ _ Ha).
  destruct (numchar_words a s Ha) as (-> & -> & ->). reflexivity.
Qed.

(** ** Whitespace around a text *)

Lemma lstrip_split s :
  ∃ w, s = w +:+ lstrip s ∧ all_chars is_space w = true.
Proof.
  induction s as [|a s (w & Hs & Hw)]; [by exists ""|].
  simpl. destruct (is_space a) eqn:Ha.
  - exists (String a w). rewrite append_cons, <- Hs. simpl. by rewrite Ha.
  - by exists "".
Qed.

Lemma rstrip_split s :
  ∃ w, s = rstrip s +:+ w ∧ all_chars is_space w = true.
Proof.
  induction s as [|a s (w & Hs & Hw)]; [by exists ""|].
  simpl. destruct (rstrip s) as [|b r] eqn:Hr.
  - rewrite append_empty_l in Hs. subst w.
    destruct (is_space a) eqn:Ha.
    + exists (String a s). simpl. by rewrite Ha.
    + by exists s.
  - exists w. by rewrite !append_cons, <- append_cons, <- Hs.
Qed.

Lemma space_not_numchar a : is_space a = true → is_numchar a = false.
Proof. ascii_cases a; vm_compute; congruence. Qed.

Lemma space_not_percent a : is_space a = true → Ascii.eqb a "%" = false.
Proof. ascii_cases a; vm_compute; congruence. Qed.

Lemma contains_percent_spaces w :
  all_chars is_space w = true → contains "%" w = false.
Proof.
  induction w as [|a w IH]; [done|]. simpl all_chars.
  intros [Ha Hw]%andb_true_iff.
  by rewrite contains_percent_cons, (space_not_percent _ Ha), (IH Hw).
Qed.

Lemma strip_split s :
  ∃ w1 w2, s = w1 +:+ strip s +:+ w2
           ∧ all_chars is_space w1 = true ∧ all_chars is_space w2 = true.
Proof.
  destruct (lstrip_split s) as (w1 & Hs & Hw1).
  destruct (rstrip_split (lstrip s)) as (w2 & Hl & Hw2).
  exists w1, w2. unfold strip. by rewrite <- Hl.
Qed.

Lemma contains_percent_strip s : contains "%" (strip s) = contains "%" s.
Proof.
  destruct (strip_split s) as (w1 & w2 & Hs & Hw1 & Hw2).
  revert Hs. generalize (strip s). intros t ->.
  rewrite !contains_percent_app.
  by rewrite (contains_percent_spaces _ Hw1), (contains_percent_spaces _ Hw2),
    orb_false_r.
Qed.

Lemma drop_while_spaces w :
  all_chars is_space w = true →
  drop_while (fun a => negb (is_numchar a)) w = "".
Proof.
  induction w as [|a w IH]; [done|]. simpl.
  intros [Ha Hw]%andb_true_iff. by rewrite (space_not_numchar _ Ha), (IH Hw).
Qed.

Lemma take_while_spaces_r t w :
  all_chars is_space w = true →
  take_while is_numchar (t +:+ w) = take_while is_numchar t.
Proof.
  intros Hw. induction t as [|a t IH].
  - rewrite append_empty_l. destruct w as [|b w]; [done|].
    simpl in *. apply andb_true_iff in Hw as [Hb _].
    by rewrite (space_not_numchar _ Hb).
  - rewrite append_cons. simpl. by rewrite IH.
Qed.

Lemma re_search_spaces_l w t :
  all_chars is_space w = true →
  re_search_number (w +:+ t) = re_search_number t.
Proof.
  induction w as [|a w IH]; [done|]. simpl all_chars.
  intros [Ha Hw]%andb_true_iff. rewrite append_cons, <- (IH Hw).
  unfold re_search_number. simpl. by rewrite (space_not_numchar _ Ha).
Qed.

Lemma re_search_spaces_r t w :
  all_chars is_space w = true →
  re_search_number (t +:+ w) = re_search_number t.
Proof.
  intros Hw. unfold re_search_number. induction t as [|a t IH].
  - rewrite append_empty_l. by rewrite (drop_while_spaces _ Hw).
  - rewrite append_cons. simpl. destruct (is_numchar a) eqn:Ha; simpl.
    + by rewrite Ha, (take_while_spaces_r _ _ Hw).
    + exact IH.
Qed.

Lemma re_search_strip s : re_search_number (strip s) = re_search_number s.
Proof.
  destruct (strip_split s) as (w1 & w2 & Hs & Hw1 & Hw2).
  revert Hs. generalize (strip s). intros t ->.
  by rewrite (re_search_spaces_l _ _ Hw1), (re_search_spaces_r _ _ Hw2).
Qed.

(** ** [extract_number] *)

Lemma extract_number_percent_text s :
  contains "%" s = true →
  extract_number (PStr s)
  = match re_search_number s with
    | Some group =>
        match py_float group with
        | Some f => PFloat f
        | None => PStr s
        end
    | None => PStr s
    end.
Proof.
  intros Hs. unfold extract_number.
  assert (is_empty_str (PStr s) = false) as -> by (by destruct s).
  simpl. by rewrite contains_percent_strip, Hs, re_search_strip.
Qed.

Lemma re_search_first_run pre run rest :
  all_chars no_numchar pre = true →
  all_chars is_numchar run = true → run ≠ "" →
  ends_number rest = true →
  re_search_number (pre +:+ run +:+ rest) = Some run.
Proof.
  intros Hpre Hrun Hne Hrest. unfold re_search_number.
  induction pre as [|a pre IH].
  - rewrite append_empty_l. destruct run as [|a n]; [done|].
    pose proof Hrun as [Ha _]%andb_true_iff.
    rewrite append_cons. simpl drop_while. rewrite Ha. simpl negb. cbv iota.
    rewrite <- append_cons, (take_while_app _ _ _ Hrun).
    destruct rest as [|b rest]; [by rewrite append_empty_r|].
    simpl in Hrest. apply negb_true_iff in Hrest.
    simpl take_while. by rewrite Hrest, append_empty_r.
  - simpl in Hpre. apply andb_true_iff in Hpre as [Ha Hpre].
    rewrite append_cons. simpl drop_while. unfold no_numchar in Ha.
    rewrite Ha. by apply IH.
Qed.

Lemma Qred_whole z : Qred (z # 1) = z # 1.
Proof.
  unfold Qred.
  generalize (Z.ggcd_gcd z 1) (Z.ggcd_correct_divisors z 1).
  destruct (Z.ggcd z 1) as (g, (aa, bb)). simpl.
  rewrite Z.gcd_1_r. intros -> [Ha Hb].
  rewrite Z.mul_1_l in Ha, Hb. by subst.
Qed.

(** A whole number below [2^53] is a float: rounding leaves it as it is. *)
Lemma binary64_whole z :
  0 ≤ z < 2 ^ 53 → binary64 (inject_Z z) = FFin (inject_Z z).
Proof.
  intros [Hz0 Hz]. unfold binary64, inject_Z. rewrite Qred_whole.
  cbn [Qnum Qden]. rewrite Z.abs_eq by done.
  destruct (z =? 0) eqn:Hzero; [by apply Z.eqb_eq in Hzero as ->|].
  apply Z.eqb_neq in Hzero. assert (0 < z) as Hpos by lia.
  assert (Z.log2 (Z.pos 1) = 0) as -> by done. rewrite Z.sub_0_r.
  pose proof (Z.log2_nonneg z) as He0.
  pose proof (Z.log2_spec z Hpos) as [Hlow Hhigh].
  assert (Z.log2 z < 53) as He by (apply Z.log2_lt_pow2; lia).
  rewrite (Z.max_l 0 (- Z.log2 z)), (Z.max_r 0 (Z.log2 z)) by lia.
  assert ((z * 2 ^ 0 <? 1 * 2 ^ Z.log2 z) = false) as ->
    by (apply Z.ltb_ge; lia).
  rewrite (Z.max_l (Z.log2 z - 52) (-1074)) by lia.
  set (k := 52 - Z.log2 z).
  replace (- (Z.log2 z - 52)) with k by (unfold k; lia).
  rewrite (Z.max_r 0 k), (Z.max_l 0 (Z.log2 z - 52)) by (unfold k; lia).
  assert (0 < 2 ^ k) as Hk by (apply Z.pow_pos_nonneg; unfold k; lia).
  assert (round_half_even (z * 2 ^ k) (1 * 2 ^ 0) = z * 2 ^ k) as ->.
  { unfold round_half_even. change (1 * 2 ^ 0) with 1.
    by rewrite Z.mod_1_r, Z.div_1_r. }
  assert ((z * 2 ^ k =? 0) = false) as -> by (apply Z.eqb_neq; nia).
  assert (Z.log2 (z * 2 ^ k) = Z.log2 z + k) as ->
    by (rewrite Z.log2_mul_pow2; unfold k; lia).
  assert ((1024 <=? Z.log2 z + k + (Z.log2 z - 52)) = false) as ->
    by (apply Z.leb_gt; unfold k; lia).
  assert ((z <? 0) = false) as -> by (apply Z.ltb_ge; lia).
  f_equal. unfold scale2.
  destruct (0 <=? Z.log2 z - 52) eqn:Hp.
  - apply Z.leb_le in Hp. assert (Z.log2 z = 52) as Hl by lia.
    unfold k. rewrite Hl. simpl. f_equal. lia.
  - replace (- (Z.log2 z - 52)) with k by (unfold k; lia).
    rewrite <- (Qred_whole z). apply Qred_complete.
    unfold Qeq. simpl. rewrite Z2Pos.id by done. lia.
Qed.

Example binary64_tenth :
  binary64 (1 # 10) = FFin (3602879701896397 # 36028797018963968).
Proof. vm_compute. reflexivity. Qed.

Example py_float_rounds :
  py_float "1e309" = Some (FInf false)
  ∧ py_float "9007199254740993" = Some (FFin 9007199254740992)
  ∧ py_float "2e-324" = Some (FFin 0).
Proof. repeat split; vm_compute; reflexivity. Qed.

(** C1, as the code has it. In a text that contains a percent sign, the number read
    is the first run of digits and points: when that run is an unsigned
    decimal numeral the result is the float nearest to the number it
    denotes, not a hundredth of it, and whatever stands before the run (a
    sign) or after it (an exponent, a thousands separator and what follows)
    is not read; for a numeral of a whole number below [2^53] followed by a
    percent sign, that is the number itself.  A cell that already holds an
    int or a float (a present one: pandas spells a missing cell NaN) is
    returned unchanged, whatever its size; so is what the caller feeds. *)
Theorem extract_number_percent_and_numbers
    (pre ip rest : string) (fp : option string) (v : pyval) :
  (all_chars no_numchar pre = true → is_numeral ip fp = true →
   ends_number rest = true →
   contains "%" (pre +:+ numeral_text ip fp +:+ rest) = true →
   extract_number (PStr (pre +:+ numeral_text ip fp +:+ rest))
   = PFloat (binary64 (numeral_value ip fp)))
  ∧ (is_numeral ip None = true → Z.of_N (digits_N 0 ip) < 2 ^ 53 →
     extract_number (PStr (ip +:+ "%"))
     = PFloat (FFin (inject_Z (Z.of_N (digits_N 0 ip)))))
  ∧ (is_number_cell v = true → notna v = true →
     extract_number v = v ∧ extract_number (raw_cell v) = v).
Proof.
  assert (∀ pre' ip' fp' rest',
            all_chars no_numchar pre' = true → is_numeral ip' fp' = true →
            ends_number rest' = true →
            contains "%" (pre' +:+ numeral_text ip' fp' +:+ rest') = true →
            extract_number (PStr (pre' +:+ numeral_text ip' fp' +:+ rest'))
            = PFloat (binary64 (numeral_value ip' fp'))) as Hfirst.
  { intros pre' ip' fp' rest' Hpre Hnum Hrest Hpercent.
    destruct (numeral_text_numchars _ _ Hnum) as [Hchars Hne].
    rewrite (extract_number_percent_text _ Hpercent).
    rewrite (re_search_first_run _ _ _ Hpre Hchars Hne Hrest).
    by rewrite (py_float_numeral _ _ Hnum). }
  split; [by apply Hfirst|]. split.
  - intros Hnum Hsmall.
    pose proof (Hfirst "" ip None "%" eq_refl Hnum eq_refl) as Hwhole.
    rewrite append_empty_l in Hwhole. simpl numeral_text in Hwhole.
    rewrite Hwhole by (by rewrite contains_percent_app, orb_true_r).
    f_equal. unfold numeral_value. simpl default. rewrite append_empty_r.
    apply binary64_whole. lia.
  - intros Hnumber Hpresent. unfold raw_cell. rewrite Hpresent.
    by destruct v as [| | |[| |]|].
Qed.

Lemma extract_number_percent_and_numbers_witness :
  extract_number (PStr "-5%") = PFloat (binary64 5)
  ∧ extract_number (PStr "50%") = PFloat (FFin 50)
  ∧ extract_number (PFloat (FFin (1 # 2))) = PFloat (FFin (1 # 2)).
Proof.
  destruct (extract_number_percent_and_numbers "-" "5" "%" None
              (PFloat (FFin (1 # 2)))) as (Hsigned & _ & Hnumber).
  destruct (extract_number_percent_and_numbers "" "50" "%" None
              (PFloat (FFin (1 # 2)))) as (_ & Hwhole & _).
  split; [|split].
  - apply Hsigned; vm_compute; reflexivity.
  - apply Hwhole; vm_compute; reflexivity.
  - exact (proj1 (Hnumber eq_refl eq_refl)).
Defined.

(** C1 as stated fails: with a sign before it, "<number>%" does not yield
    the number: "-5%" yields 5, while "-5" without the percent sign yields
    -5. *)
Lemma signed_percent_loses_its_sign : ¬ percent_yields_bare_number.
Proof.
  intros Hall. specialize (Hall "-5" (FFin (-5)) ltac:(vm_compute; reflexivity)).
  vm_compute in Hall. discriminate Hall.
Qed.

Example extract_number_50_percent :
  extract_number (PStr "50%") = PFloat (FFin 50).
Proof. vm_compute. reflexivity. Qed.

Example extract_number_half :
  extract_number (PFloat (FFin (1 # 2))) = PFloat (FFin (1 # 2)).
Proof. reflexivity. Qed.

(** C9. A text that contains a percent sign but whose first run of digits
    and dots does not read as a number (or that has no such run) comes back
    as it was, not as [None]: the cell is not missing. *)
Theorem extract_number_percent_without_number (s : string) :
  contains "%" s = true → no_number s = true →
  extract_number (PStr s) = PStr s ∧ isna (extract_number (PStr s)) = false.
Proof.
  intros Hpercent Hno. rewrite (extract_number_percent_text _ Hpercent).
  unfold no_number in Hno.
  destruct (re_search_number s) as [group|]; [|done].
  by destruct (py_float group).
Qed.

Lemma extract_number_percent_without_number_witness :
  extract_number (PStr "n/a %") = PStr "n/a %"
  ∧ isna (extract_number (PStr "n/a %")) = false.
Proof.
  apply (extract_number_percent_without_number "n/a %"); reflexivity.
Defined.

Example extract_number_dots_percent :
  extract_number (PStr "1.2.3%") = PStr "1.2.3%".
Proof. reflexivity. Qed.

(** The numeral that the regular expression takes has no sign, and a text
    without a percent sign that is not a number is missing. *)
Example extract_number_signed_percent :
  extract_number (PStr "-5%") = PFloat (FFin 5).
Proof. reflexivity. Qed.

Example extract_number_plain_text :
  extract_number (PStr "85") = PFloat (FFin 85)
  ∧ extract_number (PStr "n/a") = PNone
  ∧ extract_number (PStr "") = PNone.
Proof. repeat split; reflexivity. Qed.


(** ** The error monad *)

Lemma rbind_ok {A B} (m : res A) (k : A → res B) b :
  rbind m k = Ok b → ∃ a, m = Ok a ∧ k a = Ok b.
Proof. destruct m as [a|e]; [by exists a|done]. Qed.

Lemma rbind_raise {A B} (m : res A) (k : A → res B) e :
  m = Raise e → rbind m k = Raise e.
Proof. by intros ->. Qed.

Ltac bind_ok H :=
  repeat match type of H with
  | rbind _ _ = Ok _ =>
      let a := fresh "a" in let Ha := fresh "Ha" in
      apply rbind_ok in H as (a & Ha & H)
  end.

Section FrameProperties.

Context `{FR : FloatRepr}.

(** ** The row loops *)

Lemma collect_rows_elem f : ∀ rs i data r,
  collect_rows f i rs = Ok data → r ∈ data →
  ∃ k row, rs !! k = Some row ∧ f (i + k)%nat row = Ok (Some r).
Proof.
  induction rs as [|row rs IH]; intros i data r Hc Hr; simpl in Hc.
  - injection Hc as <-. by apply elem_of_nil in Hr.
  - apply rbind_ok in Hc as (o & Ho & Hc).
    apply rbind_ok in Hc as (rest & Hrest & Hc). injection Hc as <-.
    assert (o = Some r ∨ r ∈ rest) as [->|Hin].
    { destruct o; [apply elem_of_cons in Hr as [->|]|]; auto. }
    + exists 0%nat, row. by rewrite Nat.add_0_r.
    + destruct (IH _ _ _ Hrest Hin) as (k & row' & Hk & Hf).
      exists (S k), row'. split; [done|]. by rewrite Nat.add_succ_r.
Qed.

Lemma collect_rows_raise f : ∀ rs i k row e,
  rs !! k = Some row → f (i + k)%nat row = Raise e →
  ∃ e', collect_rows f i rs = Raise e'.
Proof.
  induction rs as [|row0 rs IH]; intros i k row e Hk Hf; [done|].
  simpl. destruct k as [|k].
  - injection Hk as ->. rewrite Nat.add_0_r in Hf. rewrite Hf. by exists e.
  - destruct (f i row0) as [o|e0]; [|by exists e0]. simpl.
    rewrite Nat.add_succ_r in Hf.
    destruct (IH (S i) k row e Hk Hf) as (e' & ->). by exists e'.
Qed.

Lemma collect_rows_Forall f (P : MeasureRecord → Prop) rs i data :
  (∀ idx row r, f idx row = Ok (Some r) → P r) →
  collect_rows f i rs = Ok data → Forall P data.
Proof.
  intros Hf Hc. apply Forall_forall. intros r Hr.
  destruct (collect_rows_elem _ _ _ _ _ Hc Hr) as (k & row & _ & Hrow).
  by eapply Hf.
Qed.

(** The records of a loop whose body ignores the index are, in order, the
    projections of the rows it does not skip. *)
Lemma collect_rows_filter (g : list pyval → res (option MeasureRecord))
    (skipped : list pyval → bool) : ∀ rs i data,
  (∀ row o, g row = Ok o → (o = None ↔ skipped row = true)) →
  collect_rows (fun _ => g) i rs = Ok data →
  Forall2 (fun row r => g row = Ok (Some r))
    (List.filter (fun row => negb (skipped row)) rs) data.
Proof.
  intros rs i data Hskip. revert i data.
  induction rs as [|row rs IH]; intros i data Hc; simpl in Hc.
  - injection Hc as <-. constructor.
  - apply rbind_ok in Hc as (o & Ho & Hc).
    apply rbind_ok in Hc as (rest & Hrest & Hc). injection Hc as <-.
    simpl. specialize (IH _ _ Hrest). destruct (Hskip _ _ Ho) as [Hs1 Hs2].
    destruct o as [r|].
    + destruct (skipped row); [by discriminate Hs2|]. by constructor.
    + by rewrite Hs1.
Qed.

(** ** The rows of the three layouts *)

Lemma blank_group_false g :
  blank_group g = false → g ≠ "" ∧ g ≠ "nan".
Proof.
  unfold blank_group, str_eqb. intros [H1 H2]%orb_false_iff.
  by apply bool_decide_eq_false in H1, H2.
Qed.

Lemma grouping_row_group cols idx row r :
  grouping_row cols idx row = Ok (Some r) → has_group r.
Proof.
  unfold grouping_row. intros Hrow. bind_ok Hrow.
  destruct (blank_group a) eqn:Hg; [done|].
  injection Hrow as <-. by apply blank_group_false.
Qed.

Lemma selection_row_group cols row r :
  selection_row cols row = Ok (Some r) → has_group r.
Proof.
  unfold selection_row. intros Hrow. bind_ok Hrow.
  destruct (blank_group a) eqn:Hg; [done|].
  injection Hrow as <-. by apply blank_group_false.
Qed.

Lemma plain_row_group cols row r :
  plain_row cols row = Ok (Some r) → has_group r.
Proof.
  unfold plain_row. intros Hrow. bind_ok Hrow.
  destruct a as [[[g k] d] n].
  destruct (blank_group g) eqn:Hg; [done|].
  injection Hrow as <-. by apply blank_group_false.
Qed.

Lemma read_excel_data_some f data :
  read_excel_data f = Ok (Some data) ↔ read_excel_body f = Ok data.
Proof.
  unfold read_excel_data. destruct (read_excel_body f); simpl.
  - split; congruence.
  - split; discriminate.
Qed.

Lemma read_excel_data_none f :
  read_excel_data f = Ok None ↔ ∃ e, read_excel_body f = Raise e.
Proof.
  unfold read_excel_data. destruct (read_excel_body f) as [data|e]; simpl.
  - split; [discriminate|]. by intros [e He].
  - split; [by exists e|done].
Qed.

Lemma records_of_frame_group df data :
  records_of_frame df = Ok data → Forall has_group data.
Proof.
  unfold records_of_frame.
  destruct (layout_of (columns (strip_columns df))); intros Hc.
  - eapply collect_rows_Forall; [|exact Hc].
    intros idx row r. apply grouping_row_group.
  - apply rbind_ok in Hc as (cells & _ & Hc).
    eapply collect_rows_Forall; [|exact Hc].
    intros idx row r. apply selection_row_group.
  - eapply collect_rows_Forall; [|exact Hc].
    intros idx row r. apply plain_row_group.
Qed.

(** C5. Whatever the file and whichever of the three layouts it has, every
    Record that [read_excel_data] returns has a [measure_group] that is
    neither empty nor "nan": a row with a blank grouping field is skipped,
    never emitted. *)
Theorem read_excel_data_records_have_group (f : source_file)
    (data : list MeasureRecord) :
  read_excel_data f = Ok (Some data) → Forall has_group data.
Proof.
  intros Hread. apply read_excel_data_some in Hread.
  unfold read_excel_body in Hread.
  apply rbind_ok in Hread as (df & _ & Hrec).
  by eapply records_of_frame_group.
Qed.

(** C10. A call of [read_excel_data] always returns: a list of Records when
    every statement of its body succeeds, and [None] as soon as one of them
    (a read, a column lookup, a conversion) raises; no exception reaches
    the caller. *)
Theorem read_excel_data_never_raises (f : source_file) :
  ∃ v, read_excel_data f = Ok v
       ∧ (∀ data, v = Some data ↔ read_excel_body f = Ok data)
       ∧ (v = None ↔ ∃ e, read_excel_body f = Raise e).
Proof.
  unfold read_excel_data. destruct (read_excel_body f) as [data|e]; simpl.
  - exists (Some data). split; [done|]. split.
    + intros data'. split; congruence.
    + split; [discriminate|]. by intros [e He].
  - exists None. split; [done|]. split.
    + intros data'. split; discriminate.
    + split; [by exists e|done].
Qed.

(** ** The selection column *)

Lemma flag_of_bool_cell v :
  is_bool_cell (if isna v then PBool false else v) = true →
  eq_true (if isna v then PBool false else v) = flag_is_true v.
Proof. by destruct v as [|[|]| |[| |]|]. Qed.

Lemma flag_of_object_cell v :
  eq_true
    (if isna (map_flag (lower (strip
               (py_str (if isna v then PBool false else v)))))
     then PBool false
     else map_flag (lower (strip
               (py_str (if isna v then PBool false else v)))))
  = flag_is_true v.
Proof.
  assert (∀ s, eq_true (if isna (map_flag s) then PBool false else map_flag s)
               = str_eqb s "true") as Hflag.
  { intros s. unfold map_flag.
    destruct (str_eqb s "true"); [done|].
    destruct (str_eqb s "false"); [done|].
    destruct (str_eqb s ""); [done|].
    by destruct (str_eqb s "nan"). }
  rewrite Hflag. unfold flag_is_true.
  by destruct v as [|[|]| |[| |]|].
Qed.

Lemma selection_mask_flag cells :
  flag_column cells = true → selection_mask cells = map flag_is_true cells.
Proof.
  unfold flag_column, selection_mask, normalize_selection.
  destruct (series_dtype (fillna_false cells)) eqn:Hd; try done; intros _.
  - unfold series_dtype in Hd.
    destruct (forallb is_bool_cell (fillna_false cells)) eqn:Hb.
    2:{ repeat (destruct (forallb _ _) in Hd; try done). }
    clear Hd. induction cells as [|v cells IH]; [done|].
    simpl in Hb. apply andb_true_iff in Hb as [Hv Hb].
    simpl. by rewrite (flag_of_bool_cell _ Hv), (IH Hb).
  - clear Hd. induction cells as [|v cells IH]; [done|].
    simpl. by rewrite flag_of_object_cell, IH.
Qed.

Lemma selection_row_skipped cols row o :
  selection_row cols row = Ok o →
  (o = None ↔ group_text_blank cols row = true).
Proof.
  unfold selection_row, group_text_blank. intros Hrow. bind_ok Hrow.
  rewrite Ha. destruct (blank_group a); injection Hrow as <-; split; done.
Qed.

(** C2, as the code has it. In the selection-flag layout (the flag column
    holding booleans, text or blanks), when the rows are read the Records
    returned are, in order and one for one, the projections of the rows whose
    flag reads "true" after conversion to text, trimming and lowercasing
    (the boolean [True] included) and whose Measure Group is neither blank
    nor "nan"; rows whose flag is "false", blank or anything else give none.
    The setup sheet of [process_weights_targets_file] keeps exactly the rows
    whose flag reads "true". *)
Theorem selection_rows_emitted (df : DataFrame) (cells : list pyval) :
  let cols := columns (strip_columns df) in
  column_cells (strip_columns df) selection_col = Ok cells →
  flag_column cells = true →
  (layout_of cols = SelectionFlag →
   ∀ data, records_of_frame df = Ok data →
     Forall2 (fun row r => selection_row cols row = Ok (Some r))
       (List.filter (fun row => negb (group_text_blank cols row))
          (select_rows (map flag_is_true cells) (rows df)))
       data)
  ∧ (has_column cols selection_col = true →
     filter_setup_rows (strip_columns df)
     = Ok {| columns := cols;
             rows := select_rows (map flag_is_true cells) (rows df) |}).
Proof.
  intros cols Hcells Hflag. split.
  - intros Hlayout data. unfold records_of_frame. fold cols.
    rewrite Hlayout, Hcells. simpl rbind.
    rewrite (selection_mask_flag _ Hflag). simpl rows.
    apply collect_rows_filter. apply selection_row_skipped.
  - intros Hcol. unfold filter_setup_rows. fold cols.
    rewrite Hcol, Hcells. simpl. by rewrite (selection_mask_flag _ Hflag).
Qed.

(** ** The order of a row in the grouping layout *)

Lemma measure_order_of_cell cols idx row v :
  row_item cols row "Measure Order" = Ok v →
  measure_order_of cols idx row
  = if notna v then py_int v else Ok (Z.of_nat idx + 1).
Proof.
  unfold measure_order_of, row_item, row_get.
  destruct (find_label cols "Measure Order"); [done| |done].
  intros ->. simpl. by destruct (notna v).
Qed.

Lemma grouping_row_order cols idx row r :
  grouping_row cols idx row = Ok (Some r) →
  ∃ z, measure_order_of cols idx row = Ok z ∧ order r = Some z.
Proof.
  unfold grouping_row. intros Hrow. bind_ok Hrow.
  destruct (blank_group a); [done|]. injection Hrow as <-. by exists a3.
Qed.

Lemma grouping_row_order_raises cols idx row e :
  measure_order_of cols idx row = Raise e →
  ∃ e', grouping_row cols idx row = Raise e'.
Proof.
  unfold grouping_row. intros ->.
  repeat match goal with
  | |- ∃ e', rbind ?m _ = Raise e' =>
      destruct m; simpl; [|by eexists]
  end.
  by eexists.
Qed.

(** C7, as the code has it. In the grouping layout the order of a row is the
    integer value of its Measure Order cell when the cell is present, and
    the 1-based position of the row when the cell is blank; every Record
    returned is the projection of a row and carries the order of that row;
    and a present cell that [int] cannot convert makes [read_excel_data]
    return [None] for the whole file. *)
Theorem grouping_order (f : source_file) (df : DataFrame) :
  let cols := columns (strip_columns df) in
  load_frame f = Ok df →
  layout_of cols = Grouping →
  (∀ idx row v,
     row_item cols row "Measure Order" = Ok v →
     measure_order_of cols idx row
     = if notna v then py_int v else Ok (Z.of_nat idx + 1))
  ∧ (∀ data r,
       read_excel_data f = Ok (Some data) → r ∈ data →
       ∃ idx row z,
         rows df !! idx = Some row
         ∧ grouping_row cols idx row = Ok (Some r)
         ∧ measure_order_of cols idx row = Ok z ∧ order r = Some z)
  ∧ (∀ idx row e,
       rows df !! idx = Some row →
       measure_order_of cols idx row = Raise e →
       read_excel_data f = Ok None).
Proof.
  intros cols Hload Hlayout.
  assert (read_excel_body f = collect_rows (grouping_row cols) 0 (rows df))
    as Hbody.
  { unfold read_excel_body. rewrite Hload. simpl. unfold records_of_frame.
    fold cols. by rewrite Hlayout. }
  split; [|split].
  - intros idx row v. apply measure_order_of_cell.
  - intros data r Hread Hr. apply read_excel_data_some in Hread.
    rewrite Hbody in Hread.
    destruct (collect_rows_elem _ _ _ _ _ Hread Hr) as (k & row & Hk & Hrow).
    destruct (grouping_row_order _ _ _ _ Hrow) as (z & Hz & Hord).
    by exists k, row, z.
  - intros idx row e Hrow Hraise. apply read_excel_data_none.
    rewrite Hbody.
    destruct (grouping_row_order_raises _ _ _ _ Hraise) as (e1 & He1).
    eapply collect_rows_raise; [exact Hrow|exact He1].
Qed.

(** ** The three layouts on examples *)

(** A selection column that pandas types as [int64] is compared with [True]
    as it is: the cells equal to 1 are kept. *)
Example numeric_selection_column :
  flag_column [PInt 1; PInt 0] = false
  ∧ selection_mask [PInt 1; PInt 0] = [true; false].
Proof. split; reflexivity. Qed.

(** Without a 'Measure Order' column the default of [row.get] is present
    text, and [row['Measure Order']] raises. *)
Example missing_order_column :
  read_excel_data
    (file_of true []
       {| columns := ["Grouping Name"; "Client Name of Metric"; "Notes"];
          rows := [ [PStr "Availability"; PStr "In Stock"; PStr "n"] ] |})
  = Ok None.
Proof. reflexivity. Qed.

Example plain_scenario :
  read_excel_data (workbook_with_header_at 2 plain_grid plain_frame)
  = Ok (Some [ {| measure_group := "Availability"; standard_kpis := "kpi_1";
                  measure_display_name := "In Stock %";
                  definition := "defn text"; order := None |} ]).
Proof. reflexivity. Qed.

Example shifted_scenario :
  read_excel_data (file_of true [] shifted_frame)
  = Ok (Some [ {| measure_group := "Availability"; standard_kpis := "kpi_1";
                  measure_display_name := "In Stock %";
                  definition := "defn text"; order := None |};
               {| measure_group := "Content"; standard_kpis := "kpi_2";
                  measure_display_name := "Images";
                  definition := "d"; order := None |} ]).
Proof. reflexivity. Qed.

Example unreadable_file :
  read_excel_data {| is_csv := false; read_table := fun _ => Raise OSError;
                     read_grid := fun _ => Raise OSError |}
  = Ok None.
Proof. reflexivity. Qed.

End FrameProperties.

Lemma read_excel_data_records_have_group_witness :
  Forall has_group
    [ {| measure_group := "Availability"; standard_kpis := "in_stock";
         measure_display_name := "In Stock %"; definition := "defn text";
         order := None |};
      {| measure_group := "Ratings"; standard_kpis := "stars";
         measure_display_name := "Stars"; definition := "d";
         order := None |} ].
Proof.
  apply (@read_excel_data_records_have_group sample_float_repr
           (file_of true [] sample_enterprise_frame)).
  reflexivity.
Defined.

Lemma selection_rows_emitted_witness :
  Forall2
    (fun row r =>
       @selection_row sample_float_repr enterprise_columns row = Ok (Some r))
    [ [PStr "Availability"; PStr "in_stock"; PStr "In Stock %";
       PStr "defn text"; PStr " TRUE "];
      [PStr "Ratings"; PStr "stars"; PStr "Stars"; PStr "d"; PBool true] ]
    [ {| measure_group := "Availability"; standard_kpis := "in_stock";
         measure_display_name := "In Stock %"; definition := "defn text";
         order := None |};
      {| measure_group := "Ratings"; standard_kpis := "stars";
         measure_display_name := "Stars"; definition := "d";
         order := None |} ].
Proof.
  apply (proj1 (@selection_rows_emitted sample_float_repr
                  sample_enterprise_frame
                  [PStr " TRUE "; PStr "False"; PFloat FNan; PBool true;
                   PStr "yes"]
                  eq_refl eq_refl) eq_refl).
  reflexivity.
Defined.

(** C2 as stated fails: a row flagged [True] whose Measure Group is blank
    gives no Record. *)
Lemma flagged_row_with_blank_group_not_emitted :
  ¬ @emits_every_flagged_row sample_float_repr flagged_blank_group_frame.
Proof.
  intros Hall.
  specialize (Hall [PBool true] [] eq_refl eq_refl).
  inversion Hall.
Qed.

Lemma grouping_order_witness :
  measure_order_of grouping_columns 1
    [PStr "Content"; PFloat FNan; PStr "images"; PFloat FNan; PFloat FNan]
  = Ok 2.
Proof.
  apply (proj1 (@grouping_order sample_float_repr
                  (file_of true [] sample_grouping_frame)
                  sample_grouping_frame eq_refl eq_refl)
           1%nat _ (PFloat FNan)).
  reflexivity.
Defined.

(** C7 as stated fails: one order cell that does not convert and the whole
    file is lost. *)
Lemma unparseable_order_is_fatal :
  let row := [PStr "Availability"; PStr "In Stock"; PStr "in_stock";
              PStr "note"; PStr "abc"] in
  rows bad_order_frame = [row]
  ∧ row_item grouping_columns row "Measure Order" = Ok (PStr "abc")
  ∧ measure_order_of grouping_columns 0 row = Raise ValueError
  ∧ @read_excel_data sample_float_repr (file_of true [] bad_order_frame)
    = Ok None
  ∧ ¬ ∃ data,
        @read_excel_data sample_float_repr (file_of true [] bad_order_frame)
        = Ok (Some data).
Proof.
  repeat split; try reflexivity. intros (data & Hread). discriminate Hread.
Qed.



(** ** The header row detector *)

Section HeaderProperties.
Context `{FR : FloatRepr}.

Lemma keyword_loop_hit kws val w sc :
  keyword_loop kws val w sc
  = if existsb (fun keyword => contains keyword val) kws then sc + w else sc.
Proof.
  induction kws as [|k kws IH]; [done|]. simpl.
  by destruct (contains k val).
Qed.

Lemma cell_loop_count p row_lower : ∀ sc,
  cell_loop p row_lower sc
  = sc + weight p * Z.of_nat (count_if (cell_matches p) row_lower).
Proof.
  unfold cell_loop, count_if.
  induction row_lower as [|val vals IH]; intros sc; simpl; [lia|].
  rewrite IH, keyword_loop_hit. unfold cell_matches at 2.
  destruct (String.length val <=? max_length p)%nat; simpl; [|done].
  destruct (existsb _ (keywords p)); simpl length; lia.
Qed.

(** What the loops compute: each group's weight once per matching cell. *)
Lemma pattern_loop_cellwise row_lower :
  pattern_loop row_lower = cellwise_pattern_score row_lower.
Proof.
  unfold pattern_loop, cellwise_pattern_score.
  generalize 0. induction column_patterns as [|np nps IH]; intros sc; [done|].
  simpl. by rewrite cell_loop_count, IH.
Qed.

Lemma existsb_count {A} (p : A → bool) l :
  (count_if p l ≤ 1)%nat →
  Z.of_nat (count_if p l) = if existsb p l then 1 else 0.
Proof.
  unfold count_if. induction l as [|a l IH]; [done|]. simpl.
  destruct (p a) eqn:Hp; simpl; [|exact IH].
  intros Hle. assert (length (List.filter p l) = 0%nat) as Hz by lia.
  rewrite Hz. destruct (existsb p l) eqn:He; [|done].
  apply existsb_exists in He as (x & Hx & Hpx).
  assert (In x (List.filter p l)) as Hin by (apply filter_In; auto).
  destruct (List.filter p l); [done|discriminate Hz].
Qed.

(** When no group is matched by two cells of the row, the loops give the
    score of the specification. *)
Lemma pattern_loop_once_per_group row_lower :
  Forall (fun np => (count_if (cell_matches (snd np)) row_lower ≤ 1)%nat)
         column_patterns →
  pattern_loop row_lower = spec_pattern_score row_lower.
Proof.
  rewrite pattern_loop_cellwise.
  unfold cellwise_pattern_score, spec_pattern_score.
  generalize 0. induction column_patterns as [|np nps IH]; intros sc Hall;
    [done|].
  apply Forall_cons in Hall as [Hnp Hall]. simpl.
  rewrite (existsb_count _ _ Hnp), <- (IH _ Hall).
  destruct (existsb _ row_lower); f_equal; lia.
Qed.

Lemma row_score_once_per_group row :
  Forall (fun np =>
            (count_if (cell_matches (snd np)) (row_values_lower row) ≤ 1)%nat)
         column_patterns →
  row_score row = spec_row_score row.
Proof.
  intros Hall. unfold row_score, spec_row_score.
  by rewrite (pattern_loop_once_per_group _ Hall).
Qed.

(** ** The scan of the candidate rows *)

Lemma scan_rows_best : ∀ n grid i b o s r,
  scan_rows n i grid (b, o) = (s, r) →
  b ≤ s
  ∧ (∀ k row sc, (k < n)%nat → grid !! k = Some row →
       row_score row = Some sc → sc ≤ s)
  ∧ ((s = b ∧ r = o)
     ∨ ∃ k row, r = Some (i + k)%nat ∧ (k < n)%nat ∧ grid !! k = Some row
                ∧ row_score row = Some s ∧ b < s).
Proof.
  induction n as [|n IH]; intros grid i b o s r Hscan.
  - simpl in Hscan. injection Hscan as <- <-.
    split; [lia|]. split; [intros; lia|by left].
  - destruct grid as [|row grid].
    { simpl in Hscan. injection Hscan as <- <-.
      split; [lia|]. split; [by intros k row sc _ Hk|by left]. }
    simpl in Hscan.
    destruct (row_score row) as [sc0|] eqn:Hsc; simpl in Hscan.
    + destruct (b <? sc0) eqn:Hlt.
      * apply Z.ltb_lt in Hlt.
        destruct (IH _ _ _ _ _ _ Hscan) as (Hle & Hmax & Hsel).
        split; [lia|]. split.
        -- intros [|k] row' sc Hk Hrow Hrs.
           ++ injection Hrow as <-. rewrite Hsc in Hrs.
              injection Hrs as <-. done.
           ++ apply (Hmax k row' sc); [lia|done..].
        -- right. destruct Hsel as [[-> ->]|(k & row' & -> & Hk & Hrow & Hrs & Hb)].
           ++ exists 0%nat, row. rewrite Nat.add_0_r.
              repeat split; [lia|done..].
           ++ exists (S k), row'. rewrite Nat.add_succ_r.
              repeat split; [lia|done|done|lia].
      * apply Z.ltb_ge in Hlt.
        destruct (IH _ _ _ _ _ _ Hscan) as (Hle & Hmax & Hsel).
        split; [lia|]. split.
        -- intros [|k] row' sc Hk Hrow Hrs.
           ++ injection Hrow as <-. rewrite Hsc in Hrs.
              injection Hrs as <-. lia.
           ++ apply (Hmax k row' sc); [lia|done..].
        -- destruct Hsel as [[-> ->]|(k & row' & -> & Hk & Hrow & Hrs & Hb)];
             [by left|right].
           exists (S k), row'. rewrite Nat.add_succ_r.
           repeat split; [lia|done..].
    + destruct (IH _ _ _ _ _ _ Hscan) as (Hle & Hmax & Hsel).
      split; [lia|]. split.
      * intros [|k] row' sc Hk Hrow Hrs.
        -- injection Hrow as <-. congruence.
        -- apply (Hmax k row' sc); [lia|done..].
      * destruct Hsel as [[-> ->]|(k & row' & -> & Hk & Hrow & Hrs & Hb)];
          [by left|right].
        exists (S k), row'. rewrite Nat.add_succ_r.
        repeat split; [lia|done..].
Qed.

(** The detector takes a row whose score is the highest of the rows scanned
    when that score is at least 5, and the default row when every score is
    below 5. *)
Lemma detect_header_row_best temp_df :
  (∃ row s,
     temp_df !! detect_header_row temp_df = Some row
     ∧ row_score row = Some s ∧ min_header_score ≤ s
     ∧ ∀ k row' sc, (k < max_rows_to_check)%nat → temp_df !! k = Some row' →
         row_score row' = Some sc → sc ≤ s)
  ∨ (detect_header_row temp_df = default_header_row
     ∧ ∀ k row sc, (k < max_rows_to_check)%nat → temp_df !! k = Some row →
         row_score row = Some sc → sc < min_header_score).
Proof.
  unfold detect_header_row.
  destruct (scan_rows max_rows_to_check 0 temp_df (0, None)) as [s r] eqn:Hs.
  destruct (scan_rows_best _ _ _ _ _ _ _ Hs) as (Hle & Hmax & Hsel).
  destruct Hsel as [[-> ->]|(k & row & -> & Hk & Hrow & Hrs & Hb)].
  - right. split; [done|]. intros k row sc Hk Hrow Hrs.
    specialize (Hmax _ _ _ Hk Hrow Hrs). unfold min_header_score. lia.
  - simpl. destruct (min_header_score <=? s) eqn:Hmin.
    + left. apply Z.leb_le in Hmin. by exists row, s.
    + right. apply Z.leb_gt in Hmin. split; [done|].
      intros k' row' sc Hk' Hrow' Hrs'.
      specialize (Hmax _ _ _ Hk' Hrow' Hrs'). lia.
Qed.

Lemma scan_rows_once_per_group : ∀ n grid i best,
  Forall (fun row =>
     Forall (fun np =>
        (count_if (cell_matches (snd np)) (row_values_lower row) ≤ 1)%nat)
       column_patterns) grid →
  scan_rows n i grid best = spec_scan_rows n i grid best.
Proof.
  induction n as [|n IH]; intros grid i best Hall; [done|].
  destruct grid as [|row grid]; [done|].
  apply Forall_cons in Hall as [Hrow Hall]. simpl.
  by rewrite (row_score_once_per_group _ Hrow), (IH _ _ _ Hall).
Qed.

(** On a sheet where no row has two cells matching the same keyword group,
    the detector takes the row the specification describes. *)
Lemma detect_header_row_once_per_group temp_df :
  Forall (fun row =>
     Forall (fun np =>
        (count_if (cell_matches (snd np)) (row_values_lower row) ≤ 1)%nat)
       column_patterns) temp_df →
  detect_header_row temp_df = spec_detect_header_row temp_df.
Proof.
  intros Hall. unfold detect_header_row, spec_detect_header_row.
  by rewrite (scan_rows_once_per_group _ _ _ _ Hall).
Qed.

(** C3 fails on the code. With two cells that contain "target" the weight of
    the target group is added twice: the row scores 6 where the stated rule
    gives 3, and the detector takes it as the header (row 0) where the
    stated rule, below the threshold of 5, falls back to the default row 2. *)
Theorem header_score_counts_each_matching_cell :
  row_score two_targets_row = Some 6
  ∧ spec_row_score two_targets_row = Some 3
  ∧ detect_header_row two_targets_grid = 0%nat
  ∧ spec_detect_header_row two_targets_grid = 2%nat.
Proof. repeat split; reflexivity. Qed.

End HeaderProperties.

(** ** The two passes over the export file *)

Section ResolutionProperties.
Context `{FR : FloatRepr}.

(** ** Labels and cells *)

Lemma label_positions_lookup name cols : ∀ i k,
  k ∈ label_positions name cols i →
  ∃ j, k = (i + j)%nat ∧ cols !! j = Some name.
Proof.
  induction cols as [|c cols IH]; intros i k Hk; simpl in Hk.
  - by apply elem_of_nil in Hk.
  - unfold str_eqb in Hk. case_bool_decide as Hc.
    + apply elem_of_cons in Hk as [->|Hk].
      * exists 0%nat. split; [lia|]. by subst c.
      * destruct (IH _ _ Hk) as (j & -> & Hj). exists (S j). split; [lia|done].
    + destruct (IH _ _ Hk) as (j & -> & Hj). exists (S j). split; [lia|done].
Qed.

Lemma find_label_At cols name i :
  find_label cols name = At i → cols !! i = Some name.
Proof.
  unfold find_label.
  destruct (label_positions name cols 0) as [|k [|]] eqn:Hpos; try done.
  intros [= ->].
  destruct (label_positions_lookup name cols 0 i) as (j & -> & Hj); [|done].
  rewrite Hpos. apply list_elem_of_here.
Qed.

Lemma find_label_distinct cols a b i j :
  find_label cols a = At i → find_label cols b = At j → a ≠ b → i ≠ j.
Proof.
  intros Ha%find_label_At Hb%find_label_At Hab ->. congruence.
Qed.

Lemma find_label_has_column cols name i :
  find_label cols name = At i → has_column cols name = true.
Proof.
  intros Hi%find_label_At. unfold has_column. apply existsb_exists.
  exists name. split.
  - apply list_elem_of_In. by eapply list_elem_of_lookup_2.
  - unfold str_eqb. by apply bool_decide_eq_true.
Qed.

Lemma at_get_inv df k name v :
  at_get df k name = Ok v →
  ∃ j row, find_label (columns df) name = At j
           ∧ rows df !! k = Some row ∧ row !! j = Some v.
Proof.
  unfold at_get, row_item, row_iloc.
  destruct (rows df !! k) as [row|]; [|done].
  destruct (find_label (columns df) name) as [|j|]; try done.
  destruct (row !! j) as [v'|] eqn:Hj; [|done]. intros [= ->]. by exists j, row.
Qed.

Lemma at_get_ext df df' k name :
  columns df' = columns df → rows df' !! k = rows df !! k →
  at_get df' k name = at_get df k name.
Proof. unfold at_get. by intros -> ->. Qed.

Lemma at_set_inv df i name v df' :
  at_set df i name v = Ok df' →
  ∃ j row, find_label (columns df) name = At j ∧ rows df !! i = Some row
           ∧ df' = {| columns := columns df;
                      rows := <[i := <[j := v]> row]> (rows df) |}.
Proof.
  unfold at_set.
  destruct (find_label (columns df) name) as [|j|];
    destruct (rows df !! i) as [row|]; try done.
  intros [= <-]. by exists j, row.
Qed.

Lemma at_set_same df i name v df' old :
  at_set df i name v = Ok df' → at_get df i name = Ok old →
  at_get df' i name = Ok v.
Proof.
  intros (j & row & Hj & Hrow & ->)%at_set_inv
         (j' & row' & Hj' & Hrow' & Hold)%at_get_inv.
  assert (j' = j) as -> by congruence.
  assert (row' = row) as -> by congruence.
  unfold at_get, row_item, row_iloc. simpl. rewrite Hj.
  rewrite list_lookup_insert_eq by (by eapply lookup_lt_Some).
  by rewrite list_lookup_insert_eq by (by eapply lookup_lt_Some).
Qed.

Lemma at_set_other df i name v df' k name' :
  at_set df i name v = Ok df' → k ≠ i ∨ name' ≠ name →
  at_get df' k name' = at_get df k name'.
Proof.
  intros (j & row & Hj & Hrow & ->)%at_set_inv Hother.
  unfold at_get. simpl.
  destruct (decide (k = i)) as [->|Hk].
  - destruct Hother as [|Hname]; [done|].
    destruct (rows df !! i) as [row0|] eqn:Hrow0; [|done].
    injection Hrow as ->.
    rewrite list_lookup_insert_eq by (by eapply lookup_lt_Some).
    unfold row_item, row_iloc.
    destruct (find_label (columns df) name') as [|j'|] eqn:Hj'; try done.
    rewrite list_lookup_insert_ne; [done|].
    intros ->. apply find_label_At in Hj, Hj'. congruence.
  - by rewrite list_lookup_insert_ne.
Qed.

Lemma at_set_rows_other df i name v df' k :
  at_set df i name v = Ok df' → k ≠ i → rows df' !! k = rows df !! k.
Proof.
  intros (j & row & Hj & Hrow & ->)%at_set_inv Hk. simpl.
  by rewrite list_lookup_insert_ne.
Qed.

Lemma at_set_shape df i name v df' :
  at_set df i name v = Ok df' →
  columns df' = columns df ∧ length (rows df') = length (rows df).
Proof.
  intros (j & row & Hj & Hrow & ->)%at_set_inv. simpl.
  by rewrite length_insert.
Qed.

(** ** Step 2: the defaults *)

Lemma row_get_of_item cols row name v dflt :
  row_item cols row name = Ok v → row_get cols row name dflt = Ok v.
Proof.
  unfold row_item, row_get. by destruct (find_label cols name).
Qed.

Lemma in_range_spec i n k :
  in_range i n k = true ↔ (i ≤ k < i + n)%nat.
Proof.
  unfold in_range. rewrite andb_true_iff, Nat.leb_le, Nat.ltb_lt. lia.
Qed.

Lemma in_range_eq i n k i' n' :
  ((i ≤ k < i + n)%nat ↔ (i' ≤ k < i' + n')%nat) →
  in_range i n k = in_range i' n' k.
Proof.
  intros Hiff. destruct (in_range i n k) eqn:H1, (in_range i' n' k) eqn:H2;
    try done.
  - apply in_range_spec, Hiff, in_range_spec in H1. congruence.
  - apply in_range_spec, Hiff, in_range_spec in H2. congruence.
Qed.

Lemma in_range_false i n k :
  ¬ (i ≤ k < i + n)%nat → in_range i n k = false.
Proof.
  intros Hn. destruct (in_range i n k) eqn:Hr; [|done].
  by apply in_range_spec in Hr.
Qed.

Lemma fill_blank_spec name dflt : ∀ n i df df',
  fill_blank name dflt n i df = Ok df' →
  columns df' = columns df
  ∧ length (rows df') = length (rows df)
  ∧ (∀ k v, at_get df k name = Ok v →
       at_get df' k name
       = Ok (if in_range i n k && is_blank v then dflt else v))
  ∧ (∀ k name', name' ≠ name → at_get df' k name' = at_get df k name').
Proof.
  induction n as [|n IH]; intros i df df' Hfill; simpl in Hfill.
  - injection Hfill as <-. repeat split; try done.
    intros k v ->. by rewrite in_range_false by lia.
  - destruct (rows df !! i) as [row|] eqn:Hrow.
    + apply rbind_ok in Hfill as (v0 & Hv0 & Hfill).
      apply rbind_ok in Hfill as (df1 & Hdf1 & Hfill).
      destruct (IH _ _ _ Hfill) as (Hcols & Hlen & Hsame & Hother).
      assert (columns df1 = columns df ∧ length (rows df1) = length (rows df)
              ∧ (∀ k name', k ≠ i ∨ name' ≠ name →
                   at_get df1 k name' = at_get df k name')
              ∧ (∀ v, at_get df i name = Ok v →
                   at_get df1 i name = Ok (if is_blank v then dflt else v)))
        as (Hcols1 & Hlen1 & Hother1 & Hsame1).
      { destruct (is_blank v0) eqn:Hblank.
        - destruct (at_set_shape _ _ _ _ _ Hdf1) as [? ?].
          repeat split; try done.
          + intros k name' Hk. by eapply at_set_other.
          + intros v Hv. pose proof (at_set_same _ _ _ _ _ _ Hdf1 Hv) as ->.
            unfold at_get in Hv. rewrite Hrow in Hv.
            rewrite (row_get_of_item _ _ _ _ PNone Hv) in Hv0.
            injection Hv0 as ->. by rewrite Hblank.
        - injection Hdf1 as <-. repeat split; try done.
          intros v Hv. rewrite Hv.
          unfold at_get in Hv. rewrite Hrow in Hv.
          rewrite (row_get_of_item _ _ _ _ PNone Hv) in Hv0.
          injection Hv0 as ->. by rewrite Hblank. }
      split; [congruence|]. split; [congruence|]. split.
      * intros k v Hv. destruct (decide (k = i)) as [->|Hk].
        -- rewrite (Hsame _ _ (Hsame1 _ Hv)).
           rewrite (in_range_false (S i)) by lia.
           assert (in_range i (S n) i = true) as ->
             by (apply in_range_spec; lia).
           simpl. by destruct (is_blank v).
        -- rewrite <- (Hother1 k name (or_introl Hk)) in Hv.
           rewrite (Hsame _ _ Hv).
           by rewrite (in_range_eq (S i) n k i (S n)) by lia.
      * intros k name' Hname. rewrite (Hother _ _ Hname).
        apply Hother1. by right.
    + injection Hfill as <-. repeat split; try done.
      intros k v Hv. destruct (at_get_inv _ _ _ _ Hv) as (j & row & _ & Hk & _).
      apply lookup_lt_Some in Hk. apply lookup_ge_None in Hrow.
      rewrite in_range_false by lia. by rewrite Hv.
Qed.

Lemma at_get_has_column df k name v :
  at_get df k name = Ok v →
  has_column (columns df) name = true ∧ (k < length (rows df))%nat.
Proof.
  intros (j & row & Hj & Hk & _)%at_get_inv. split.
  - by eapply find_label_has_column.
  - by eapply lookup_lt_Some.
Qed.

Lemma in_range_all k n : (k < n)%nat → in_range 0 n k = true.
Proof.
  intros Hk. apply in_range_spec. lia.
Qed.

(** Step 2 replaces a target or weight cell exactly when it is blank. *)
Lemma apply_defaults_spec df df' :
  apply_defaults df = Ok df' →
  (∀ k v, at_get df k "target" = Ok v →
     at_get df' k "target" = Ok (if is_blank v then default_target else v))
  ∧ (∀ k v, at_get df k "weight" = Ok v →
       at_get df' k "weight" = Ok (if is_blank v then default_weight else v)).
Proof.
  unfold apply_defaults. intros Hd.
  apply rbind_ok in Hd as (df1 & Hdf1 & Hd).
  assert (columns df1 = columns df ∧ length (rows df1) = length (rows df)
          ∧ (∀ k v, at_get df k "target" = Ok v →
               at_get df1 k "target"
               = Ok (if is_blank v then default_target else v))
          ∧ (∀ k, at_get df1 k "weight" = at_get df k "weight"))
    as (Hcols1 & Hlen1 & Htarget1 & Hweight1).
  { destruct (has_column (columns df) "target") eqn:Hcol.
    - destruct (fill_blank_spec _ _ _ _ _ _ Hdf1) as (? & ? & Hs & Ho).
      repeat split; try done.
      + intros k v Hv. rewrite (Hs _ _ Hv).
        destruct (at_get_has_column _ _ _ _ Hv) as [_ Hk].
        by rewrite (in_range_all _ _ Hk).
      + intros k. by apply Ho.
    - injection Hdf1 as <-. repeat split; try done.
      intros k v Hv. destruct (at_get_has_column _ _ _ _ Hv). congruence. }
  destruct (has_column (columns df1) "weight") eqn:Hcol.
  - destruct (fill_blank_spec _ _ _ _ _ _ Hd) as (? & ? & Hs & Ho). split.
    + intros k v Hv. rewrite Ho by done. by apply Htarget1.
    + intros k v Hv. rewrite <- Hweight1 in Hv. rewrite (Hs _ _ Hv).
      destruct (at_get_has_column _ _ _ _ Hv) as [_ Hk].
      by rewrite (in_range_all _ _ Hk).
  - injection Hd as <-. split; [exact Htarget1|].
    intros k v Hv. rewrite <- Hweight1 in Hv.
    destruct (at_get_has_column _ _ _ _ Hv). congruence.
Qed.

(** ** Step 1: the overrides *)

Lemma override_cell_spec df i name v df' :
  override_cell df i name v = Ok df' →
  columns df' = columns df
  ∧ (∀ k, k ≠ i → rows df' !! k = rows df !! k)
  ∧ (∀ k name', k ≠ i ∨ name' ≠ name →
       at_get df' k name' = at_get df k name')
  ∧ (notna v = true → at_get df' i name = Ok v).
Proof.
  unfold override_cell. destruct (notna v).
  - intros Hset. apply rbind_ok in Hset as (old & Hold & Hset).
    destruct (at_set_shape _ _ _ _ _ Hset) as [Hcols _].
    repeat split; try done.
    + intros k Hk. by eapply at_set_rows_other.
    + intros k name' Hk. by eapply at_set_other.
    + intros _. by eapply at_set_same.
  - intros [= <-]. repeat split; done.
Qed.

Lemma override_row_frame maps hr df i df' :
  override_row maps hr df i = Ok df' →
  columns df' = columns df ∧ (∀ k, k ≠ i → rows df' !! k = rows df !! k).
Proof.
  unfold override_row. destruct (rows df !! i) as [row|]; [|done].
  intros Hrow. apply rbind_ok in Hrow as (mc & Hmc & Hrow).
  destruct (blank_group mc); [by injection Hrow as <-|].
  apply rbind_ok in Hrow as ([d|] & Hd & Hrow); [|by injection Hrow as <-].
  apply rbind_ok in Hrow as (df1 & Hdf1 & Hrow).
  destruct (override_cell_spec _ _ _ _ _ Hdf1) as (Hc1 & Hr1 & _).
  destruct (override_cell_spec _ _ _ _ _ Hrow) as (Hc2 & Hr2 & _).
  split; [congruence|]. intros k Hk. by rewrite Hr2, Hr1.
Qed.

Lemma override_row_hit maps hr df i df' row d :
  override_row maps hr df i = Ok df' →
  rows df !! i = Some row →
  matched_entry maps hr (columns df) row d →
  (notna (entry_target d) = true →
   at_get df' i "target" = Ok (entry_target d))
  ∧ (notna (entry_weight d) = true →
     at_get df' i "weight" = Ok (entry_weight d)).
Proof.
  unfold override_row. intros Hrow Hi (mc & Hmc & Hblank & Hd).
  rewrite Hi, Hmc in Hrow. simpl in Hrow. rewrite Hblank, Hd in Hrow.
  simpl in Hrow. apply rbind_ok in Hrow as (df1 & Hdf1 & Hrow).
  destruct (override_cell_spec _ _ _ _ _ Hdf1) as (_ & _ & _ & Hset1).
  destruct (override_cell_spec _ _ _ _ _ Hrow) as (_ & _ & Hother2 & Hset2).
  split; [|exact Hset2].
  intros Hpresent. rewrite Hother2; [by apply Hset1|by right].
Qed.

Lemma apply_overrides_frame maps hr : ∀ index df df',
  apply_overrides maps hr df index = Ok df' →
  columns df' = columns df
  ∧ (∀ k, k ∉ index → rows df' !! k = rows df !! k).
Proof.
  induction index as [|i index IH]; intros df df' Ha; simpl in Ha.
  - by injection Ha as <-.
  - apply rbind_ok in Ha as (df1 & Hdf1 & Ha).
    destruct (override_row_frame _ _ _ _ _ Hdf1) as [Hc1 Hr1].
    destruct (IH _ _ Ha) as [Hc Hr].
    split; [congruence|]. intros k [Hk Hin]%not_elem_of_cons.
    by rewrite Hr, Hr1.
Qed.

Lemma apply_overrides_hit maps hr : ∀ index df df' i row d,
  NoDup index → i ∈ index →
  apply_overrides maps hr df index = Ok df' →
  rows df !! i = Some row →
  matched_entry maps hr (columns df) row d →
  (notna (entry_target d) = true →
   at_get df' i "target" = Ok (entry_target d))
  ∧ (notna (entry_weight d) = true →
     at_get df' i "weight" = Ok (entry_weight d)).
Proof.
  induction index as [|i0 index IH]; intros df df' i row d Hnd Hin Ha Hi Hm.
  - by apply elem_of_nil in Hin.
  - simpl in Ha. apply rbind_ok in Ha as (df1 & Hdf1 & Ha).
    apply NoDup_cons in Hnd as [Hi0 Hnd].
    destruct (override_row_frame _ _ _ _ _ Hdf1) as [Hc1 Hr1].
    destruct (apply_overrides_frame _ _ _ _ _ Ha) as [Hc Hr].
    destruct (decide (i = i0)) as [->|Hne].
    + destruct (override_row_hit _ _ _ _ _ _ _ Hdf1 Hi Hm) as [Ht Hw].
      rewrite !(at_get_ext df1 df' i0) by (by auto). by split.
    + apply elem_of_cons in Hin as [|Hin]; [done|].
      eapply (IH df1 df' i row d); try done.
      * by rewrite Hr1.
      * by rewrite Hc1.
Qed.

Lemma masked_index_ge mask : ∀ i k, k ∈ masked_index i mask → (i ≤ k)%nat.
Proof.
  induction mask as [|b mask IH]; intros i k Hk; simpl in Hk.
  - by apply elem_of_nil in Hk.
  - destruct b.
    + apply elem_of_cons in Hk as [->|Hk]; [lia|]. apply IH in Hk. lia.
    + apply IH in Hk. lia.
Qed.

(** The rows that Step 1 visits are visited once. *)
Lemma masked_index_NoDup mask : ∀ i, NoDup (masked_index i mask).
Proof.
  induction mask as [|b mask IH]; intros i; simpl; [constructor|].
  destruct b; [|apply IH]. apply NoDup_cons. split; [|apply IH].
  intros Hin%masked_index_ge. lia.
Qed.

Lemma is_zero_present v :
  is_zero v = true → notna v = true ∧ is_blank v = false.
Proof. by destruct v as [| | |[| |]|]. Qed.

(** C4. After the overrides of Step 1 and the defaults of Step 2, a row
    whose target is still blank has target 50, a row whose weight is still
    blank has weight 1.0, a cell that is not blank is left as it is, and a
    row that the setup sheet gives the value 0 keeps that 0. *)
Theorem defaults_fill_only_blanks (maps : SetupMappings) (hr : bool)
    (df df1 df2 : DataFrame) (index : list nat) :
  apply_overrides maps hr df index = Ok df1 →
  apply_defaults df1 = Ok df2 →
  (∀ idx v, at_get df1 idx "target" = Ok v → is_blank v = true →
     at_get df2 idx "target" = Ok (PInt 50))
  ∧ (∀ idx v, at_get df1 idx "weight" = Ok v → is_blank v = true →
       at_get df2 idx "weight" = Ok (PFloat (FFin 1)))
  ∧ (∀ idx v, is_blank v = false →
       (at_get df1 idx "target" = Ok v → at_get df2 idx "target" = Ok v)
       ∧ (at_get df1 idx "weight" = Ok v → at_get df2 idx "weight" = Ok v))
  ∧ (∀ idx row d,
       NoDup index → idx ∈ index → rows df !! idx = Some row →
       matched_entry maps hr (columns df) row d →
       (is_zero (entry_target d) = true →
        at_get df2 idx "target" = Ok (entry_target d))
       ∧ (is_zero (entry_weight d) = true →
          at_get df2 idx "weight" = Ok (entry_weight d))).
Proof.
  intros Hover Hdef.
  destruct (apply_defaults_spec _ _ Hdef) as [Htarget Hweight].
  split; [|split; [|split]].
  - intros idx v Hv Hblank. by rewrite (Htarget _ _ Hv), Hblank.
  - intros idx v Hv Hblank. by rewrite (Hweight _ _ Hv), Hblank.
  - intros idx v Hblank. split; intros Hv.
    + by rewrite (Htarget _ _ Hv), Hblank.
    + by rewrite (Hweight _ _ Hv), Hblank.
  - intros idx row d Hnd Hin Hrow Hm.
    destruct (apply_overrides_hit _ _ _ _ _ _ _ _ Hnd Hin Hover Hrow Hm)
      as [Ht Hw].
    split; intros [Hpresent Hblank]%is_zero_present.
    + by rewrite (Htarget _ _ (Ht Hpresent)), Hblank.
    + by rewrite (Hweight _ _ (Hw Hpresent)), Hblank.
Qed.

(** A resolved export frame is the result of the two passes, the first one
    over the rows of the mask, each visited once. *)
Lemma resolve_with_setup_resolved setup_df export_df scorecard df2 :
  resolve_with_setup setup_df export_df scorecard = Ok (Resolved df2) →
  ∃ maps mask df1,
    metric_mask export_df scorecard = Ok mask
    ∧ NoDup (masked_index 0 mask)
    ∧ apply_overrides maps
        (negb (is_none (retailer_col (map_setup_columns (columns setup_df)))))
        export_df (masked_index 0 mask) = Ok df1
    ∧ apply_defaults df1 = Ok df2.
Proof.
  unfold resolve_with_setup.
  destruct (target_col _) as [tc|]; [|done].
  destruct (metric_col _) as [mc|]; [|done].
  destruct (weight_col _) as [wc|]; [|done].
  destruct (negb (all_truthy _)); [done|].
  intros Hres. apply rbind_ok in Hres as (maps & _ & Hres).
  destruct (negb (has_column (columns export_df) "measure_config")); [done|].
  apply rbind_ok in Hres as (mask & Hmask & Hres).
  apply rbind_ok in Hres as (df1 & Hdf1 & Hres).
  apply rbind_ok in Hres as (df2' & Hdf2 & Hres).
  injection Hres as <-.
  exists maps, mask, df1. repeat split; try done. apply masked_index_NoDup.
Qed.

End ResolutionProperties.

Example sample_resolution :
  @resolve_with_setup sample_float_repr sample_setup_frame
    sample_export_frame "Default"
  = Ok (Resolved sample_resolved_frame).
Proof. vm_compute. reflexivity. Qed.

Lemma defaults_fill_only_blanks_witness :
  at_get sample_resolved_frame 1 "target" = Ok (PInt 50)
  ∧ at_get sample_resolved_frame 1 "weight" = Ok (PFloat (FFin 1))
  ∧ at_get sample_resolved_frame 0 "target" = Ok (PInt 0).
Proof.
  destruct (@defaults_fill_only_blanks sample_float_repr
              sample_setup_mappings false sample_export_frame
              sample_overridden_frame sample_resolved_frame [0; 1]%nat
              eq_refl eq_refl)
    as (Htarget & Hweight & _ & Hzero).
  split; [|split].
  - apply (Htarget 1%nat (PFloat FNan)); reflexivity.
  - apply (Hweight 1%nat (PFloat FNan)); reflexivity.
  - refine (proj1 (Hzero 0%nat _ {| entry_target := PInt 0;
                                    entry_weight := PFloat (FFin 25) |}
                     _ _ eq_refl _) eq_refl).
    + apply NoDup_cons. split; [|apply NoDup_singleton].
      intros Hin. apply list_elem_of_singleton in Hin. discriminate Hin.
    + apply list_elem_of_here.
    + exists "In Stock %". repeat split; reflexivity.
Defined.


(** ** The column mappers *)

Section MapperProperties.
Context `{FR : FloatRepr}.

(** ** The setup-sheet column mapper, one column at a time *)

Lemma map_setup_column_target m col :
  target_col (map_setup_column m col) = target_col m
  ∨ (target_col (map_setup_column m col) = Some col
     ∧ contains "target" (lower col) = true
     ∧ contains "retailer" (lower col) = false).
Proof.
  unfold map_setup_column.
  destruct (contains "target" (lower col)) eqn:Ht;
    destruct (is_none (target_col m));
    destruct (contains "retailer" (lower col)) eqn:Hr; simpl;
    repeat (match goal with
            | |- context [if ?b then _ else _] => destruct b
            end; simpl); auto.
Qed.

Lemma map_setup_column_display m col :
  display_name_col (map_setup_column m col) = display_name_col m
  ∨ (display_name_col (map_setup_column m col) = Some col
     ∧ contains "display" (lower col) = true
     ∧ contains "name" (lower col) = true).
Proof.
  unfold map_setup_column.
  destruct (contains "display" (lower col)) eqn:Hd;
    destruct (contains "name" (lower col)) eqn:Hn; simpl;
    repeat (match goal with
            | |- context [if ?b then _ else _] => destruct b
            end; simpl); auto.
Qed.

Lemma map_setup_column_display_here m col :
  contains "display" (lower col) = true →
  contains "name" (lower col) = true →
  contains "target" (lower col) = false →
  display_name_col (map_setup_column m col) = Some col.
Proof. unfold map_setup_column. by intros -> -> ->. Qed.

Lemma map_setup_column_no_name m col :
  contains "name" (lower col) = false →
  metric_col (map_setup_column m col) = metric_col m
  ∧ display_name_col (map_setup_column m col) = display_name_col m.
Proof.
  unfold map_setup_column. intros ->. rewrite !andb_false_r. simpl.
  repeat (match goal with
          | |- context [if ?b then _ else _] => destruct b
          end; simpl); auto.
Qed.

Lemma map_setup_column_no_weight m col :
  contains "weight" (lower col) = false →
  weight_col (map_setup_column m col) = weight_col m.
Proof.
  unfold map_setup_column. intros ->. rewrite !andb_false_r. simpl.
  repeat (match goal with
          | |- context [if ?b then _ else _] => destruct b
          end; simpl); auto.
Qed.

(** A property of the map that every turn of the loop preserves holds at
    the end of the loop. *)
Lemma mapper_invariant (P : ColumnMap → Prop) (cols : list string) :
  (∀ m col, col ∈ cols → P m → P (map_setup_column m col)) →
  ∀ m, P m → P (fold_left map_setup_column cols m).
Proof.
  induction cols as [|c cols IH]; intros Hstep m Hm; [done|]. simpl.
  apply IH.
  - intros m' col Hcol. apply Hstep. by apply elem_of_cons; right.
  - apply Hstep; [|done]. apply list_elem_of_here.
Qed.

Lemma map_setup_columns_target cols :
  target_col (map_setup_columns cols)
  = target_col (fold_left map_setup_column cols no_columns).
Proof. unfold map_setup_columns. by destruct (truthy _). Qed.

Lemma map_setup_columns_weight cols :
  weight_col (map_setup_columns cols)
  = weight_col (fold_left map_setup_column cols no_columns).
Proof. unfold map_setup_columns. by destruct (truthy _). Qed.

Lemma contains_nonempty needle s :
  needle ≠ "" → contains needle s = true → nonempty s = true.
Proof. destruct s; [|done]. by destruct needle. Qed.

(** The target field never holds a column that names a retailer. *)
Lemma target_col_not_retailer cols c :
  target_col (map_setup_columns cols) = Some c →
  contains "target" (lower c) = true ∧ contains "retailer" (lower c) = false.
Proof.
  rewrite map_setup_columns_target.
  apply (mapper_invariant
           (fun m => target_col m = Some c →
                     contains "target" (lower c) = true
                     ∧ contains "retailer" (lower c) = false)); [|done].
  intros m col _ Hm.
  destruct (map_setup_column_target m col) as [->|(-> & Ht & Hr)]; [done|].
  by intros [= <-].
Qed.

Lemma display_name_col_tokens cols d :
  display_name_col (fold_left map_setup_column cols no_columns) = Some d →
  contains "display" (lower d) = true ∧ contains "name" (lower d) = true.
Proof.
  apply (mapper_invariant
           (fun m => display_name_col m = Some d →
                     contains "display" (lower d) = true
                     ∧ contains "name" (lower d) = true)); [|done].
  intros m col _ Hm.
  destruct (map_setup_column_display m col) as [->|(-> & Hd & Hn)]; [done|].
  by intros [= <-].
Qed.

Lemma display_name_col_found cols c :
  c ∈ cols →
  contains "display" (lower c) = true →
  contains "name" (lower c) = true →
  contains "target" (lower c) = false →
  is_none (display_name_col (fold_left map_setup_column cols no_columns))
  = false.
Proof.
  intros Hc Hd Hn Ht.
  apply list_elem_of_split in Hc as (l1 & l2 & ->).
  rewrite fold_left_app. simpl.
  apply (mapper_invariant (fun m => is_none (display_name_col m) = false)).
  - intros m col _ Hm.
    destruct (map_setup_column_display m col) as [->|(-> & _)]; done.
  - by rewrite map_setup_column_display_here.
Qed.

Lemma lower_nonempty s : nonempty (lower s) = nonempty s.
Proof. by destruct s. Qed.

(** ** The retailer-sheet column mapper *)

Lemma classify_retailer_target col :
  contains "retailer" (lower col) = true →
  contains "target" (lower col) = true →
  classify_retailer_column col = Some RetailerTarget.
Proof. unfold classify_retailer_column. by intros -> ->. Qed.

Lemma classify_retailer_target_inv col :
  classify_retailer_column col = Some RetailerTarget →
  contains "retailer" (lower col) = true
  ∧ contains "target" (lower col) = true.
Proof.
  unfold classify_retailer_column.
  destruct (contains "retailer" (lower col)),
    (contains "target" (lower col)), (contains "weight" (lower col)); done.
Qed.

Lemma map_retailer_column_keeps m col :
  holds_retailer_target m → holds_retailer_target (map_retailer_column m col).
Proof.
  intros (c & Hc & Hr & Ht). unfold map_retailer_column.
  destruct (classify_retailer_column col) as [[| |]|] eqn:Hcl;
    try (by exists c).
  apply classify_retailer_target_inv in Hcl as [? ?]. by exists col.
Qed.

Lemma retailer_target_col_found cols c :
  c ∈ cols →
  contains "retailer" (lower c) = true →
  contains "target" (lower c) = true →
  holds_retailer_target (map_retailer_columns cols).
Proof.
  intros Hc Hr Ht. unfold map_retailer_columns.
  apply list_elem_of_split in Hc as (l1 & l2 & ->).
  rewrite fold_left_app. simpl.
  generalize (fold_left map_retailer_column l1
                {| retailer_name_col := None; retailer_target_col := None;
                   retailer_weight_col := None |}).
  intros m0.
  assert (holds_retailer_target (map_retailer_column m0 c)) as Hm.
  { unfold map_retailer_column. rewrite (classify_retailer_target _ Hr Ht).
    by exists c. }
  revert Hm. generalize (map_retailer_column m0 c).
  induction l2 as [|col l2 IH]; intros m Hm; [done|]. simpl.
  apply IH. by apply map_retailer_column_keeps.
Qed.

Lemma map_setup_column_target_keeps m col t :
  target_col m = Some t → target_col (map_setup_column m col) = Some t.
Proof.
  intros Ht. destruct (map_setup_column_target m col) as [->|(_ & _ & _)];
    [done|].
  unfold map_setup_column. rewrite Ht. simpl. rewrite andb_false_r. simpl.
  repeat (match goal with
          | |- context [if ?b then _ else _] => destruct b
          end; simpl); done.
Qed.

Lemma fold_target_keeps cols : ∀ m t,
  target_col m = Some t →
  target_col (fold_left map_setup_column cols m) = Some t.
Proof.
  induction cols as [|col cols IH]; intros m t Ht; [done|]. simpl.
  apply IH. by apply map_setup_column_target_keeps.
Qed.

(** A Display Name header is taken as the target column or as the Display
    Name column. *)
Lemma map_setup_column_display_step m col :
  contains "display" (lower col) = true →
  contains "name" (lower col) = true →
  (target_col (map_setup_column m col) = Some col
   ∧ display_name_col (map_setup_column m col) = display_name_col m)
  ∨ display_name_col (map_setup_column m col) = Some col.
Proof.
  intros Hd Hn. unfold map_setup_column. rewrite Hd, Hn.
  destruct (contains "target" (lower col) && is_none (target_col m)
            && negb (contains "retailer" (lower col))); simpl; auto.
Qed.

Lemma display_name_col_last cols : ∀ m,
  (display_name_col (fold_left map_setup_column cols m) = display_name_col m
   ∧ ∀ c', c' ∈ cols → contains "display" (lower c') = true →
       contains "name" (lower c') = true →
       target_col (fold_left map_setup_column cols m) = Some c')
  ∨ ∃ d l1 l2, cols = l1 ++ d :: l2
      ∧ display_name_col (fold_left map_setup_column cols m) = Some d
      ∧ contains "display" (lower d) = true
      ∧ contains "name" (lower d) = true
      ∧ ∀ c', c' ∈ l2 → contains "display" (lower c') = true →
          contains "name" (lower c') = true →
          target_col (fold_left map_setup_column cols m) = Some c'.
Proof.
  induction cols as [|col cols IH]; intros m.
  { left. split; [done|]. intros c' Hc'. by apply elem_of_nil in Hc'. }
  simpl.
  destruct (IH (map_setup_column m col))
    as [[Hsame Hrest]|(d & l1 & l2 & -> & Hd & Hdd & Hdn & Hafter)].
  - destruct (contains "display" (lower col) && contains "name" (lower col))
      eqn:Htokens.
    + apply andb_true_iff in Htokens as [Hcd Hcn].
      destruct (map_setup_column_display_step m col Hcd Hcn)
        as [[Htarget Hdisplay]|Hdisplay].
      * left. split; [congruence|]. intros c' Hc' Hc'd Hc'n.
        apply elem_of_cons in Hc' as [->|Hc']; [|by apply Hrest].
        by apply fold_target_keeps.
      * right. exists col, [], cols. repeat split; try done. congruence.
    + left. split.
      * rewrite Hsame.
        destruct (map_setup_column_display m col) as [->|(_ & Hcd & Hcn)];
          [done|].
        by rewrite Hcd, Hcn in Htokens.
      * intros c' Hc' Hc'd Hc'n.
        apply elem_of_cons in Hc' as [->|Hc']; [|by apply Hrest].
        by rewrite Hc'd, Hc'n in Htokens.
  - right. exists d, (col :: l1), l2. by repeat split.
Qed.

(** C8, as the code has it. A column whose header contains both "retailer" and
    "target" is never taken as the generic target column; the
    retailer-sheet mapper classifies it as the retailer-target column.  When
    the header row has a Display Name column that is not the column taken
    as the target, the column used for matching the metrics is a Display
    Name column of the sheet, the last one that was not taken as the target,
    whatever Metric Name or Measure Name columns there are; a Display Name
    header without "target" is never taken as the target. *)
Theorem column_mapper_priorities (cols : list string) (c : string) :
  (contains "retailer" (lower c) = true →
   contains "target" (lower c) = true →
   target_col (map_setup_columns cols) ≠ Some c
   ∧ classify_retailer_column c = Some RetailerTarget
   ∧ (c ∈ cols → holds_retailer_target (map_retailer_columns cols)))
  ∧ (c ∈ cols →
     contains "display" (lower c) = true →
     contains "name" (lower c) = true →
     target_col (map_setup_columns cols) ≠ Some c →
     ∃ d l1 l2, cols = l1 ++ d :: l2
       ∧ metric_col (map_setup_columns cols) = Some d
       ∧ display_name_col (map_setup_columns cols) = Some d
       ∧ contains "display" (lower d) = true
       ∧ contains "name" (lower d) = true
       ∧ ∀ c', c' ∈ l2 → contains "display" (lower c') = true →
           contains "name" (lower c') = true →
           target_col (map_setup_columns cols) = Some c')
  ∧ (contains "target" (lower c) = false →
     target_col (map_setup_columns cols) ≠ Some c).
Proof.
  split; [|split].
  - intros Hr Ht. split; [|split].
    + intros Hc. apply target_col_not_retailer in Hc as [_ Hc]. congruence.
    + by apply classify_retailer_target.
    + intros Hc. by eapply retailer_target_col_found.
  - intros Hc Hd Hn Hnot. rewrite map_setup_columns_target in *.
    destruct (display_name_col_last cols no_columns)
      as [[_ Hall]|(d & l1 & l2 & Hsplit & Hdisp & Hdd & Hdn & Hafter)].
    { by destruct Hnot; apply Hall. }
    exists d, l1, l2. unfold map_setup_columns. rewrite Hdisp.
    assert (truthy (Some d) = true) as ->.
    { simpl. rewrite <- lower_nonempty.
      by apply (contains_nonempty "display"). }
    by repeat split.
  - intros Ht Hc. apply target_col_not_retailer in Hc as [Hc _]. congruence.
Qed.

(** ** Required columns *)

Lemma no_target_label cols :
  (∀ c, c ∈ cols → contains "target" (lower c) = false) →
  target_col (map_setup_columns cols) = None.
Proof.
  intros Hno. rewrite map_setup_columns_target.
  apply (mapper_invariant (fun m => target_col m = None)); [|done].
  intros m col Hcol Hm.
  destruct (map_setup_column_target m col) as [->|(_ & Ht & _)]; [done|].
  rewrite (Hno _ Hcol) in Ht. discriminate Ht.
Qed.

Lemma no_name_label cols :
  (∀ c, c ∈ cols → contains "name" (lower c) = false) →
  metric_col (map_setup_columns cols) = None.
Proof.
  intros Hno.
  assert (metric_col (fold_left map_setup_column cols no_columns) = None
          ∧ display_name_col (fold_left map_setup_column cols no_columns)
            = None) as [Hm Hd].
  { apply (mapper_invariant
             (fun m => metric_col m = None ∧ display_name_col m = None));
      [|done].
    intros m col Hcol [Hm Hd].
    destruct (map_setup_column_no_name m col (Hno _ Hcol)) as [-> ->].
    done. }
  unfold map_setup_columns. by rewrite Hd.
Qed.

Lemma no_weight_label cols :
  (∀ c, c ∈ cols → contains "weight" (lower c) = false) →
  weight_col (map_setup_columns cols) = None.
Proof.
  intros Hno. rewrite map_setup_columns_weight.
  apply (mapper_invariant (fun m => weight_col m = None)); [|done].
  intros m col Hcol Hm.
  by rewrite (map_setup_column_no_weight m col (Hno _ Hcol)).
Qed.

Lemma resolve_without_required setup_df export_df scorecard :
  unlocated (map_setup_columns (columns setup_df)) →
  resolve_with_setup setup_df export_df scorecard
  = Ok (Failed (RequiredColumnsNotFound (columns setup_df))).
Proof.
  unfold unlocated, resolve_with_setup.
  destruct (target_col _), (metric_col _), (weight_col _);
    try done; intros [|[|]]; done.
Qed.

(** C6. When the setup sheet has been read (the header row taken lies in
    the rows inspected) and no target column, no
    metric or display name column, or no weight column is located in it,
    [process_weights_targets_file] fails for the whole file (it returns
    [False], nothing is resolved) and its diagnostic carries the column
    names found in the sheet.  A sheet none of whose labels contains
    "target" has no target column, one without "name" no metric column, one
    without "weight" no weight column. *)
Theorem missing_required_columns_fail (inp : phase2_input)
    (export_df0 setup_df0 setup_df : DataFrame)
    (temp_df : list (list pyval)) :
  export_exists inp = true →
  setup_exists inp = true →
  read_export inp = Ok export_df0 →
  read_grid (setup_sheet inp) max_rows_to_check = Ok temp_df →
  is_Some (temp_df !! detect_header_row temp_df) →
  read_table (setup_sheet inp) (detect_header_row temp_df) = Ok setup_df0 →
  filter_setup_rows (strip_columns setup_df0) = Ok setup_df →
  unlocated (map_setup_columns (columns setup_df))
  ∨ (∀ c, c ∈ columns setup_df → contains "target" (lower c) = false)
  ∨ (∀ c, c ∈ columns setup_df → contains "name" (lower c) = false)
  ∨ (∀ c, c ∈ columns setup_df → contains "weight" (lower c) = false) →
  process_weights_targets_file inp
  = Failed (RequiredColumnsNotFound (columns setup_df))
  ∧ columns setup_df = map strip (columns setup_df0).
Proof.
  intros Hexp Hset Hread Hgrid [shown Hshown] Htable Hfilter Hmissing.
  assert (unlocated (map_setup_columns (columns setup_df))) as Hun.
  { unfold unlocated.
    destruct Hmissing as [Hun|[Hno|[Hno|Hno]]]; [done|..].
    - left. by apply no_target_label.
    - right; left. by apply no_name_label.
    - right; right. by apply no_weight_label. }
  split.
  - unfold process_weights_targets_file, phase2_body.
    rewrite Hexp, Hset, Hread. simpl. rewrite Hgrid. simpl.
    unfold grid_iloc. rewrite Hshown. simpl.
    rewrite Htable. simpl. rewrite Hfilter. simpl.
    by rewrite (resolve_without_required _ _ _ Hun).
  - unfold filter_setup_rows in Hfilter.
    destruct (has_column _ _); [|by injection Hfilter as <-].
    apply rbind_ok in Hfilter as (cells & _ & Hfilter).
    by injection Hfilter as <-.
Qed.

End MapperProperties.

Lemma missing_required_columns_fail_witness :
  @process_weights_targets_file sample_float_repr no_weight_input
  = Failed (RequiredColumnsNotFound ["Display Name"; "Target"; "Notes"]).
Proof.
  refine (proj1 (@missing_required_columns_fail sample_float_repr
                   no_weight_input sample_export_frame no_weight_frame
                   {| columns := ["Display Name"; "Target"; "Notes"];
                      rows := rows no_weight_frame |} no_weight_grid
                   eq_refl eq_refl eq_refl eq_refl _ eq_refl eq_refl _)).
  { by eexists. }
  right; right; right. intros c Hc.
  repeat (apply elem_of_cons in Hc as [->|Hc]; [reflexivity|]).
  by apply elem_of_nil in Hc.
Defined.

Lemma column_mapper_priorities_witness :
  (target_col (map_setup_columns sample_setup_header) ≠ Some "Retailer Target"
   ∧ classify_retailer_column "Retailer Target" = Some RetailerTarget
   ∧ ("Retailer Target" ∈ sample_setup_header →
      holds_retailer_target (map_retailer_columns sample_setup_header)))
  ∧ ∃ d l1 l2, sample_setup_header = l1 ++ d :: l2
      ∧ metric_col (map_setup_columns sample_setup_header) = Some d
      ∧ display_name_col (map_setup_columns sample_setup_header) = Some d
      ∧ contains "display" (lower d) = true
      ∧ contains "name" (lower d) = true
      ∧ ∀ c', c' ∈ l2 → contains "display" (lower c') = true →
          contains "name" (lower c') = true →
          target_col (map_setup_columns sample_setup_header) = Some c'.
Proof.
  split.
  - apply (proj1 (column_mapper_priorities sample_setup_header
                    "Retailer Target")); reflexivity.
  - apply (proj1 (proj2 (column_mapper_priorities sample_setup_header
                           "Display Name"))); try reflexivity.
    + do 3 apply list_elem_of_further. apply list_elem_of_here.
    + discriminate.
Defined.

(** C8 as stated fails: a Display Name header that also names the target,
    standing before any other target column, is taken as the target column,
    and the metrics are then matched on the Metric Name column. *)
Lemma display_name_header_taken_as_target :
  ¬ display_name_preferred display_target_header.
Proof.
  intros Hpreferred.
  destruct Hpreferred as (d & _ & Hd & Hmetric).
  - exists "Display Name of Target Metric".
    split; [apply list_elem_of_here|reflexivity].
  - exists "Metric Name".
    split; [apply list_elem_of_further, list_elem_of_here|reflexivity].
  - assert (metric_col (map_setup_columns display_target_header)
            = Some "Metric Name") as Hcode by reflexivity.
    rewrite Hcode in Hmetric. injection Hmetric as <-. discriminate Hd.
Qed.

Example sample_setup_header_map :
  map_setup_columns sample_setup_header
  = {| target_col := Some "Target"; metric_col := Some "Display Name";
       display_name_col := Some "Display Name";
       weight_col := Some "Metric Weight"; retailer_col := Some "Retailer" |}.
Proof. reflexivity. Qed.

Lemma str_eqb_eq s t : str_eqb s t = true ↔ s = t.
Proof. unfold str_eqb. apply bool_decide_eq_true. Qed.

Lemma str_eqb_refl s : str_eqb s s = true.
Proof. by apply str_eqb_eq. Qed.

Lemma str_eqb_neq s t : str_eqb s t = false ↔ s ≠ t.
Proof. unfold str_eqb. apply bool_decide_eq_false. Qed.

Lemma group_seen_elem seen g : group_seen seen g = true ↔ g ∈ seen.
Proof.
  unfold group_seen. rewrite existsb_exists. split.
  - intros (x & Hx & Heq). apply str_eqb_eq in Heq as ->.
    by apply list_elem_of_In.
  - intros Hg. exists g. split; [by apply list_elem_of_In|apply str_eqb_refl].
Qed.

Lemma filter_not_elem (l : list string) x :
  x ∉ l → List.filter (fun y => negb (str_eqb y x)) l = l.
Proof.
  induction l as [|y l IH]; [done|]. intros [Hne Hl]%not_elem_of_cons.
  simpl. assert (str_eqb y x = false) as -> by (apply str_eqb_neq; congruence).
  simpl. by rewrite IH.
Qed.

Lemma first_occurrences_elem l x : x ∈ first_occurrences l ↔ x ∈ l.
Proof.
  induction l as [|y l IH]; [done|]. simpl.
  rewrite !elem_of_cons, <- IH, list_elem_of_In, filter_In,
    <- list_elem_of_In, negb_true_iff, str_eqb_neq.
  destruct (decide (x = y)); tauto.
Qed.

Lemma first_occurrences_NoDup l : NoDup (first_occurrences l).
Proof.
  induction l as [|x l IH]; [constructor|]. simpl. apply NoDup_cons. split.
  - rewrite list_elem_of_In, filter_In. intros [_ Hx].
    by rewrite str_eqb_refl in Hx.
  - apply NoDup_ListNoDup, List.NoDup_filter, NoDup_ListNoDup, IH.
Qed.

Lemma first_occurrences_snoc l x :
  first_occurrences (l ++ [x])
  = if group_seen (first_occurrences l) x then first_occurrences l
    else first_occurrences l ++ [x].
Proof.
  induction l as [|y l IH]; [done|]. simpl. rewrite IH.
  destruct (group_seen (first_occurrences l) x) eqn:Hseen.
  - destruct (str_eqb x y) eqn:Hxy; simpl; [done|].
    assert (group_seen
              (List.filter (fun y0 => negb (str_eqb y0 y)) (first_occurrences l))
              x = true) as ->; [|done].
    apply group_seen_elem. apply group_seen_elem in Hseen.
    rewrite list_elem_of_In, filter_In, <- list_elem_of_In. by rewrite Hxy.
  - destruct (str_eqb x y) eqn:Hxy; simpl.
    + apply str_eqb_eq in Hxy as ->. rewrite List.filter_app. simpl.
      rewrite str_eqb_refl. simpl. by rewrite app_nil_r.
    + assert (group_seen
                (List.filter (fun y0 => negb (str_eqb y0 y))
                   (first_occurrences l)) x = false) as ->.
      { apply not_true_iff_false. rewrite group_seen_elem.
        apply not_true_iff_false in Hseen. rewrite group_seen_elem in Hseen.
        rewrite list_elem_of_In, filter_In, <- list_elem_of_In. tauto. }
      rewrite List.filter_app. simpl. by rewrite Hxy.
Qed.

Lemma distinct_groups_loop_spec data : ∀ done,
  distinct_groups_loop (first_occurrences (map measure_group done))
    (first_occurrences (map measure_group done)) data
  = first_occurrences (map measure_group (done ++ data)).
Proof.
  induction data as [|item data IH]; intros done; simpl.
  - by rewrite app_nil_r.
  - replace (done ++ item :: data) with ((done ++ [item]) ++ data)
      by (by rewrite <- app_assoc).
    rewrite <- IH, map_app. simpl map. rewrite first_occurrences_snoc.
    by destruct (group_seen _ _).
Qed.

(** X1. [get_distinct_measure_groups] returns the measure groups of the
    records without repetition, each at the place of its first occurrence:
    a name is in the result exactly when a record carries it. *)
Theorem distinct_measure_groups_first_occurrences
    (excel_data : list MeasureRecord) :
  get_distinct_measure_groups excel_data
  = first_occurrences (map measure_group excel_data)
  ∧ NoDup (get_distinct_measure_groups excel_data)
  ∧ ∀ g, g ∈ get_distinct_measure_groups excel_data
         ↔ ∃ item, item ∈ excel_data ∧ measure_group item = g.
Proof.
  assert (get_distinct_measure_groups excel_data
          = first_occurrences (map measure_group excel_data)) as Heq.
  { exact (distinct_groups_loop_spec excel_data []). }
  rewrite Heq. split; [done|]. split; [apply first_occurrences_NoDup|].
  intros g. rewrite first_occurrences_elem, list_elem_of_fmap. split.
  - intros (item & -> & Hitem). by exists item.
  - intros (item & Hitem & <-). by exists item.
Qed.

(** ** The grouping of the records *)

Lemma distinct_groups_elem data g :
  g ∈ get_distinct_measure_groups data
  ↔ ∃ item, item ∈ data ∧ measure_group item = g.
Proof.
  pose proof (distinct_groups_loop_spec data []) as Hs. simpl in Hs.
  unfold get_distinct_measure_groups. rewrite Hs.
  rewrite first_occurrences_elem, list_elem_of_fmap. split.
  - intros (item & -> & Hitem). by exists item.
  - intros (item & Hitem & <-). by exists item.
Qed.

Lemma group_item_lookup m item g :
  group_item m item !! g
  = if in_group g item then Some (default [] (m !! g) ++ [item]) else m !! g.
Proof.
  unfold group_item, in_group. destruct (str_eqb _ g) eqn:Hg.
  - apply str_eqb_eq in Hg as ->. by rewrite lookup_insert_eq.
  - apply str_eqb_neq in Hg. by rewrite lookup_insert_ne.
Qed.

Lemma fold_group_item_lookup data g : ∀ m,
  fold_left group_item data m !! g
  = match m !! g, List.filter (in_group g) data with
    | None, [] => None
    | o, l => Some (default [] o ++ l)
    end.
Proof.
  induction data as [|item data IH]; intros m; simpl.
  - destruct (m !! g); [by rewrite app_nil_r|done].
  - rewrite IH, group_item_lookup. destruct (in_group g item); [|done].
    destruct (m !! g), (List.filter (in_group g) data); simpl;
      rewrite <- ?app_assoc; done.
Qed.

(** X2. The grouping that [run_automation] builds maps every measure group
    returned by [get_distinct_measure_groups] to the records of that group,
    in the order of the file, and has no other key: the lookup
    [grouped_data[group_name]] of the loop over the groups cannot fail. *)
Theorem grouped_data_lookup (excel_data : list MeasureRecord) (g : string) :
  group_excel_data excel_data !! g
  = if bool_decide (g ∈ get_distinct_measure_groups excel_data)
    then Some (List.filter (in_group g) excel_data) else None.
Proof.
  unfold group_excel_data. rewrite fold_group_item_lookup, lookup_empty.
  case_bool_decide as Hg.
  - apply distinct_groups_elem in Hg as (item & Hitem & Hgroup).
    destruct (List.filter (in_group g) excel_data) eqn:Hf; [|done].
    assert (In item (List.filter (in_group g) excel_data)) as Hin.
    { apply filter_In. split; [by apply list_elem_of_In|].
      by apply str_eqb_eq. }
    by rewrite Hf in Hin.
  - destruct (List.filter (in_group g) excel_data) as [|item l] eqn:Hf;
      [done|].
    exfalso. apply Hg. apply distinct_groups_elem.
    assert (In item (List.filter (in_group g) excel_data)) as Hin
      by (rewrite Hf; by left).
    apply filter_In in Hin as [Hin Hgroup]. exists item.
    split; [by apply list_elem_of_In|by apply str_eqb_eq].
Qed.

(** ** The order of the configs *)

Section SortByKey.
Context {A : Type} (key : A → Z).

Lemma insert_by_key_perm x l : insert_by_key key x l ≡ₚ x :: l.
Proof.
  induction l as [|y l IH]; [done|]. simpl.
  destruct (key x <=? key y); [done|]. rewrite IH. apply Permutation_swap.
Qed.

Lemma sorted_by_key_perm l : sorted_by_key key l ≡ₚ l.
Proof.
  induction l as [|x l IH]; [done|]. simpl.
  by rewrite insert_by_key_perm, IH.
Qed.

Lemma insert_by_key_sorted x l :
  StronglySorted (fun a b => key a ≤ key b) l →
  StronglySorted (fun a b => key a ≤ key b) (insert_by_key key x l).
Proof.
  induction l as [|y l IH]; intros Hs; simpl.
  - repeat constructor.
  - apply StronglySorted_inv in Hs as [Hl Hy].
    destruct (key x <=? key y) eqn:Hxy.
    + apply Z.leb_le in Hxy. constructor; [by constructor|].
      constructor; [done|]. eapply Forall_impl; [exact Hy|].
      intros z Hz. simpl in Hz. lia.
    + apply Z.leb_gt in Hxy. constructor; [by apply IH|].
      rewrite insert_by_key_perm. constructor; [lia|done].
Qed.

Lemma sorted_by_key_sorted l :
  StronglySorted (fun a b => key a ≤ key b) (sorted_by_key key l).
Proof.
  induction l as [|x l IH]; [constructor|]. simpl.
  by apply insert_by_key_sorted.
Qed.

Lemma insert_by_key_stable k x l :
  List.filter (fun a => key a =? k) (insert_by_key key x l)
  = List.filter (fun a => key a =? k) (x :: l).
Proof.
  induction l as [|y l IH]; [done|]. simpl.
  destruct (key x <=? key y) eqn:Hxy; [done|]. apply Z.leb_gt in Hxy.
  simpl. rewrite IH. simpl.
  destruct (key x =? k) eqn:Hx, (key y =? k) eqn:Hy; try done.
  apply Z.eqb_eq in Hx, Hy. lia.
Qed.

Lemma sorted_by_key_stable k l :
  List.filter (fun a => key a =? k) (sorted_by_key key l)
  = List.filter (fun a => key a =? k) l.
Proof.
  induction l as [|x l IH]; [done|]. simpl.
  rewrite insert_by_key_stable. simpl. by rewrite IH.
Qed.

End SortByKey.

(** X3. The configs of a group are created in a rearrangement of the
    group's records that keeps the records of equal order in the order of
    the file; when the first record carries an order the rearrangement is
    ascending in the order (999 for a record without one), and otherwise the
    list is left as it is. *)
Theorem order_configs_sorted (configs : list MeasureRecord) :
  order_configs configs ≡ₚ configs
  ∧ (∀ k, List.filter (fun x => order_key x =? k) (order_configs configs)
          = List.filter (fun x => order_key x =? k) configs)
  ∧ (∀ first rest, configs = first :: rest →
       (is_Some (order first) →
        StronglySorted (fun a b => order_key a ≤ order_key b)
          (order_configs configs))
       ∧ (order first = None → order_configs configs = configs)).
Proof.
  unfold order_configs. destruct configs as [|first rest].
  - split; [done|]. split; [done|]. intros ? ? [=].
  - case_bool_decide as Ho.
    + split; [apply sorted_by_key_perm|].
      split; [intros k; apply sorted_by_key_stable|].
      intros ? ? [= <- <-]. split.
      * intros _. apply sorted_by_key_sorted.
      * intros Hn. rewrite Hn in Ho. by destruct Ho.
    + split; [done|]. split; [done|].
      intros ? ? [= <- <-]. split; [|done]. intros Hsome. by destruct Ho.
Qed.

(** ** The config names of [get_measure_configs] *)

Lemma valid_config_names_snoc l item :
  valid_config_names (l ++ [item])
  = valid_config_names l
    ++ (if valid_config_name (config_name_of item)
        then [config_name_of item] else []).
Proof.
  unfold valid_config_names. rewrite map_app, List.filter_app. simpl.
  by destruct (valid_config_name _).
Qed.

Lemma config_names_loop_spec data : ∀ done,
  config_names_loop (first_occurrences (valid_config_names done))
    (first_occurrences (valid_config_names done)) data
  = first_occurrences (valid_config_names (done ++ data)).
Proof.
  induction data as [|item data IH]; intros done; simpl.
  - by rewrite app_nil_r.
  - replace (done ++ item :: data) with ((done ++ [item]) ++ data)
      by (by rewrite <- app_assoc).
    rewrite <- IH, valid_config_names_snoc.
    fold (config_name_of item). unfold valid_config_name.
    destruct (nonempty (config_name_of item)) eqn:Hne; simpl.
    2:{ by rewrite app_nil_r. }
    destruct (str_eqb (config_name_of item) "nan") eqn:Hnan; simpl.
    { rewrite andb_false_r. by rewrite app_nil_r. }
    rewrite andb_true_r, first_occurrences_snoc.
    by destruct (group_seen _ _).
Qed.

(** X4. The config names that [get_measure_configs] returns are the trimmed
    display names of the records that are neither empty nor "nan", each
    once, in ascending order. *)
Theorem measure_config_names_sorted (excel_data : list MeasureRecord) :
  StronglySorted String.le (measure_config_names excel_data)
  ∧ NoDup (measure_config_names excel_data)
  ∧ ∀ name, name ∈ measure_config_names excel_data
            ↔ valid_config_name name = true
              ∧ ∃ item, item ∈ excel_data ∧ config_name_of item = name.
Proof.
  unfold measure_config_names.
  pose proof (config_names_loop_spec excel_data []) as Hloop.
  simpl in Hloop. change (valid_config_names []) with (@nil string) in Hloop.
  simpl in Hloop. rewrite Hloop. clear Hloop.
  split; [apply StronglySorted_merge_sort; apply _|]. split.
  - rewrite merge_sort_Permutation. apply first_occurrences_NoDup.
  - intros name. rewrite merge_sort_Permutation, first_occurrences_elem.
    unfold valid_config_names.
    rewrite list_elem_of_In, filter_In, <- list_elem_of_In,
      list_elem_of_fmap.
    split.
    + intros [(item & -> & Hitem) Hvalid]. split; [done|]. by exists item.
    + intros [Hvalid (item & Hitem & <-)]. split; [by exists item|done].
Qed.

Section MoreResolution.
Context `{FR : FloatRepr}.

(** ** What the two passes leave alone *)

Lemma override_row_cells maps hr df i df' :
  override_row maps hr df i = Ok df' →
  length (rows df') = length (rows df)
  ∧ ∀ k name, k ≠ i ∨ (name ≠ "target" ∧ name ≠ "weight") →
      at_get df' k name = at_get df k name.
Proof.
  unfold override_row. destruct (rows df !! i) as [row|]; [|done].
  intros Hrow. apply rbind_ok in Hrow as (mc & Hmc & Hrow).
  destruct (blank_group mc); [by injection Hrow as <-|].
  apply rbind_ok in Hrow as ([d|] & Hd & Hrow); [|by injection Hrow as <-].
  apply rbind_ok in Hrow as (df1 & Hdf1 & Hrow).
  assert (∀ dfa dfb name v, override_cell dfa i name v = Ok dfb →
            length (rows dfb) = length (rows dfa)) as Hlen.
  { intros dfa dfb name v. unfold override_cell.
    destruct (notna v); [|by intros [= <-]].
    intros Hset. apply rbind_ok in Hset as (old & _ & Hset).
    by destruct (at_set_shape _ _ _ _ _ Hset). }
  destruct (override_cell_spec _ _ _ _ _ Hdf1) as (_ & _ & Ho1 & _).
  destruct (override_cell_spec _ _ _ _ _ Hrow) as (_ & _ & Ho2 & _).
  split; [rewrite (Hlen _ _ _ _ Hrow); by apply (Hlen _ _ _ _ Hdf1)|].
  intros k name Hk. rewrite Ho2, Ho1; [done|..]; tauto.
Qed.

Lemma apply_overrides_cells maps hr : ∀ index df df',
  apply_overrides maps hr df index = Ok df' →
  length (rows df') = length (rows df)
  ∧ ∀ k name, k ∉ index ∨ (name ≠ "target" ∧ name ≠ "weight") →
      at_get df' k name = at_get df k name.
Proof.
  induction index as [|i index IH]; intros df df' Ha; simpl in Ha.
  - by injection Ha as <-.
  - apply rbind_ok in Ha as (df1 & Hdf1 & Ha).
    destruct (override_row_cells _ _ _ _ _ Hdf1) as [Hl1 Hc1].
    destruct (IH _ _ Ha) as [Hl Hc].
    split; [congruence|]. intros k name Hk.
    rewrite Hc, Hc1; [done|..].
    + destruct Hk as [Hk|Hk]; [left|by right].
      intros ->. apply Hk, list_elem_of_here.
    + destruct Hk as [Hk|Hk]; [left|by right].
      intros Hin. apply Hk. by apply list_elem_of_further.
Qed.

Lemma fill_blank_shape name dflt n i df df' :
  fill_blank name dflt n i df = Ok df' →
  columns df' = columns df ∧ length (rows df') = length (rows df).
Proof.
  intros Hf. destruct (fill_blank_spec _ _ _ _ _ _ Hf) as (? & ? & _). done.
Qed.

Lemma apply_defaults_cells df df' :
  apply_defaults df = Ok df' →
  columns df' = columns df
  ∧ length (rows df') = length (rows df)
  ∧ ∀ k name, name ≠ "target" → name ≠ "weight" →
      at_get df' k name = at_get df k name.
Proof.
  unfold apply_defaults. intros Hd.
  apply rbind_ok in Hd as (df1 & Hdf1 & Hd).
  assert (columns df1 = columns df ∧ length (rows df1) = length (rows df)
          ∧ ∀ k name, name ≠ "target" →
              at_get df1 k name = at_get df k name) as (Hc1 & Hl1 & Ho1).
  { destruct (has_column (columns df) "target").
    - destruct (fill_blank_spec _ _ _ _ _ _ Hdf1) as (? & ? & _ & Ho).
      split; [done|]. split; [done|]. intros k name Hn. by apply Ho.
    - by injection Hdf1 as <-. }
  destruct (has_column (columns df1) "weight").
  - destruct (fill_blank_spec _ _ _ _ _ _ Hd) as (? & ? & _ & Ho).
    split; [congruence|]. split; [congruence|].
    intros k name Ht Hw. rewrite Ho by done. by apply Ho1.
  - injection Hd as <-. split; [done|]. split; [done|].
    intros k name Ht _. by apply Ho1.
Qed.

Lemma masked_index_lookup mask : ∀ base j,
  j ∈ masked_index base mask →
  ∃ i, j = (base + i)%nat ∧ mask !! i = Some true.
Proof.
  induction mask as [|b mask IH]; intros base j Hj; simpl in Hj.
  - by apply elem_of_nil in Hj.
  - destruct b.
    + apply elem_of_cons in Hj as [->|Hj].
      * exists 0%nat. split; [lia|done].
      * destruct (IH _ _ Hj) as (i & -> & Hi). exists (S i).
        split; [lia|done].
    + destruct (IH _ _ Hj) as (i & -> & Hi). exists (S i).
      split; [lia|done].
Qed.

(** X5. The frame that the two passes hand on has the columns and the number
    of rows of the export frame; no cell outside the target and weight
    columns is changed; and a row that the metric filter does not select
    only has its blank target and weight replaced by the defaults. *)
Theorem resolved_frame_shape (setup_df export_df df2 : DataFrame)
    (scorecard : string) :
  resolve_with_setup setup_df export_df scorecard = Ok (Resolved df2) →
  columns df2 = columns export_df
  ∧ length (rows df2) = length (rows export_df)
  ∧ (∀ k name, name ≠ "target" → name ≠ "weight" →
       at_get df2 k name = at_get export_df k name)
  ∧ ∃ mask,
      metric_mask export_df scorecard = Ok mask
      ∧ ∀ k v, mask !! k = Some false →
          (at_get export_df k "target" = Ok v →
           at_get df2 k "target"
           = Ok (if is_blank v then PInt 50 else v))
          ∧ (at_get export_df k "weight" = Ok v →
             at_get df2 k "weight"
             = Ok (if is_blank v then PFloat (FFin 1) else v)).
Proof.
  intros Hres.
  destruct (resolve_with_setup_resolved _ _ _ _ Hres)
    as (maps & mask & df1 & Hmask & _ & Hover & Hdef).
  destruct (apply_overrides_frame _ _ _ _ _ Hover) as [Hc1 _].
  destruct (apply_overrides_cells _ _ _ _ _ Hover) as [Hl1 Ho1].
  destruct (apply_defaults_cells _ _ Hdef) as (Hc2 & Hl2 & Ho2).
  destruct (apply_defaults_spec _ _ Hdef) as [Ht Hw].
  split; [congruence|]. split; [congruence|]. split.
  - intros k name Hnt Hnw. rewrite Ho2 by done. apply Ho1. by right.
  - exists mask. split; [done|]. intros k v Hk.
    assert (k ∉ masked_index 0 mask) as Hnot.
    { intros (i & -> & Hi)%masked_index_lookup. simpl in Hk. congruence. }
    split; intros Hv.
    + rewrite <- (Ho1 k "target" (or_introl Hnot)) in Hv.
      by rewrite (Ht _ _ Hv).
    + rewrite <- (Ho1 k "weight" (or_introl Hnot)) in Hv.
      by rewrite (Hw _ _ Hv).
Qed.

(** ** The setup mapping *)

Lemma build_setup_mappings_app cols tc mc wc rc : ∀ rs1 rs2 maps,
  build_setup_mappings cols tc mc wc rc maps (rs1 ++ rs2)
  = rbind (build_setup_mappings cols tc mc wc rc maps rs1)
      (fun maps1 => build_setup_mappings cols tc mc wc rc maps1 rs2).
Proof.
  induction rs1 as [|row rs1 IH]; intros rs2 maps; [done|]. simpl.
  destruct (add_setup_row cols tc mc wc rc maps row); [apply IH|done].
Qed.

(** The entry that a setup row stands for. *)
Lemma add_setup_row_metric cols tc mc wc maps row maps' :
  add_setup_row cols tc mc wc None maps row = Ok maps' →
  ∃ name t w,
    cell_text cols row mc = Ok name
    ∧ row_item cols row tc = Ok t ∧ row_item cols row wc = Ok w
    ∧ setup_mapping_all maps' = setup_mapping_all maps
    ∧ setup_mapping maps'
      = if blank_group name then setup_mapping maps
        else <[inl (lower name) :=
                 {| entry_target := extract_number (raw_cell t);
                    entry_weight := extract_number (raw_cell w) |}]>
             (setup_mapping maps).
Proof.
  unfold add_setup_row. intros Hadd. bind_ok Hadd.
  exists a, a0, a1. repeat split; try done;
    destruct (blank_group a); by injection Hadd as <-.
Qed.

Lemma build_setup_mappings_keeps cols tc mc wc key : ∀ rs maps maps',
  build_setup_mappings cols tc mc wc None maps rs = Ok maps' →
  (∀ r n, r ∈ rs → cell_text cols r mc = Ok n →
     blank_group n = true ∨ lower n ≠ key) →
  setup_mapping maps' !! inl key = setup_mapping maps !! inl key.
Proof.
  induction rs as [|row rs IH]; intros maps maps' Hb Hother; simpl in Hb.
  - by injection Hb as <-.
  - apply rbind_ok in Hb as (maps1 & Hadd & Hb).
    rewrite (IH _ _ Hb).
    2:{ intros r n Hr. apply Hother. by apply list_elem_of_further. }
    destruct (add_setup_row_metric _ _ _ _ _ _ _ Hadd)
      as (name & t & w & Hname & _ & _ & _ & ->).
    destruct (Hother row name (list_elem_of_here _ _) Hname) as [->|Hne];
      [done|].
    destruct (blank_group name); [done|].
    rewrite lookup_insert_ne; [done|]. congruence.
Qed.

(** X6. Without a retailer column, the values kept for a metric are those of
    the last setup row that names it, whatever the letter case: after the
    mapping is built, the lowercased name of a row that no later row
    repeats leads to that row's extracted target and weight. *)
Theorem setup_mapping_last_row_wins (cols : list string)
    (tc mc wc name : string) (rs1 rs2 : list (list pyval))
    (row : list pyval) (maps maps' : SetupMappings) :
  build_setup_mappings cols tc mc wc None maps (rs1 ++ row :: rs2)
  = Ok maps' →
  cell_text cols row mc = Ok name →
  blank_group name = false →
  (∀ r n, r ∈ rs2 → cell_text cols r mc = Ok n →
     blank_group n = true ∨ lower n ≠ lower name) →
  ∃ t w,
    row_item cols row tc = Ok t ∧ row_item cols row wc = Ok w
    ∧ setup_mapping maps' !! inl (lower name)
      = Some {| entry_target := extract_number (raw_cell t);
                entry_weight := extract_number (raw_cell w) |}.
Proof.
  intros Hb Hname Hblank Hlater.
  rewrite build_setup_mappings_app in Hb.
  apply rbind_ok in Hb as (maps1 & _ & Hb). simpl in Hb.
  apply rbind_ok in Hb as (maps2 & Hadd & Hb).
  destruct (add_setup_row_metric _ _ _ _ _ _ _ Hadd)
    as (name' & t & w & Hname' & Ht & Hw & _ & Hmap).
  assert (name' = name) as -> by congruence.
  rewrite Hblank in Hmap. exists t, w. split; [done|]. split; [done|].
  rewrite (build_setup_mappings_keeps _ _ _ _ _ _ _ _ Hb Hlater), Hmap.
  apply lookup_insert_eq.
Qed.

(** ** The rows of the metric filter *)

Lemma rmapM_lookup {A B} (f : A → res B) : ∀ l bs k a,
  rmapM f l = Ok bs → l !! k = Some a →
  ∃ b, bs !! k = Some b ∧ f a = Ok b.
Proof.
  induction l as [|x l IH]; intros bs k a Hm Hk; [done|]. simpl in Hm.
  apply rbind_ok in Hm as (b & Hb & Hm).
  apply rbind_ok in Hm as (bs' & Hbs & Hm). injection Hm as <-.
  destruct k as [|k].
  - injection Hk as <-. by exists b.
  - destruct (IH _ _ _ Hbs Hk) as (b' & ? & ?). by exists b'.
Qed.

Lemma column_cells_lookup df name cells k row :
  column_cells df name = Ok cells → rows df !! k = Some row →
  ∃ v, cells !! k = Some v ∧ row_item (columns df) row name = Ok v
       ∧ has_column (columns df) name = true.
Proof.
  unfold column_cells, row_item.
  destruct (find_label (columns df) name) as [|j|] eqn:Hj; try done.
  intros Hcells Hrow.
  destruct (rmapM_lookup _ _ _ _ _ Hcells Hrow) as (v & Hv & Hcell).
  exists v. repeat split; try done. by eapply find_label_has_column.
Qed.

Lemma blank_cell_text cols row name v :
  row_item cols row name = Ok v → blank_cell v = true →
  cell_text_get cols row name = Ok "".
Proof.
  intros Hitem Hblank. unfold cell_text_get.
  rewrite (row_get_of_item _ _ _ _ _ Hitem). simpl. rewrite Hitem. simpl.
  by destruct v as [| | |[| |]|[|a s]].
Qed.

(** X7. Step 1 only visits export rows whose retailer cell is blank, so when
    the setup sheet has a retailer column the entry it finds for such a row
    is the one stored under the empty retailer name, or else the one of an
    ALL row: a setup row that names a retailer is never applied there. *)
Theorem metric_rows_have_no_retailer (export_df : DataFrame)
    (scorecard key : string) (mask : list bool) (k : nat)
    (row : list pyval) (maps : SetupMappings) :
  metric_mask export_df scorecard = Ok mask →
  mask !! k = Some true →
  rows export_df !! k = Some row →
  cell_text_get (columns export_df) row "retailer" = Ok ""
  ∧ find_setup_data maps true (columns export_df) row key
    = Ok (match setup_mapping maps !! inr ("", key) with
          | Some d => Some d
          | None => setup_mapping_all maps !! key
          end).
Proof.
  unfold metric_mask. intros Hmask Hk Hrow.
  apply rbind_ok in Hmask as (scorecards & _ & Hmask).
  apply rbind_ok in Hmask as (retailers & Hret & Hmask).
  apply rbind_ok in Hmask as (brands & _ & Hmask).
  apply rbind_ok in Hmask as (groups & _ & Hmask).
  apply rbind_ok in Hmask as (configs & _ & Hmask).
  injection Hmask as <-.
  apply lookup_zip_with_Some in Hk as (b1 & b2 & Hb & Hk & _).
  apply lookup_zip_with_Some in Hk as (b3 & b4 & -> & Hk & _).
  apply lookup_zip_with_Some in Hk as (b5 & b6 & -> & Hk & _).
  apply lookup_zip_with_Some in Hk as (b7 & b8 & -> & _ & Hk).
  symmetry in Hb. repeat (apply andb_true_iff in Hb as [Hb ?]). subst.
  apply list_lookup_fmap_Some in Hk as (v & Hblank & Hv).
  destruct (column_cells_lookup _ _ _ _ _ Hret Hrow)
    as (v' & Hv' & Hitem & Hcol).
  assert (v' = v) as -> by congruence.
  pose proof (blank_cell_text _ _ _ _ Hitem (eq_sym Hblank)) as Htext.
  split; [done|]. unfold find_setup_data. rewrite Hcol, Htext. simpl.
  by destruct (setup_mapping maps !! inr ("", key)).
Qed.

End MoreResolution.

Lemma resolved_frame_shape_witness :
  columns sample_resolved_frame = columns sample_export_frame
  ∧ length (rows sample_resolved_frame) = length (rows sample_export_frame).
Proof.
  destruct (@resolved_frame_shape sample_float_repr sample_setup_frame
              sample_export_frame sample_resolved_frame "Default")
    as (Hcols & Hrows & _).
  - vm_compute. reflexivity.
  - by split.
Defined.

Lemma setup_mapping_last_row_wins_witness :
  setup_mapping repeated_metric_mappings !! inl "in stock %"
  = Some {| entry_target := PInt 90; entry_weight := PFloat (FFin 30) |}.
Proof.
  destruct (@setup_mapping_last_row_wins sample_float_repr
              ["Display Name"; "Target"; "Metric Weight"]
              "Target" "Display Name" "Metric Weight" "IN STOCK %"
              [[PStr "In Stock %"; PInt 80; PStr "25%"]]
              [[PStr "Unused"; PStr "85%"; PFloat (FFin (1 # 2))]]
              [PStr "IN STOCK %"; PInt 90; PStr "30%"]
              no_mappings repeated_metric_mappings)
    as (t & w & Ht & Hw & Hlookup).
  - vm_compute. reflexivity.
  - reflexivity.
  - reflexivity.
  - intros r n Hr Hn. apply list_elem_of_singleton in Hr as ->.
    injection Hn as <-. right. discriminate.
  - injection Ht as <-. injection Hw as <-. exact Hlookup.
Defined.

Lemma metric_rows_have_no_retailer_witness :
  @find_setup_data sample_float_repr sample_setup_mappings true
    export_columns
    [PStr "Default"; PFloat FNan; PFloat FNan; PFloat FNan;
     PStr "In Stock %"; PFloat FNan; PFloat FNan] "in stock %"
  = Ok None.
Proof.
  apply (proj2 (@metric_rows_have_no_retailer sample_float_repr
                  sample_export_frame "Default" "in stock %"
                  [true; true; false] 0%nat _ sample_setup_mappings
                  eq_refl eq_refl eq_refl)).
Defined.

Section HeaderSearch.
Context `{FR : FloatRepr}.

(** ** The header search of [read_excel_data] *)

Lemma search_header_none keys : ∀ n i grid,
  (∀ k row, (k < n)%nat → grid !! k = Some row → mentions keys row = false) →
  search_header keys n i grid = 0%nat.
Proof.
  induction n as [|n IH]; intros i grid Hno; [done|].
  destruct grid as [|row grid]; [done|]. simpl.
  pose proof (Hno 0%nat row ltac:(lia) eq_refl) as Hrow.
  unfold mentions in Hrow. rewrite Hrow. apply IH.
  intros k r Hk Hr. apply (Hno (S k)); [lia|done].
Qed.

Lemma search_header_first keys : ∀ n i grid k row,
  (k < n)%nat → grid !! k = Some row → mentions keys row = true →
  (∀ j r, (j < k)%nat → grid !! j = Some r → mentions keys r = false) →
  search_header keys n i grid = (i + k)%nat.
Proof.
  induction n as [|n IH]; intros i grid k row Hk Hrow Hhit Hbefore; [lia|].
  destruct grid as [|row0 grid]; [done|]. simpl. destruct k as [|k].
  - injection Hrow as ->. unfold mentions in Hhit. rewrite Hhit. lia.
  - pose proof (Hbefore 0%nat row0 ltac:(lia) eq_refl) as Hrow0.
    unfold mentions in Hrow0. rewrite Hrow0.
    rewrite (IH (S i) grid k row); [lia|lia|done|done|].
    intros j r Hj Hr. apply (Hbefore (S j)); [lia|done].
Qed.

(** X8. For a workbook, [read_excel_data] takes as header the first of the
    first five rows that mentions 'measure group', 'scorecard measure
    selection' or 'grouping name' when that row is not the first one; when
    no later row does (the first row is the header, or there is none), it
    takes row 0, or row 1 if the first row contains '#ref!' or 'unnamed'. *)
Theorem workbook_header_row (f : source_file) (df_temp : list (list pyval))
    (first : list pyval) :
  let keys := ["measure group"; "scorecard measure selection";
               "grouping name"] in
  is_csv f = false →
  read_grid f 5 = Ok df_temp →
  df_temp !! 0%nat = Some first →
  (∀ k row, (0 < k < 5)%nat → df_temp !! k = Some row →
     mentions keys row = true →
     (∀ j r, (j < k)%nat → df_temp !! j = Some r → mentions keys r = false) →
     load_frame f = read_table f k)
  ∧ ((∀ k row, (0 < k < 5)%nat → df_temp !! k = Some row →
        mentions keys row = false) →
     load_frame f
     = read_table f
         (if contains "#ref!" (join " " (row_values_lower first))
             || contains "unnamed" (lower (join " " (row_values_lower first)))
          then 1%nat else 0%nat)).
Proof.
  intros keys Hcsv Hgrid Hfirst. unfold load_frame. rewrite Hcsv, Hgrid.
  cbn [rbind]. cbv zeta. fold keys. split.
  - intros k row Hk Hrow Hhit Hbefore.
    rewrite (search_header_first keys 5 0 df_temp k row); [|lia|done..].
    destruct k as [|k]; [lia|]. done.
  - intros Hlater.
    assert (search_header keys 5 0 df_temp = 0%nat) as ->.
    { destruct (mentions keys first) eqn:Hhit.
      - by rewrite (search_header_first keys 5 0 df_temp 0 first);
          [|lia|done|done|intros; lia].
      - apply search_header_none. intros [|k] row Hk Hrow.
        + rewrite Hfirst in Hrow. by injection Hrow as <-.
        + apply (Hlater (S k)); [lia|done]. }
    cbn [Nat.eqb]. destruct df_temp as [|first' rest]; [done|].
    injection Hfirst as ->. by destruct (_ || _).
Qed.

(** ** Ties between candidate header rows *)

Lemma scan_rows_first_best : ∀ n grid i b o s r,
  scan_rows n i grid (b, o) = (s, r) →
  (s = b ∧ r = o
   ∧ ∀ k row sc, (k < n)%nat → grid !! k = Some row →
       row_score row = Some sc → sc ≤ b)
  ∨ ∃ k row, r = Some (i + k)%nat ∧ (k < n)%nat ∧ grid !! k = Some row
      ∧ row_score row = Some s ∧ b < s
      ∧ (∀ j row' sc, (j < k)%nat → grid !! j = Some row' →
           row_score row' = Some sc → sc < s)
      ∧ (∀ j row' sc, (j < n)%nat → grid !! j = Some row' →
           row_score row' = Some sc → sc ≤ s).
Proof.
  induction n as [|n IH]; intros grid i b o s r Hscan.
  { simpl in Hscan. injection Hscan as <- <-. left.
    repeat split. intros; lia. }
  destruct grid as [|row grid].
  { simpl in Hscan. injection Hscan as <- <-. left.
    repeat split. by intros k row sc _ Hk. }
  simpl in Hscan.
  assert (∃ b' o', scan_rows n (S i) grid (b', o') = (s, r)
            ∧ ((b' = b ∧ o' = o
                ∧ ∀ sc, row_score row = Some sc → sc ≤ b)
               ∨ (row_score row = Some b' ∧ b < b' ∧ o' = Some i)))
    as (b' & o' & Hscan' & Hhead).
  { destruct (row_score row) as [sc0|] eqn:Hsc.
    - destruct (b <? sc0) eqn:Hlt.
      + apply Z.ltb_lt in Hlt. exists sc0, (Some i). split; [done|]. by right.
      + apply Z.ltb_ge in Hlt. exists b, o. split; [done|]. left.
        repeat split. intros sc [= <-]. done.
    - exists b, o. split; [done|]. left. repeat split. by intros sc. }
  destruct (IH _ _ _ _ _ _ Hscan')
    as [(-> & -> & Hmax)|(k & row' & -> & Hk & Hrow & Hrs & Hb & Hfirst & Hmax)].
  - destruct Hhead as [(-> & -> & Hhd)|(Hhd & Hb & ->)].
    + left. repeat split. intros [|k] row' sc Hk Hrow Hrs.
      * injection Hrow as <-. by apply Hhd.
      * apply (Hmax k row' sc); [lia|done..].
    + right. exists 0%nat, row. rewrite Nat.add_0_r.
      repeat split; [lia|done|done|intros; lia|].
      intros [|j] row' sc Hj Hrow Hrs.
      * injection Hrow as <-. rewrite Hhd in Hrs. injection Hrs as <-. done.
      * apply (Hmax j row' sc); [lia|done..].
  - right. exists (S k), row'. rewrite Nat.add_succ_r.
    assert (∀ sc, row_score row = Some sc → sc < s) as Hhd.
    { intros sc Hsc. destruct Hhead as [(-> & -> & Hhd)|(Hhd & Hb' & ->)].
      - specialize (Hhd sc Hsc). lia.
      - rewrite Hhd in Hsc. injection Hsc as <-. done. }
    repeat split; [lia|done|done| | |].
    + destruct Hhead as [(-> & _)|(_ & ? & _)]; lia.
    + intros [|j] row'' sc Hj Hrow'' Hrs''.
      * injection Hrow'' as <-. by apply Hhd.
      * apply (Hfirst j row'' sc); [lia|done..].
    + intros [|j] row'' sc Hj Hrow'' Hrs''.
      * injection Hrow'' as <-. specialize (Hhd sc Hrs''). lia.
      * apply (Hmax j row'' sc); [lia|done..].
Qed.

(** X9. The setup-sheet header detector scans the first 30 rows.  When some
    row scores at least 5 it returns the earliest row holding the highest
    score: no scanned row scores more and every row before it scores
    strictly less.  When no row reaches 5 it returns the default row 2. *)
Theorem detect_header_row_earliest_best (temp_df : list (list pyval)) :
  (∃ row s,
     (detect_header_row temp_df < max_rows_to_check)%nat
     ∧ temp_df !! detect_header_row temp_df = Some row
     ∧ row_score row = Some s ∧ min_header_score ≤ s
     ∧ (∀ k row' sc, (k < max_rows_to_check)%nat → temp_df !! k = Some row' →
          row_score row' = Some sc → sc ≤ s)
     ∧ (∀ j row' sc, (j < detect_header_row temp_df)%nat →
          temp_df !! j = Some row' → row_score row' = Some sc → sc < s))
  ∨ (detect_header_row temp_df = default_header_row
     ∧ ∀ k row sc, (k < max_rows_to_check)%nat → temp_df !! k = Some row →
         row_score row = Some sc → sc < min_header_score).
Proof.
  unfold detect_header_row.
  destruct (scan_rows max_rows_to_check 0 temp_df (0, None)) as [s r] eqn:Hs.
  destruct (scan_rows_first_best _ _ _ _ _ _ _ Hs)
    as [(-> & -> & Hmax)|(k & row & -> & Hk & Hrow & Hrs & Hb & Hfirst & Hmax)].
  - right. split; [done|]. intros k row sc Hk Hrow Hrs.
    specialize (Hmax _ _ _ Hk Hrow Hrs). unfold min_header_score. lia.
  - simpl. destruct (min_header_score <=? s) eqn:Hmin.
    + left. apply Z.leb_le in Hmin. by exists row, s.
    + right. apply Z.leb_gt in Hmin. split; [done|].
      intros k' row' sc Hk' Hrow' Hrs'.
      specialize (Hmax _ _ _ Hk' Hrow' Hrs'). lia.
Qed.

End HeaderSearch.

Lemma workbook_header_row_witness :
  @load_frame sample_float_repr
    (workbook_with_header_at 3 late_header_grid plain_frame)
  = Ok plain_frame
  ∧ @load_frame sample_float_repr
      (workbook_with_header_at 1 broken_header_grid plain_frame)
    = Ok plain_frame.
Proof.
  split.
  - refine (proj1 (@workbook_header_row sample_float_repr
                     (workbook_with_header_at 3 late_header_grid plain_frame)
                     late_header_grid _ eq_refl eq_refl eq_refl)
              3%nat _ _ eq_refl eq_refl _); [lia|].
    intros [|[|[|j]]] r Hj Hr; try lia; by injection Hr as <-.
  - refine (proj2 (@workbook_header_row sample_float_repr
                     (workbook_with_header_at 1 broken_header_grid
                        plain_frame)
                     broken_header_grid _ eq_refl eq_refl eq_refl) _).
    intros [|[|k]] row Hk Hrow; try lia; [by injection Hrow as <-|done].
Defined.

(** ** Step 3: matching a retailer name *)

Lemma existsb_str_eqb e keys : existsb (str_eqb e) keys = true ↔ e ∈ keys.
Proof.
  rewrite existsb_exists. split.
  - intros (k & Hk%list_elem_of_In & ->%str_eqb_eq). done.
  - intros He. exists e. split; [by apply list_elem_of_In|apply str_eqb_refl].
Qed.

Lemma retailer_key_loop_first e : ∀ keys k,
  retailer_key_loop e keys = Some k →
  ∃ pre post, keys = pre ++ k :: post
    ∧ retailer_key_matches e k = true
    ∧ Forall (fun k' => retailer_key_matches e k' = false) pre.
Proof.
  induction keys as [|key keys IH]; intros k Hloop; [done|].
  simpl in Hloop. destruct (retailer_key_matches e key) eqn:Hkey.
  - injection Hloop as <-. by exists [], keys.
  - destruct (IH _ Hloop) as (pre & post & -> & Hk & Hpre).
    exists (key :: pre), post. repeat split; [done|]. by constructor.
Qed.

Lemma retailer_key_loop_some e : ∀ keys key,
  key ∈ keys → retailer_key_matches e key = true →
  is_Some (retailer_key_loop e keys).
Proof.
  induction keys as [|k keys IH]; intros key Hin Hkey.
  - by apply elem_of_nil in Hin.
  - simpl. destruct (retailer_key_matches e k) eqn:Hk; [done|].
    apply elem_of_cons in Hin as [->|Hin]; [congruence|]. by eapply IH.
Qed.

Lemma find_matching_retailer_nonempty name keys k :
  find_matching_retailer name keys = Some k → nonempty name = true.
Proof.
  unfold find_matching_retailer. by destruct (nonempty name).
Qed.

Lemma find_matching_retailer_first_key name keys k :
  find_matching_retailer name keys = Some k → k ∈ keys.
Proof.
  unfold find_matching_retailer. destruct (negb (nonempty name)); [done|].
  destruct (existsb _ keys) eqn:Hex.
  - intros [= <-]. by apply existsb_str_eqb.
  - intros (pre & post & -> & _)%retailer_key_loop_first.
    apply elem_of_app. right. apply list_elem_of_here.
Qed.

(** X10. The key that [find_matching_retailer] returns is a key of the
    retailer mapping.  It is the lowercased, trimmed name itself when that
    is a key; otherwise it is the first key, in the order of insertion, that
    one of the three loose tests accepts, so an earlier key shadows a later
    one that would match too. *)
Theorem find_matching_retailer_first_match (name : string)
    (keys : list string) (k : string) :
  find_matching_retailer name keys = Some k →
  name ≠ "" ∧ k ∈ keys
  ∧ (strip (lower name) ∈ keys → k = strip (lower name))
  ∧ (strip (lower name) ∉ keys →
     ∃ pre post, keys = pre ++ k :: post
       ∧ retailer_key_matches (strip (lower name)) k = true
       ∧ Forall (fun k' =>
                   retailer_key_matches (strip (lower name)) k' = false) pre).
Proof.
  unfold find_matching_retailer, nonempty.
  destruct (str_eqb name "") eqn:Hname; [done|]. simpl.
  apply str_eqb_neq in Hname.
  destruct (existsb (str_eqb (strip (lower name))) keys) eqn:Hex.
  - apply existsb_str_eqb in Hex. intros [= <-].
    split; [done|]. split; [done|]. split; [done|]. by intros [].
  - assert (strip (lower name) ∉ keys) as Hnot.
    { intros Hin%existsb_str_eqb. congruence. }
    intros Hloop.
    destruct (retailer_key_loop_first _ _ _ Hloop)
      as (pre & post & -> & Hk & Hpre).
    split; [done|]. split; [|split].
    + apply elem_of_app. right. apply list_elem_of_here.
    + intros Hin. by destruct Hnot.
    + intros _. by exists pre, post.
Qed.

(** X11. A non-empty retailer name finds some key of the mapping as soon as
    one key has the same text once '-toys', '-es' and the hyphens are
    removed (case apart), or is contained in the lowercased name, or
    contains it; the last two tests have no length bound. *)
Theorem retailer_name_variants_match (name key : string)
    (keys : list string) :
  name ≠ "" → key ∈ keys →
  retailer_normalized (strip (lower name)) = retailer_normalized key
  ∨ contains key (strip (lower name)) = true
  ∨ contains (strip (lower name)) key = true →
  is_Some (find_matching_retailer name keys).
Proof.
  intros Hname Hin Hrule. unfold find_matching_retailer, nonempty.
  apply str_eqb_neq in Hname. rewrite Hname. simpl.
  destruct (existsb _ keys); [done|].
  apply (retailer_key_loop_some _ _ key Hin).
  unfold retailer_key_matches. cbv zeta.
  destruct Hrule as [->|[Hc|Hc]].
  - by rewrite str_eqb_refl.
  - repeat match goal with
           | |- (if ?c then true else _) = true => destruct c; [done|]
           end.
    by rewrite Hc.
  - repeat match goal with
           | |- (if ?c then true else _) = true => destruct c; [done|]
           end.
    rewrite Hc. apply orb_true_r.
Qed.

Section RetailerStepProperties.
Context `{FR : FloatRepr}.

(** ** Step 3: the rows it visits *)

(** X12. No export row is selected both by the metric filter of Step 1 and
    by the retailer filter of Step 3, whatever the two scorecard values:
    the first wants the retailer cell blank, the second wants it filled. *)
Theorem metric_and_retailer_rows_disjoint (export_df : DataFrame)
    (scorecard_name : string) (scorecard_to_use : pyval)
    (mmask rmask : list bool) (k : nat) :
  metric_mask export_df scorecard_name = Ok mmask →
  retailer_mask export_df scorecard_to_use = Ok rmask →
  ¬ (mmask !! k = Some true ∧ rmask !! k = Some true).
Proof.
  unfold metric_mask, retailer_mask. intros Hm Hr [Hmk Hrk].
  apply rbind_ok in Hm as (scorecards & _ & Hm).
  apply rbind_ok in Hm as (retailers & Hret & Hm).
  apply rbind_ok in Hm as (brands & _ & Hm).
  apply rbind_ok in Hm as (groups & _ & Hm).
  apply rbind_ok in Hm as (configs & _ & Hm).
  injection Hm as <-.
  apply rbind_ok in Hr as (brands' & _ & Hr).
  apply rbind_ok in Hr as (retailers' & Hret' & Hr).
  apply rbind_ok in Hr as (scorecards' & _ & Hr).
  apply rbind_ok in Hr as (groups' & _ & Hr).
  apply rbind_ok in Hr as (configs' & _ & Hr).
  injection Hr as <-.
  assert (retailers' = retailers) as -> by congruence.
  apply lookup_zip_with_Some in Hmk as (b1 & b2 & Hb & Hmk & _).
  apply lookup_zip_with_Some in Hmk as (b3 & b4 & -> & Hmk & _).
  apply lookup_zip_with_Some in Hmk as (b5 & b6 & -> & Hmk & _).
  apply lookup_zip_with_Some in Hmk as (b7 & b8 & -> & _ & Hmk).
  symmetry in Hb. repeat (apply andb_true_iff in Hb as [Hb ?]). subst.
  apply list_lookup_fmap_Some in Hmk as (v & Hblank & Hv).
  apply lookup_zip_with_Some in Hrk as (c1 & c2 & Hc & Hrk & _).
  apply lookup_zip_with_Some in Hrk as (c3 & c4 & -> & Hrk & _).
  apply lookup_zip_with_Some in Hrk as (c5 & c6 & -> & Hrk & _).
  apply lookup_zip_with_Some in Hrk as (c7 & c8 & -> & Hrk & _).
  apply lookup_zip_with_Some in Hrk as (c9 & c10 & -> & Hn & He).
  symmetry in Hc. repeat (apply andb_true_iff in Hc as [Hc ?]). subst.
  apply list_lookup_fmap_Some in Hn as (v1 & Hnot & Hv1).
  apply list_lookup_fmap_Some in He as (v2 & Hne & Hv2).
  assert (v1 = v) as -> by congruence. assert (v2 = v) as -> by congruence.
  unfold blank_cell, notna in *.
  destruct (isna v), (is_empty_str v); done.
Qed.

(** ** Step 3: the cells it writes *)

Lemma force_apply_spec df idx name value df' b :
  force_apply df idx name value = Ok (df', b) →
  (b = false ∧ df' = df)
  ∨ (b = true ∧ ∃ f old, value ≠ PNone ∧ py_float_val value = Ok f
       ∧ f ≠ FNan ∧ at_get df idx name = Ok old
       ∧ at_set df idx name (PFloat f) = Ok df').
Proof.
  unfold force_apply.
  assert (try_except
            (let? value_float := py_float_val value in
             if notna (PFloat value_float) then
               let? _old := at_get df idx name in
               let? df' := at_set df idx name (PFloat value_float) in
               Ok (df', true)
             else Ok (df, false))
            (fun e => match e with
                      | ValueError | TypeError => Ok (df, false)
                      | _ => Raise e
                      end) = Ok (df', b) →
          value ≠ PNone →
          (b = false ∧ df' = df)
          ∨ (b = true ∧ ∃ f old, value ≠ PNone ∧ py_float_val value = Ok f
               ∧ f ≠ FNan ∧ at_get df idx name = Ok old
               ∧ at_set df idx name (PFloat f) = Ok df')) as Htry.
  { intros Htry Hvalue.
    destruct (py_float_val value) as [f|e] eqn:Hf; simpl in Htry.
    - destruct (notna (PFloat f)) eqn:Hna; simpl in Htry.
      + destruct (at_get df idx name) as [old|e] eqn:Hold; simpl in Htry.
        * destruct (at_set df idx name (PFloat f)) as [df1|e] eqn:Hset;
            simpl in Htry.
          -- injection Htry as <- <-. right. split; [done|].
             exists f, old. repeat split; try done. by intros ->.
          -- destruct e; try done; injection Htry as <- <-; by left.
        * destruct e; try done; injection Htry as <- <-; by left.
      + injection Htry as <- <-. by left.
    - destruct e; try done; injection Htry as <- <-; by left. }
  destruct value; [intros [= <- <-]; by left|by intros ?; apply Htry..].
Qed.

Lemma force_apply_frame df idx name value df' b :
  force_apply df idx name value = Ok (df', b) →
  columns df' = columns df ∧ length (rows df') = length (rows df)
  ∧ (∀ k, k ≠ idx → rows df' !! k = rows df !! k)
  ∧ (∀ k name', k ≠ idx ∨ name' ≠ name →
       at_get df' k name' = at_get df k name')
  ∧ (∀ k name' v, at_get df' k name' = Ok v →
       at_get df k name' = Ok v ∨ ∃ f, v = PFloat f ∧ f ≠ FNan).
Proof.
  intros [[-> ->]|(-> & f & old & _ & _ & Hf & Hold & Hset)]%force_apply_spec.
  { repeat split; try done. intros k name' v Hv. by left. }
  destruct (at_set_shape _ _ _ _ _ Hset) as [Hcols Hlen].
  repeat split; try done.
  - intros k Hk. by eapply at_set_rows_other.
  - intros k name' Hother. by eapply at_set_other.
  - intros k name' v Hv.
    destruct (decide (k = idx ∧ name' = name)) as [[-> ->]|Hother].
    + right. rewrite (at_set_same _ _ _ _ _ _ Hset Hold) in Hv.
      injection Hv as <-. by exists f.
    + left. rewrite <- Hv. symmetry. eapply at_set_other; [done|].
      destruct (decide (k = idx)) as [->|]; [right|by left].
      intros ->. by apply Hother.
Qed.

Lemma retailer_row_frame mapping df n idx df' n' :
  retailer_row mapping (df, n) idx = Ok (df', n') →
  columns df' = columns df ∧ length (rows df') = length (rows df)
  ∧ (n ≤ n' ≤ S n)%nat
  ∧ (∀ k, k ≠ idx → rows df' !! k = rows df !! k)
  ∧ (∀ k name, k ≠ idx ∨ (name ≠ "target" ∧ name ≠ "weight") →
       at_get df' k name = at_get df k name)
  ∧ (∀ k name v, at_get df' k name = Ok v →
       at_get df k name = Ok v ∨ ∃ f, v = PFloat f ∧ f ≠ FNan).
Proof.
  unfold retailer_row.
  assert (Ok (df, n) = Ok (df', n') →
          columns df' = columns df ∧ length (rows df') = length (rows df)
          ∧ (n ≤ n' ≤ S n)%nat
          ∧ (∀ k, k ≠ idx → rows df' !! k = rows df !! k)
          ∧ (∀ k name, k ≠ idx ∨ (name ≠ "target" ∧ name ≠ "weight") →
               at_get df' k name = at_get df k name)
          ∧ (∀ k name v, at_get df' k name = Ok v →
               at_get df k name = Ok v ∨ ∃ f, v = PFloat f ∧ f ≠ FNan))
    as Hsame.
  { intros [= <- <-]. repeat split; try done; try lia.
    intros k name v Hv. by left. }
  destruct (rows df !! idx) as [row|]; [|done]. intros Hrow.
  apply rbind_ok in Hrow as (retailer_name & _ & Hrow).
  destruct (nonempty retailer_name); [|by apply Hsame].
  destruct (find_matching_retailer _ _) as [key|]; [|by apply Hsame].
  destruct (nonempty key); [|by apply Hsame].
  apply rbind_ok in Hrow as (data & _ & Hrow).
  apply rbind_ok in Hrow as ([df1 b1] & H1 & Hrow).
  apply rbind_ok in Hrow as ([df2 b2] & H2 & Hrow).
  simpl in H2, Hrow. injection Hrow as <- <-.
  destruct (force_apply_frame _ _ _ _ _ _ H1)
    as (Hc1 & Hl1 & Hr1 & Ho1 & Hv1).
  destruct (force_apply_frame _ _ _ _ _ _ H2)
    as (Hc2 & Hl2 & Hr2 & Ho2 & Hv2).
  split; [congruence|]. split; [congruence|].
  split; [destruct b1; lia|]. split; [|split].
  - intros k Hk. rewrite Hr2, Hr1; done.
  - intros k name Hother. rewrite Ho2, Ho1; [done|tauto..].
  - intros k name v Hv. destruct (Hv2 _ _ _ Hv) as [Hv'|]; [|by right].
    by apply Hv1.
Qed.

Lemma apply_retailer_rows_frame mapping : ∀ index df n df' n',
  apply_retailer_rows mapping (df, n) index = Ok (df', n') →
  columns df' = columns df ∧ length (rows df') = length (rows df)
  ∧ (n ≤ n' ≤ n + length index)%nat
  ∧ (∀ k, k ∉ index → rows df' !! k = rows df !! k)
  ∧ (∀ k name, k ∉ index ∨ (name ≠ "target" ∧ name ≠ "weight") →
       at_get df' k name = at_get df k name)
  ∧ (∀ k name v, at_get df' k name = Ok v →
       at_get df k name = Ok v ∨ ∃ f, v = PFloat f ∧ f ≠ FNan).
Proof.
  induction index as [|idx index IH]; intros df n df' n' Happly.
  { injection Happly as <- <-. repeat split; try done; simpl; try lia.
    intros k name v Hv. by left. }
  simpl in Happly. apply rbind_ok in Happly as ([df1 n1] & Hrow & Happly).
  destruct (retailer_row_frame _ _ _ _ _ _ Hrow)
    as (Hc1 & Hl1 & Hn1 & Hr1 & Ho1 & Hv1).
  destruct (IH _ _ _ _ Happly) as (Hc2 & Hl2 & Hn2 & Hr2 & Ho2 & Hv2).
  split; [congruence|]. split; [congruence|].
  split; [simpl; lia|]. split; [|split].
  - intros k Hk. apply not_elem_of_cons in Hk as [Hk1 Hk2].
    rewrite Hr2, Hr1; done.
  - intros k name Hother. rewrite Ho2, Ho1; [done|..].
    + destruct Hother as [Hk|]; [|by right].
      apply not_elem_of_cons in Hk as [Hk1 Hk2]. by left.
    + destruct Hother as [Hk|]; [|by right].
      apply not_elem_of_cons in Hk as [Hk1 Hk2]. by left.
  - intros k name v Hv. destruct (Hv2 _ _ _ Hv) as [Hv'|]; [|by right].
    by apply Hv1.
Qed.

(** X13. The retailer pass of Step 3 keeps the columns and the number of
    rows; outside the target and weight cells of the rows it visits every
    cell reads as before; a cell it has changed holds a float that is not
    NaN, so it never puts a missing value into the frame; and the count of
    updates grows by at most one per visited row. *)
Theorem retailer_pass_writes_numbers (mapping : RetailerMapping)
    (index : list nat) (df df' : DataFrame) (n n' : nat) :
  apply_retailer_rows mapping (df, n) index = Ok (df', n') →
  columns df' = columns df ∧ length (rows df') = length (rows df)
  ∧ (n ≤ n' ≤ n + length index)%nat
  ∧ (∀ k name, k ∉ index ∨ (name ≠ "target" ∧ name ≠ "weight") →
       at_get df' k name = at_get df k name)
  ∧ (∀ k name v, at_get df' k name = Ok v →
       at_get df k name = Ok v ∨ ∃ f, v = PFloat f ∧ f ≠ FNan).
Proof.
  intros Happly.
  destruct (apply_retailer_rows_frame _ _ _ _ _ _ Happly)
    as (Hc & Hl & Hn & _ & Ho & Hv).
  done.
Qed.

Lemma apply_retailer_rows_app mapping : ∀ pre post st st',
  apply_retailer_rows mapping st (pre ++ post) = Ok st' →
  ∃ st1, apply_retailer_rows mapping st pre = Ok st1
         ∧ apply_retailer_rows mapping st1 post = Ok st'.
Proof.
  induction pre as [|idx pre IH]; intros post st st' Happly.
  { by exists st. }
  simpl in Happly. apply rbind_ok in Happly as (st0 & Hrow & Happly).
  destruct (IH _ _ _ Happly) as (st1 & Hpre & Hpost).
  exists st1. split; [|done]. simpl. by rewrite Hrow.
Qed.

Lemma force_apply_hit df idx name value f j df' b :
  force_apply df idx name value = Ok (df', b) →
  value ≠ PNone → py_float_val value = Ok f → f ≠ FNan →
  find_label (columns df) name = At j →
  at_get df' idx name = Ok (PFloat f).
Proof.
  intros Happly Hvalue Hf Hnan Hj.
  assert (notna (PFloat f) = true) as Hna by (by destruct f).
  assert (∃ old, at_get df idx name = Ok old ∧ ∃ df1,
            at_set df idx name (PFloat f) = Ok df1 ∧ df' = df1)
    as (old & Hold & df1 & Hset & ->).
  { unfold force_apply in Happly. rewrite Hf in Happly. simpl in Happly.
    rewrite Hna in Happly. unfold at_get, at_set, row_item, row_iloc in *.
    rewrite Hj in *.
    destruct (rows df !! idx) as [row|]; [|by destruct value].
    destruct (row !! j) as [old|]; [|by destruct value].
    exists old. split; [done|]. eexists. split; [done|].
    destruct value; try done; simpl in Happly; by injection Happly as <- _. }
  by eapply at_set_same.
Qed.

Lemma force_apply_miss df idx name value df' b :
  force_apply df idx name value = Ok (df', b) →
  value = PNone ∨ py_float_val value = Ok FNan
  ∨ py_float_val value = Raise ValueError →
  df' = df.
Proof.
  intros [[_ ->]|(_ & f & old & Hvalue & Hf & Hnan & _)]%force_apply_spec;
    [done|].
  intros [->|[Hf'|Hf']]; [done|congruence..].
Qed.

(** X14. A row visited by the retailer pass whose retailer name finds a key
    of the mapping ends with that key's target and weight, converted to
    float, in its target and weight cells; a value that is None, NaN or
    text that is no number leaves the cell as the earlier steps filled
    it. *)
Theorem retailer_row_takes_mapped_values (mapping : RetailerMapping)
    (index : list nat) (df df' : DataFrame) (n n' idx : nat)
    (row : list pyval) (name key : string) (d : retailer_data) :
  NoDup index → idx ∈ index →
  apply_retailer_rows mapping (df, n) index = Ok (df', n') →
  rows df !! idx = Some row →
  cell_text_get (columns df) row "retailer" = Ok name →
  find_matching_retailer name (map fst mapping) = Some key →
  key ≠ "" →
  dict_item mapping key = Ok d →
  (∀ f j, retailer_target d ≠ PNone →
     py_float_val (retailer_target d) = Ok f → f ≠ FNan →
     find_label (columns df) "target" = At j →
     at_get df' idx "target" = Ok (PFloat f))
  ∧ (∀ f j, retailer_weight d ≠ PNone →
       py_float_val (retailer_weight d) = Ok f → f ≠ FNan →
       find_label (columns df) "weight" = At j →
       at_get df' idx "weight" = Ok (PFloat f))
  ∧ (retailer_target d = PNone ∨ py_float_val (retailer_target d) = Ok FNan
     ∨ py_float_val (retailer_target d) = Raise ValueError →
     at_get df' idx "target" = at_get df idx "target")
  ∧ (retailer_weight d = PNone ∨ py_float_val (retailer_weight d) = Ok FNan
     ∨ py_float_val (retailer_weight d) = Raise ValueError →
     at_get df' idx "weight" = at_get df idx "weight").
Proof.
  intros Hnodup Hin Happly Hrow Hname Hfind Hkey Hdata.
  apply list_elem_of_split in Hin as (pre & post & ->).
  apply NoDup_app in Hnodup as (_ & Hpre & Hpost).
  apply NoDup_cons in Hpost as [Hpost _].
  assert (idx ∉ pre) as Hpre'.
  { intros Hin. apply (Hpre _ Hin). apply list_elem_of_here. }
  apply apply_retailer_rows_app in Happly as ([df1 n1] & H1 & Happly).
  simpl in Happly. apply rbind_ok in Happly as ([df2 n2] & Hturn & H2).
  destruct (apply_retailer_rows_frame _ _ _ _ _ _ H1)
    as (Hc1 & _ & _ & Hr1 & Ho1 & _).
  destruct (apply_retailer_rows_frame _ _ _ _ _ _ H2)
    as (_ & _ & _ & _ & Ho2 & _).
  unfold retailer_row in Hturn. rewrite (Hr1 _ Hpre'), Hrow in Hturn.
  rewrite Hc1, Hname in Hturn. simpl in Hturn.
  pose proof (find_matching_retailer_nonempty _ _ _ Hfind) as Hne.
  rewrite Hne, Hfind in Hturn.
  assert (nonempty key = true) as Hkey'.
  { unfold nonempty. apply negb_true_iff. by apply str_eqb_neq. }
  rewrite Hkey', Hdata in Hturn. simpl in Hturn.
  apply rbind_ok in Hturn as ([dft bt] & Ht & Hturn).
  apply rbind_ok in Hturn as ([dfw bw] & Hw & Hturn).
  simpl in Hw, Hturn. injection Hturn as <- <-.
  destruct (force_apply_frame _ _ _ _ _ _ Ht) as (Hct & _ & _ & Hot & _).
  destruct (force_apply_frame _ _ _ _ _ _ Hw) as (_ & _ & _ & How & _).
  repeat split.
  - intros f j Hv Hf Hnan Hj. rewrite Ho2 by (by left).
    rewrite How by (by right).
    eapply force_apply_hit; [done..|]. by rewrite Hc1.
  - intros f j Hv Hf Hnan Hj. rewrite Ho2 by (by left).
    eapply force_apply_hit; [done..|]. by rewrite Hct, Hc1.
  - intros Hmiss. rewrite Ho2 by (by left). rewrite How by (by right).
    rewrite (force_apply_miss _ _ _ _ _ _ Ht Hmiss). apply Ho1. by left.
  - intros Hmiss. rewrite Ho2 by (by left).
    rewrite (force_apply_miss _ _ _ _ _ _ Hw Hmiss).
    rewrite Hot by (by right). apply Ho1. by left.
Qed.

(** ** Step 3: the pass runs to its end *)

Lemma dict_item_total (mapping : RetailerMapping) key :
  key ∈ map fst mapping → ∃ d, dict_item mapping key = Ok d.
Proof.
  induction mapping as [|[k d] mapping IH]; intros Hin.
  - by apply elem_of_nil in Hin.
  - simpl. destruct (str_eqb k key) eqn:Hk; [by exists d|].
    apply str_eqb_neq in Hk. simpl in Hin.
    apply elem_of_cons in Hin as [->|Hin]; [done|]. by apply IH.
Qed.

Lemma label_in_row df name j idx row :
  rectangular df → find_label (columns df) name = At j →
  rows df !! idx = Some row → is_Some (row !! j).
Proof.
  intros Hrect Hj%find_label_At Hrow. apply lookup_lt_is_Some.
  rewrite (proj1 (Forall_lookup _ _) Hrect _ _ Hrow).
  by eapply lookup_lt_Some.
Qed.

Lemma force_apply_total df idx name value j row :
  rectangular df → find_label (columns df) name = At j →
  rows df !! idx = Some row →
  ∃ df' b, force_apply df idx name value = Ok (df', b) ∧ rectangular df'.
Proof.
  intros Hrect Hj Hrow.
  destruct (label_in_row _ _ _ _ _ Hrect Hj Hrow) as [old Hold].
  assert (∀ f, ∃ df' b,
            (if notna (PFloat f) then
               let? _old := at_get df idx name in
               let? df' := at_set df idx name (PFloat f) in Ok (df', true)
             else Ok (df, false)) = Ok (df', b) ∧ rectangular df') as Hwrite.
  { intros f. destruct (notna (PFloat f)); [|by exists df, false].
    unfold at_get, at_set, row_item, row_iloc. rewrite Hj, Hrow, Hold. simpl.
    eexists _, true. split; [done|]. unfold rectangular. simpl.
    apply Forall_insert; [done|]. rewrite length_insert.
    apply (proj1 (Forall_lookup _ _) Hrect _ _ Hrow). }
  unfold force_apply, py_float_val.
  destruct value as [|b|z|f|s]; [by exists df, false|..].
  - unfold rbind at 1.
    destruct (Hwrite (FFin (if b then 1 else 0)%Q)) as (df' & b' & Hw & ?).
    exists df', b'. by rewrite Hw.
  - unfold rbind at 1.
    destruct (Hwrite (binary64 (inject_Z z))) as (df' & b' & Hw & ?).
    exists df', b'. by rewrite Hw.
  - unfold rbind at 1. destruct (Hwrite f) as (df' & b' & Hw & ?).
    exists df', b'. by rewrite Hw.
  - destruct (py_float s) as [f|]; unfold rbind at 1;
      [|by exists df, false].
    destruct (Hwrite f) as (df' & b' & Hw & ?).
    exists df', b'. by rewrite Hw.
Qed.

Lemma retailer_row_total mapping df n idx jr jt jw :
  rectangular df →
  find_label (columns df) "retailer" = At jr →
  find_label (columns df) "target" = At jt →
  find_label (columns df) "weight" = At jw →
  (idx < length (rows df))%nat →
  ∃ df' n', retailer_row mapping (df, n) idx = Ok (df', n')
            ∧ rectangular df'.
Proof.
  intros Hrect Hjr Hjt Hjw Hidx. unfold retailer_row.
  destruct (lookup_lt_is_Some_2 _ _ Hidx) as [row Hrow]. rewrite Hrow.
  destruct (label_in_row _ _ _ _ _ Hrect Hjr Hrow) as [v Hv].
  unfold cell_text_get, row_get, row_item, row_iloc. rewrite Hjr, Hv. simpl.
  assert (∀ name : string, ∃ df' n',
            (if nonempty name then
               match find_matching_retailer name (map fst mapping) with
               | Some matching_key =>
                   if nonempty matching_key then
                     let? data := dict_item mapping matching_key in
                     let? r1 :=
                       force_apply df idx "target" (retailer_target data) in
                     let? r2 :=
                       force_apply (fst r1) idx "weight"
                         (retailer_weight data) in
                     Ok (fst r2, if snd r1 then S n else n)
                   else Ok (df, n)
               | None => Ok (df, n)
               end
             else Ok (df, n)) = Ok (df', n') ∧ rectangular df') as Hrest.
  { intros name. destruct (nonempty name); [|by exists df, n].
    destruct (find_matching_retailer _ _) as [key|] eqn:Hfind;
      [|by exists df, n].
    destruct (nonempty key); [|by exists df, n].
    pose proof (find_matching_retailer_first_key _ _ _ Hfind) as Hin.
    destruct (dict_item_total _ _ Hin) as [d ->]. simpl.
    destruct (force_apply_total df idx "target" (retailer_target d) _ _
                Hrect Hjt Hrow) as (df1 & b1 & H1 & Hrect1).
    rewrite H1. simpl.
    destruct (force_apply_frame _ _ _ _ _ _ H1) as (Hc1 & Hl1 & _).
    assert (is_Some (rows df1 !! idx)) as [row1 Hrow1].
    { apply lookup_lt_is_Some. by rewrite Hl1. }
    rewrite <- Hc1 in Hjw.
    destruct (force_apply_total df1 idx "weight" (retailer_weight d) _ _
                Hrect1 Hjw Hrow1) as (df2 & b2 & H2 & Hrect2).
    rewrite H2. simpl. by eexists _, _. }
  destruct (notna v); [apply Hrest|].
  simpl. by exists df, n.
Qed.

(** X15. On an export frame whose rows have one cell per column and whose
    labels 'retailer', 'target' and 'weight' each occur once, the retailer
    pass over rows of the frame never raises: a mapping value that float()
    rejects is skipped, and the key found for a name is always in the
    mapping. *)
Theorem retailer_pass_completes (mapping : RetailerMapping)
    (index : list nat) (df : DataFrame) (n jr jt jw : nat) :
  rectangular df →
  find_label (columns df) "retailer" = At jr →
  find_label (columns df) "target" = At jt →
  find_label (columns df) "weight" = At jw →
  Forall (fun idx => (idx < length (rows df))%nat) index →
  ∃ df' n', apply_retailer_rows mapping (df, n) index = Ok (df', n').
Proof.
  revert df n. induction index as [|idx index IH];
    intros df n Hrect Hjr Hjt Hjw Hindex.
  { by exists df, n. }
  apply Forall_cons in Hindex as [Hidx Hindex].
  cbn [apply_retailer_rows].
  destruct (retailer_row_total mapping df n idx _ _ _ Hrect Hjr Hjt Hjw Hidx)
    as (df1 & n1 & Hrow & Hrect1).
  rewrite Hrow. cbn [rbind].
  destruct (retailer_row_frame _ _ _ _ _ _ Hrow) as (Hc & Hl & _).
  apply IH; try done; rewrite ?Hc, ?Hl; done.
Qed.

End RetailerStepProperties.

Lemma find_matching_retailer_first_match_witness :
  "Shop-ES" ≠ "" ∧ "shop-toys-es" ∈ map fst sample_retailer_mapping.
Proof.
  destruct (find_matching_retailer_first_match "Shop-ES"
              (map fst sample_retailer_mapping) "shop-toys-es")
    as (Hname & Hin & _).
  - vm_compute. reflexivity.
  - by split.
Defined.

Lemma retailer_name_variants_match_witness :
  is_Some (find_matching_retailer "Elcorteingles-Toys-ES"
             ["carrefour-es"; "elcorteingles-es"]).
Proof.
  apply (retailer_name_variants_match "Elcorteingles-Toys-ES"
           "elcorteingles-es").
  - done.
  - apply list_elem_of_further, list_elem_of_here.
  - left. vm_compute. reflexivity.
Defined.

Lemma metric_and_retailer_rows_disjoint_witness :
  ¬ ([true; true; false] !! 2%nat = Some true
     ∧ [false; false; true] !! 2%nat = Some true).
Proof.
  apply (metric_and_retailer_rows_disjoint sample_resolved_frame "Default"
           (PStr "Default")).
  - vm_compute. reflexivity.
  - vm_compute. reflexivity.
Defined.

Lemma retailer_pass_writes_numbers_witness :
  columns sample_retailer_frame = columns sample_resolved_frame
  ∧ length (rows sample_retailer_frame) = length (rows sample_resolved_frame).
Proof.
  destruct (@retailer_pass_writes_numbers sample_float_repr
              sample_retailer_mapping [2%nat] sample_resolved_frame
              sample_retailer_frame 0 1)
    as (Hcols & Hrows & _).
  - vm_compute. reflexivity.
  - by split.
Defined.

Lemma retailer_row_takes_mapped_values_witness :
  at_get sample_retailer_frame 2 "target" = Ok (PFloat (FFin 80))
  ∧ at_get sample_retailer_frame 2 "weight" = Ok (PFloat (FFin 25)).
Proof.
  destruct (@retailer_row_takes_mapped_values sample_float_repr
              sample_retailer_mapping [2%nat] sample_resolved_frame
              sample_retailer_frame 0 1 2
              [PStr "Default"; PStr "Shop-ES"; PFloat FNan; PFloat FNan;
               PFloat FNan; PFloat (FFin 70); PFloat (FFin 1)]
              "Shop-ES" "shop-toys-es"
              {| retailer_target := PFloat (FFin 80);
                 retailer_weight := PFloat (FFin 25) |})
    as (Htarget & Hweight & _).
  - apply NoDup_cons. split; [apply not_elem_of_nil|apply NoDup_nil_2].
  - apply list_elem_of_here.
  - vm_compute. reflexivity.
  - reflexivity.
  - vm_compute. reflexivity.
  - vm_compute. reflexivity.
  - done.
  - vm_compute. reflexivity.
  - split.
    + by apply (Htarget (FFin 80) 5%nat).
    + by apply (Hweight (FFin 25) 6%nat).
Defined.

Lemma retailer_pass_completes_witness :
  ∃ df' n',
    @apply_retailer_rows sample_float_repr sample_retailer_mapping
      (sample_resolved_frame, 0%nat) [2%nat] = Ok (df', n').
Proof.
  apply (@retailer_pass_completes sample_float_repr sample_retailer_mapping
           [2%nat] sample_resolved_frame 0 1 5 6).
  - repeat constructor.
  - vm_compute. reflexivity.
  - vm_compute. reflexivity.
  - vm_compute. reflexivity.
  - repeat constructor.
Defined.

Section SearchTermProperties.
Context `{FR : FloatRepr}.

Import SearchTerms.

(** ** The header of the search-term sheet *)

Lemma scan_cell_search st c cell :
  search_term_col_idx (scan_cell st c cell)
  = (if search_term_heading cell && is_none (search_term_col_idx st)
     then Some c else search_term_col_idx st)
  ∧ has_search_term_col (scan_cell st c cell)
    = has_search_term_col st || search_term_heading cell.
Proof.
  unfold scan_cell, search_term_heading. cbv zeta.
  generalize (contains "search term" (lower (strip (py_str cell)))).
  generalize (contains "weight" (lower (strip (py_str cell)))).
  generalize (String.length (lower (strip (py_str cell))) <? 50)%nat.
  intros b1 b2 b3.
  destruct (notna cell), b1, b2, b3, st as [[] [] [si|] wi]; done.
Qed.

Lemma scan_cell_weight st c cell :
  weight_col_idx (scan_cell st c cell)
  = (if weight_heading cell && is_none (weight_col_idx st)
     then Some c else weight_col_idx st)
  ∧ has_weight_col (scan_cell st c cell)
    = has_weight_col st || weight_heading cell.
Proof.
  unfold scan_cell, weight_heading. cbv zeta.
  generalize (contains "search term" (lower (strip (py_str cell)))).
  generalize (contains "weight" (lower (strip (py_str cell)))).
  generalize (String.length (lower (strip (py_str cell))) <? 50)%nat.
  intros b1 b2 b3.
  destruct (notna cell), b1, b2, b3, st as [[] [] si [wi|]]; done.
Qed.

Lemma headings_exclusive cell :
  search_term_heading cell = true → weight_heading cell = true → False.
Proof.
  unfold search_term_heading, weight_heading. cbv zeta.
  generalize (contains "search term" (lower (strip (py_str cell)))).
  generalize (contains "weight" (lower (strip (py_str cell)))).
  intros b1 b2. by destruct (notna cell), b1, b2.
Qed.

Lemma scan_cells_search : ∀ row st c,
  (search_term_col_idx st = None →
   (search_term_col_idx (scan_cells st c row) = None
    ∧ has_search_term_col (scan_cells st c row) = has_search_term_col st
    ∧ Forall (fun cell => search_term_heading cell = false) row)
   ∨ (∃ i cell, search_term_col_idx (scan_cells st c row) = Some (c + i)%nat
        ∧ row !! i = Some cell ∧ search_term_heading cell = true
        ∧ ∀ i' cell', (i' < i)%nat → row !! i' = Some cell' →
            search_term_heading cell' = false))
  ∧ (∀ x, search_term_col_idx st = Some x →
       search_term_col_idx (scan_cells st c row) = Some x).
Proof.
  induction row as [|cell row IH]; intros st c.
  { split; [|done]. intros Hst. left. by repeat split. }
  simpl. destruct (scan_cell_search st c cell) as [Hidx Hhas].
  destruct (IH (scan_cell st c cell) (S c)) as [IHnone IHsome]. split.
  - intros Hst. rewrite Hst in Hidx. simpl in Hidx.
    rewrite andb_true_r in Hidx.
    destruct (search_term_heading cell) eqn:Hcell.
    + right. exists 0%nat, cell. rewrite Nat.add_0_r.
      split; [by apply IHsome|]. repeat split; [done|]. intros; lia.
    + destruct (IHnone Hidx) as [(Hnone & Hh & Hall)|(i & cell' & Hi & Hc & Ht & Hbefore)].
      * left. split; [done|]. split; [by rewrite Hh, Hhas, orb_false_r|].
        by constructor.
      * right. exists (S i), cell'. rewrite Nat.add_succ_r.
        repeat split; try done.
        intros [|i'] cell'' Hlt Hlook.
        -- by injection Hlook as <-.
        -- apply (Hbefore i'); [lia|done].
  - intros x Hst. apply IHsome. rewrite Hidx, Hst. simpl.
    by rewrite andb_false_r.
Qed.

Lemma scan_cells_weight : ∀ row st c,
  (weight_col_idx st = None →
   (weight_col_idx (scan_cells st c row) = None
    ∧ has_weight_col (scan_cells st c row) = has_weight_col st
    ∧ Forall (fun cell => weight_heading cell = false) row)
   ∨ (∃ i cell, weight_col_idx (scan_cells st c row) = Some (c + i)%nat
        ∧ row !! i = Some cell ∧ weight_heading cell = true
        ∧ ∀ i' cell', (i' < i)%nat → row !! i' = Some cell' →
            weight_heading cell' = false))
  ∧ (∀ x, weight_col_idx st = Some x →
       weight_col_idx (scan_cells st c row) = Some x).
Proof.
  induction row as [|cell row IH]; intros st c.
  { split; [|done]. intros Hst. left. by repeat split. }
  simpl. destruct (scan_cell_weight st c cell) as [Hidx Hhas].
  destruct (IH (scan_cell st c cell) (S c)) as [IHnone IHsome]. split.
  - intros Hst. rewrite Hst in Hidx. simpl in Hidx.
    rewrite andb_true_r in Hidx.
    destruct (weight_heading cell) eqn:Hcell.
    + right. exists 0%nat, cell. rewrite Nat.add_0_r.
      split; [by apply IHsome|]. repeat split; [done|]. intros; lia.
    + destruct (IHnone Hidx) as [(Hnone & Hh & Hall)|(i & cell' & Hi & Hc & Ht & Hbefore)].
      * left. split; [done|]. split; [by rewrite Hh, Hhas, orb_false_r|].
        by constructor.
      * right. exists (S i), cell'. rewrite Nat.add_succ_r.
        repeat split; try done.
        intros [|i'] cell'' Hlt Hlook.
        -- by injection Hlook as <-.
        -- apply (Hbefore i'); [lia|done].
  - intros x Hst. apply IHsome. rewrite Hidx, Hst. simpl.
    by rewrite andb_false_r.
Qed.

Lemma find_header_spec : ∀ temp_df idx,
  match find_header idx temp_df with
  | Some (r, i, j) =>
      ∃ k row ci cj, r = (idx + k)%nat ∧ temp_df !! k = Some row
        ∧ row !! i = Some ci ∧ row !! j = Some cj
        ∧ search_term_heading ci = true ∧ weight_heading cj = true
        ∧ (∀ i' c, (i' < i)%nat → row !! i' = Some c →
             search_term_heading c = false)
        ∧ (∀ j' c, (j' < j)%nat → row !! j' = Some c →
             weight_heading c = false)
        ∧ (∀ k' row', (k' < k)%nat → temp_df !! k' = Some row' →
             lacks_heading row')
  | None => Forall lacks_heading temp_df
  end.
Proof.
  induction temp_df as [|row temp_df IH]; intros idx; [by constructor|].
  simpl.
  destruct (scan_cells_search row new_scan 0) as [Hs _].
  destruct (scan_cells_weight row new_scan 0) as [Hw _].
  specialize (Hs eq_refl). specialize (Hw eq_refl).
  assert (lacks_heading row →
          match find_header (S idx) temp_df with
          | Some (r, i, j) =>
              ∃ k row0 ci cj, r = (idx + k)%nat
                ∧ (row :: temp_df) !! k = Some row0
                ∧ row0 !! i = Some ci ∧ row0 !! j = Some cj
                ∧ search_term_heading ci = true ∧ weight_heading cj = true
                ∧ (∀ i' c, (i' < i)%nat → row0 !! i' = Some c →
                     search_term_heading c = false)
                ∧ (∀ j' c, (j' < j)%nat → row0 !! j' = Some c →
                     weight_heading c = false)
                ∧ (∀ k' row', (k' < k)%nat →
                     (row :: temp_df) !! k' = Some row' → lacks_heading row')
          | None => Forall lacks_heading (row :: temp_df)
          end) as Hnext.
  { intros Hlacks. specialize (IH (S idx)).
    destruct (find_header (S idx) temp_df) as [[[r i] j]|];
      [|by constructor].
    destruct IH as (k & row0 & ci & cj & -> & Hk & Hi & Hj & Hci & Hcj
                    & Hbi & Hbj & Hbk).
    exists (S k), row0, ci, cj. repeat split; try done; [lia|].
    intros [|k'] row' Hlt Hlook.
    - by injection Hlook as <-.
    - apply (Hbk k'); [lia|done]. }
  destruct Hs as [(Hsn & Hsh & Hsall)|(i & ci & Hsi & Hci & Hcit & Hbi)].
  { rewrite Hsh, Hsn. simpl. apply Hnext. by left. }
  destruct Hw as [(Hwn & Hwh & Hwall)|(j & cj & Hwj & Hcj & Hcjt & Hbj)].
  { rewrite Hwn. destruct (_ && _); rewrite ?Hsi; apply Hnext; by right. }
  rewrite Hsi, Hwj. simpl.
  destruct (has_search_term_col _ && has_weight_col _) eqn:Hhas.
  - exists 0%nat, row, ci, cj. rewrite Nat.add_0_r.
    repeat split; try done. intros; lia.
  - exfalso. apply andb_false_iff in Hhas.
    clear -Hhas Hci Hcit Hcj Hcjt.
    assert (∀ row st c cell i, row !! i = Some cell →
              search_term_heading cell = true →
              has_search_term_col (scan_cells st c row) = true) as Hs.
    { clear. induction row as [|x row IH]; intros st c cell i Hi Hc; [done|].
      simpl. destruct i as [|i].
      - injection Hi as ->.
        assert (∀ row st c, has_search_term_col st = true →
                  has_search_term_col (scan_cells st c row) = true) as Hkeep.
        { clear. induction row as [|x row IH]; intros st c Hst; [done|].
          simpl. apply IH.
          rewrite (proj2 (scan_cell_search st c x)), Hst. done. }
        apply Hkeep. rewrite (proj2 (scan_cell_search st c cell)), Hc.
        apply orb_true_r.
      - by eapply IH. }
    assert (∀ row st c cell i, row !! i = Some cell →
              weight_heading cell = true →
              has_weight_col (scan_cells st c row) = true) as Hw.
    { clear. induction row as [|x row IH]; intros st c cell i Hi Hc; [done|].
      simpl. destruct i as [|i].
      - injection Hi as ->.
        assert (∀ row st c, has_weight_col st = true →
                  has_weight_col (scan_cells st c row) = true) as Hkeep.
        { clear. induction row as [|x row IH]; intros st c Hst; [done|].
          simpl. apply IH.
          rewrite (proj2 (scan_cell_weight st c x)), Hst. done. }
        apply Hkeep. rewrite (proj2 (scan_cell_weight st c cell)), Hc.
        apply orb_true_r.
      - by eapply IH. }
    rewrite (Hs _ _ _ _ _ Hci Hcit), (Hw _ _ _ _ _ Hcj Hcjt) in Hhas.
    by destruct Hhas.
Qed.

(** X16. The header of the search-term sheet is the first row that has a
    cell naming 'search term' (and not 'weight') and another cell naming
    'weight' (and not 'search term'), both shorter than 50 characters; the
    two positions returned are the first such cells of that row and are
    different, so a sentence that holds both words in one cell is never
    taken for the header.  When no row qualifies there is no header. *)
Theorem search_term_header_is_first (temp_df : list (list pyval)) :
  match find_header 0 temp_df with
  | Some (r, i, j) =>
      i ≠ j
      ∧ ∃ row ci cj, temp_df !! r = Some row
        ∧ row !! i = Some ci ∧ row !! j = Some cj
        ∧ search_term_heading ci = true ∧ weight_heading cj = true
        ∧ (∀ i' c, (i' < i)%nat → row !! i' = Some c →
             search_term_heading c = false)
        ∧ (∀ j' c, (j' < j)%nat → row !! j' = Some c →
             weight_heading c = false)
        ∧ (∀ r' row', (r' < r)%nat → temp_df !! r' = Some row' →
             lacks_heading row')
  | None => Forall lacks_heading temp_df
  end.
Proof.
  pose proof (find_header_spec temp_df 0) as Hspec.
  destruct (find_header 0 temp_df) as [[[r i] j]|]; [|done].
  destruct Hspec as (k & row & ci & cj & -> & Hk & Hi & Hj & Hci & Hcj
                     & Hbi & Hbj & Hbk).
  split.
  - intros ->. assert (cj = ci) as -> by congruence.
    by eapply headings_exclusive.
  - by exists row, ci, cj.
Qed.

(** ** The weights of the search terms *)

Lemma whole_float_finite num f : whole_float num = Ok f → ∃ q, f = FFin q.
Proof.
  destruct num as [| |q]; try done. simpl.
  destruct (Qeq_bool _ _); intros [= <-]; by eexists.
Qed.

Lemma number_or_none_cases num :
  number_or_none num = PNone ∨ ∃ q, number_or_none num = PFloat (FFin q).
Proof.
  unfold number_or_none. destruct num as [num|]; [|by left].
  destruct (whole_float num) as [f|e] eqn:Hf; [|by left].
  destruct (whole_float_finite _ _ Hf) as [q ->]. right. by exists q.
Qed.

Lemma extract_number_cases value :
  extract_number value = PNone ∨ finite_number (extract_number value) = true.
Proof.
  unfold extract_number. destruct (isna value || is_empty_str value);
    [by left|].
  destruct value as [|b|z|f|s]; try by right.
  - by left.
  - destruct (whole_float f) as [f'|e] eqn:Hf; [|by left].
    destruct (whole_float_finite _ _ Hf) as [q ->]. by right.
  - cbv zeta. destruct (contains "weighted evenly" _); [by right|].
    assert (∀ num, number_or_none num = PNone
                   ∨ finite_number (number_or_none num) = true) as Hnum.
    { intros num. destruct (number_or_none_cases num) as [->|[q ->]];
        [by left|by right]. }
    destruct (contains "%" _); [|apply Hnum].
    destruct (re_search_number _); apply Hnum.
Qed.

Lemma processed_weight_number weight_val :
  finite_number (processed_weight weight_val) = true.
Proof.
  unfold processed_weight. cbv zeta.
  destruct (extract_number_cases weight_val) as [->|Hnum]; [done|].
  destruct (extract_number weight_val) as [| | |[| |]|]; done.
Qed.

(** X17. The weight written for a search term is always a number: a bool,
    an int or a finite float.  It is never missing, never NaN or an
    infinity and never text, whatever the cell held. *)
Theorem processed_weight_is_number (weight_val : pyval) :
  finite_number (processed_weight weight_val) = true
  ∧ processed_weight weight_val ≠ PNone
  ∧ isna (processed_weight weight_val) = false
  ∧ ∀ s, processed_weight weight_val ≠ PStr s.
Proof.
  pose proof (processed_weight_number weight_val) as Hnum.
  destruct (processed_weight weight_val) as [| | |[| |]|]; done.
Qed.

Lemma lower_app s t : lower (s +:+ t) = lower s +:+ lower t.
Proof.
  induction s as [|a s IH]; [done|].
  rewrite append_cons. unfold lower in *. simpl. by rewrite IH, append_cons.
Qed.

Lemma lower_numchars s : all_chars is_numchar s = true → lower s = s.
Proof.
  induction s as [|a s IH]; [done|]. simpl.
  intros [Ha Hs]%andb_true_iff. unfold lower in *. simpl. rewrite (IH Hs).
  f_equal. revert Ha. ascii_cases a; vm_compute; congruence.
Qed.

Lemma starts_with_first a p b s :
  Ascii.eqb a b = false → starts_with (String a p) (String b s) = false.
Proof. simpl. by intros ->. Qed.

Lemma contains_absent_letter a p s :
  all_chars (fun b => negb (Ascii.eqb a b)) s = true →
  contains (String a p) s = false.
Proof.
  induction s as [|b s IH]; [done|]. simpl all_chars.
  intros [Hb Hs]%andb_true_iff. apply negb_true_iff in Hb.
  change (contains (String a p) (String b s))
    with (starts_with (String a p) (String b s) || contains (String a p) s).
  by rewrite (starts_with_first _ _ _ _ Hb), (IH Hs).
Qed.

Lemma whole_float_value q f :
  whole_float (FFin q) = Ok f → ∃ q', f = FFin q' ∧ (q' == q)%Q.
Proof.
  simpl. destruct (Qeq_bool _ _) eqn:Heq; intros [= <-].
  - eexists. split; [done|]. symmetry. by apply Qeq_bool_eq.
  - by exists q.
Qed.

(** X18. The special cases of a search-term weight: a blank cell, a text
    containing 'weighted evenly' in any case, and a text that is no number
    and has no percent sign all give the weight 1.0; a numeral followed by
    a percent sign gives the float nearest to the value of the numeral, not
    a hundredth of it, and 1.0 when that value is beyond the float range. *)
Theorem processed_weight_special_cases (v : pyval) (s ip : string)
    (fp : option string) :
  (blank_cell v = true → processed_weight v = PFloat (FFin 1))
  ∧ (contains "weighted evenly" (lower (strip s)) = true →
     processed_weight (PStr s) = PFloat (FFin 1))
  ∧ (contains "%" (lower (strip s)) = false →
     py_float (lower (strip s)) = None →
     processed_weight (PStr s) = PFloat (FFin 1))
  ∧ (is_numeral ip fp = true →
     match binary64 (numeral_value ip fp) with
     | FFin q =>
         ∃ q', processed_weight (PStr (numeral_text ip fp +:+ "%"))
               = PFloat (FFin q')
               ∧ (q' == q)%Q
     | _ =>
         processed_weight (PStr (numeral_text ip fp +:+ "%"))
         = PFloat (FFin 1)
     end).
Proof.
  repeat split.
  - unfold blank_cell, processed_weight, extract_number.
    by intros ->.
  - intros Hw. unfold processed_weight, extract_number. cbv zeta.
    rewrite Hw. by destruct s.
  - intros Hp Hf. unfold processed_weight, extract_number. cbv zeta.
    rewrite Hp, Hf. destruct s; [done|]. simpl isna. simpl is_empty_str.
    simpl orb. cbv iota. by destruct (contains "weighted evenly" _).
  - intros Hnum. pose proof (py_float_numeral _ _ Hnum) as Hq.
    destruct (numeral_text_numchars _ _ Hnum) as [Hchars Hne].
    assert (all_chars not_space (numeral_text ip fp +:+ "%") = true) as Hns.
    { rewrite all_chars_app.
      by rewrite (all_chars_impl _ _ _ numchar_not_space Hchars). }
    assert (lower (strip (numeral_text ip fp +:+ "%"))
            = numeral_text ip fp +:+ "%") as Htext.
    { by rewrite (strip_not_space _ Hns), lower_app, (lower_numchars _ Hchars). }
    assert (contains "weighted evenly" (numeral_text ip fp +:+ "%") = false)
      as Hw.
    { apply contains_absent_letter. rewrite all_chars_app.
      apply andb_true_iff. split; [|done].
      eapply all_chars_impl; [|exact Hchars].
      intros a. ascii_cases a; vm_compute; congruence. }
    assert (is_empty_str (PStr (numeral_text ip fp +:+ "%")) = false) as He
      by (by destruct (numeral_text ip fp)).
    unfold processed_weight, extract_number. cbv zeta.
    rewrite He, Htext, Hw, contains_percent_app, orb_true_r.
    destruct (numeral_text ip fp) as [|a n] eqn:Hn; [done|].
    rewrite (re_search_numeral _ _ _ Hchars), Hq.
    unfold number_or_none.
    destruct (binary64 (numeral_value ip fp)) as [|neg|q]; [done|done|].
    destruct (whole_float (FFin q)) as [f|e] eqn:Hf.
    + destruct (whole_float_value _ _ Hf) as (q' & -> & Hq').
      by exists q'.
    + simpl in Hf. by destruct (Qeq_bool _ _).
Qed.

(** ** The rows written for the search terms *)

(** X19. Every row of the result carries the scorecard name given, a
    weight that is a number, and a search term that is the trimmed text of
    a cell of the search-term column and is neither empty, 'nan' nor the
    heading 'Search Term', and holds neither 'Branded Search Terms' nor
    'Please enter' in any case; there are at most as many rows as the
    sheet has. *)
Theorem result_rows_are_clean (df : DataFrame)
    (search_term_col weight_col scorecard_name : string)
    (result : list (string * pyval * string)) :
  result_rows df search_term_col weight_col scorecard_name = Ok result →
  (length result ≤ length (rows df))%nat
  ∧ ∀ term weight scorecard, (term, weight, scorecard) ∈ result →
      scorecard = scorecard_name
      ∧ finite_number weight = true
      ∧ term ≠ "" ∧ term ≠ "nan" ∧ term ≠ "Search Term"
      ∧ contains "branded search terms" (lower term) = false
      ∧ contains "please enter" (lower term) = false
      ∧ ∃ k row cell, rows df !! k = Some row
          ∧ row_item (columns df) row search_term_col = Ok cell
          ∧ term = strip (py_str cell).
Proof.
  unfold result_rows. intros Hres.
  apply rbind_ok in Hres as (terms & Hterms & Hres).
  apply rbind_ok in Hres as (weights & Hweights & Hres).
  injection Hres as <-.
  assert (length terms = length (rows df)) as Hlen.
  { clear -Hterms. unfold column_cells in Hterms.
    destruct (find_label _ _) as [|j|]; try done.
    revert terms Hterms. induction (rows df) as [|row l IH];
      intros terms Hterms; simpl in Hterms.
    - by injection Hterms as <-.
    - apply rbind_ok in Hterms as (b & _ & Hterms).
      apply rbind_ok in Hterms as (bs & Hbs & Hterms).
      injection Hterms as <-. simpl. by rewrite (IH _ Hbs). }
  split.
  - rewrite length_map.
    etransitivity; [apply List.filter_length_le|].
    rewrite length_zip, length_map. lia.
  - intros term weight scorecard Hin.
    apply list_elem_of_fmap in Hin as ([t w] & [= -> -> ->] & Hin).
    apply list_elem_of_In, List.filter_In in Hin as [Hin Hkeep].
    apply list_elem_of_In in Hin. simpl in Hkeep.
    unfold keep_search_term in Hkeep.
    repeat (apply andb_true_iff in Hkeep as [Hkeep ?]).
    repeat match goal with
           | H : negb _ = true |- _ => apply negb_true_iff in H
           end.
    split; [done|]. split; [apply processed_weight_number|].
    repeat (split; [by (apply str_eqb_neq || idtac)|]).
    apply list_elem_of_lookup in Hin as [k Hk].
    apply lookup_zip_Some in Hk as [Ht Hw].
    apply list_lookup_fmap_Some in Ht as (cell & Ht & Hcell).
    assert (is_Some (rows df !! k)) as [row Hrow].
    { apply lookup_lt_is_Some. rewrite <- Hlen. by eapply lookup_lt_Some. }
    destruct (column_cells_lookup _ _ _ _ _ Hterms Hrow)
      as (cell' & Hcell' & Hitem & _).
    exists k, row, cell. repeat split; [done| |done]. congruence.
Qed.

End SearchTermProperties.

Lemma search_term_header_is_first_witness :
  @SearchTerms.find_header sample_float_repr 0 search_term_grid
  = Some (2%nat, 0%nat, 1%nat) ∧ 0%nat ≠ 1%nat.
Proof.
  pose proof (@search_term_header_is_first sample_float_repr search_term_grid)
    as Hfirst.
  assert (@SearchTerms.find_header sample_float_repr 0 search_term_grid
          = Some (2%nat, 0%nat, 1%nat)) as Hfound by (vm_compute; reflexivity).
  rewrite Hfound in Hfirst. split; [done|]. exact (proj1 Hfirst).
Defined.

Lemma processed_weight_special_cases_witness :
  SearchTerms.processed_weight (PFloat FNan) = PFloat (FFin 1)
  ∧ SearchTerms.processed_weight (PStr " Weighted Evenly ") = PFloat (FFin 1)
  ∧ SearchTerms.processed_weight (PStr "high") = PFloat (FFin 1)
  ∧ ∃ q, SearchTerms.processed_weight (PStr "50%") = PFloat (FFin q)
         ∧ (q == 50)%Q.
Proof.
  destruct (processed_weight_special_cases (PFloat FNan) " Weighted Evenly "
              "50" None) as (Hblank & Heven & _ & Hpercent).
  destruct (processed_weight_special_cases (PFloat FNan) "high" "50" None)
    as (_ & _ & Htext & _).
  split; [exact (Hblank eq_refl)|].
  split; [apply Heven; vm_compute; reflexivity|].
  split; [apply Htext; vm_compute; reflexivity|].
  assert (binary64 (numeral_value "50" None) = FFin 50) as Hvalue
    by (vm_compute; reflexivity).
  pose proof (Hpercent eq_refl) as Hfifty. rewrite Hvalue in Hfifty.
  exact Hfifty.
Defined.

Lemma result_rows_are_clean_witness :
  (3 ≤ length (rows search_term_frame))%nat
  ∧ finite_number (PFloat (FFin 50)) = true.
Proof.
  destruct (@result_rows_are_clean sample_float_repr search_term_frame
              "Search Term" "Weight*" "Default"
              [ ("lego city", PFloat (FFin 50), "Default");
                ("lego duplo", PFloat (FFin 1), "Default");
                ("lego technic", PFloat (FFin 1), "Default") ])
    as [Hlen Hrows].
  - vm_compute. reflexivity.
  - split; [exact Hlen|].
    destruct (Hrows "lego city" (PFloat (FFin 50)) "Default")
      as (_ & Hnumber & _); [apply list_elem_of_here|exact Hnumber].
Defined.

Section StepTrackerProperties.

Import StepTracker.

Variable now : nat → string.

(** ** The status of a phase *)

Lemma status_of_steps_failed l s :
  s = "failed" → status_of_steps (l ++ [s]) = "failed".
Proof.
  intros ->. unfold status_of_steps.
  rewrite existsb_app. simpl. by rewrite orb_true_r.
Qed.

Lemma all_success_statuses l :
  all_success l
  = forallb (fun s => str_eqb s "success" || str_eqb s "skipped")
      (map step_status l).
Proof. unfold all_success. induction l as [|x l IH]; simpl; congruence. Qed.

(** One more step, as [track_step] computes the new status from the old. *)
Lemma status_of_steps_snoc l s :
  status_of_steps (l ++ [s])
  = if str_eqb s "failed" then "failed"
    else if str_eqb s "success" && str_eqb (status_of_steps l) "in_progress"
    then if forallb (fun s => str_eqb s "success" || str_eqb s "skipped")
              (l ++ [s])
         then "success" else status_of_steps l
    else status_of_steps l.
Proof.
  destruct (str_eqb s "failed") eqn:Hf.
  { apply status_of_steps_failed. by apply str_eqb_eq. }
  unfold status_of_steps. rewrite existsb_app. simpl. rewrite Hf.
  rewrite orb_false_r. destruct (existsb _ l) eqn:Hex.
  { simpl. by rewrite andb_false_r. }
  rewrite List.filter_app, forallb_app. simpl.
  assert (List.filter (fun s => negb (str_eqb s "skipped")) l = []
          → forallb (fun s => str_eqb s "success" || str_eqb s "skipped") l
            = true) as Hnil.
  { clear. induction l as [|x l IH]; [done|]. simpl.
    destruct (str_eqb x "skipped"); simpl; [|done].
    intros Hl. rewrite orb_true_r. by apply IH. }
  assert (∀ x r, List.filter (fun s => negb (str_eqb s "skipped")) l = x :: r
           → str_eqb x "success" = false
           → forallb (fun s => str_eqb s "success" || str_eqb s "skipped") l
             = false) as Hcons.
  { clear. induction l as [|y l IH]; [done|]. simpl. intros x r.
    destruct (str_eqb y "skipped") eqn:Hy; simpl.
    - intros Hl Hx. rewrite orb_true_r. simpl. by eapply IH.
    - intros [= <- _] Hx. by rewrite Hx. }
  destruct (List.filter _ l) as [|x r] eqn:Hl.
  - rewrite (Hnil eq_refl). simpl.
    destruct (str_eqb s "success") eqn:Hs; simpl.
    + apply str_eqb_eq in Hs as ->. done.
    + destruct (str_eqb s "skipped"); simpl; [done|]. by rewrite Hs.
  - simpl. destruct (str_eqb x "success") eqn:Hx.
    + by rewrite andb_false_r.
    + rewrite (Hcons _ _ eq_refl Hx). simpl.
      by destruct (str_eqb s "success").
Qed.

(** What a run of [track_step] calls keeps true of every phase. *)
Definition phases_follow (calls : list step_call) (st : tracker) : Prop :=
  ∀ p,
    match phases st !! p with
    | Some ph =>
        map step_status (steps ph) = statuses_for p calls
        ∧ phase_status ph = status_of_steps (statuses_for p calls)
        ∧ statuses_for p calls ≠ []
    | None => statuses_for p calls = []
    end.

Lemma log_operation_phases ty p sn s m e d dt st :
  phases (log_operation now ty p sn s m e d dt st) = phases st.
Proof. unfold log_operation. by destruct (match d with Some _ => _ | None => _ end). Qed.

Lemma statuses_for_snoc p calls c :
  statuses_for p (calls ++ [c])
  = statuses_for p calls
    ++ (if str_eqb (call_phase c) p then [call_status c] else []).
Proof.
  unfold statuses_for. rewrite List.filter_app, map_app. simpl.
  by destruct (str_eqb (call_phase c) p).
Qed.

Lemma track_step_follows calls c st :
  phases_follow calls st →
  phases_follow (calls ++ [c])
    (track_step now (call_phase c) (call_step c) (call_status c)
       (call_message c) (call_details c) (call_error c) (call_driver c) st).
Proof.
  intros Hinv p. rewrite statuses_for_snoc. unfold track_step.
  rewrite log_operation_phases.
  set (st1 := log_operation now _ _ _ _ _ _ _ _ st).
  specialize (Hinv p) as Hp. pose proof (Hinv (call_phase c)) as Hc.
  destruct (str_eqb (call_phase c) p) eqn:Hcp.
  - apply str_eqb_eq in Hcp. subst p.
    assert (∀ ph,
      map step_status (steps ph) = statuses_for (call_phase c) calls →
      phase_status ph = status_of_steps (statuses_for (call_phase c) calls) →
      ∀ entry, step_status entry = call_status c →
      map step_status (steps ph ++ [entry])
      = statuses_for (call_phase c) calls ++ [call_status c]
      ∧ (if str_eqb (call_status c) "failed" then "failed"
         else if str_eqb (call_status c) "success"
                 && str_eqb (phase_status ph) "in_progress"
         then if all_success (steps ph ++ [entry]) then "success"
              else phase_status ph
         else phase_status ph)
        = status_of_steps (statuses_for (call_phase c) calls
                           ++ [call_status c])
      ∧ statuses_for (call_phase c) calls ++ [call_status c] ≠ []) as Hstep.
    { intros ph Hsteps Hstatus entry Hentry. split; [|split].
      - by rewrite map_app, Hsteps; simpl; rewrite Hentry.
      - rewrite status_of_steps_snoc, all_success_statuses, map_app, Hsteps,
          Hstatus. simpl. by rewrite Hentry.
      - by destruct (statuses_for _ calls). }
    destruct (phases st !! call_phase c) as [ph|] eqn:Hph.
    + destruct Hc as (Hsteps & Hstatus & _). cbv beta iota zeta.
      cbn [phases]. rewrite lookup_insert_eq. cbn [steps phase_status].
      by apply Hstep.
    + cbv beta iota zeta. cbn [phases]. rewrite lookup_insert_eq.
      cbn [steps phase_status].
      apply (Hstep {| start_time := now (clock st1); end_time := None;
                      phase_status := "in_progress"; steps := [] |});
        by rewrite ?Hc.
  - apply str_eqb_neq in Hcp. rewrite app_nil_r.
    destruct (phases st !! call_phase c) as [ph|]; simpl;
      by rewrite lookup_insert_ne.
Qed.

Lemma track_steps_follow calls : ∀ st,
  phases st = ∅ → phases_follow calls (track_steps now calls st).
Proof.
  induction calls as [|c calls IH] using rev_ind; intros st Hempty.
  - intros p. simpl. by rewrite Hempty, lookup_empty.
  - unfold track_steps. rewrite fold_left_app. simpl.
    apply track_step_follows. by apply IH.
Qed.

(** X20. Starting from a tracker without phases, after any run of
    [track_step] calls a phase is known exactly when a call named it, its
    step list carries the statuses of those calls in order, and its status
    is a function of them: 'failed' when one of them was 'failed',
    otherwise 'success' when the first one that is not 'skipped' was
    'success', otherwise 'in_progress'. *)
Theorem phase_status_follows_steps (calls : list step_call) (st : tracker)
    (p : string) :
  phases st = ∅ →
  match phases (track_steps now calls st) !! p with
  | Some ph =>
      map step_status (steps ph) = statuses_for p calls
      ∧ phase_status ph = status_of_steps (statuses_for p calls)
      ∧ statuses_for p calls ≠ []
  | None => statuses_for p calls = []
  end.
Proof. intros Hempty. by apply track_steps_follow. Qed.


(** ** The monitoring log *)

Definition log_follows (calls : list step_call) (log : monitoring) : Prop :=
  map op_status (operations log) = map call_status calls
  ∧ errors log
    = List.filter (fun o => str_eqb (op_status o) "failed") (operations log)
  ∧ warnings log
    = List.filter
        (fun o => contains "warning" (lower (op_message o))
                  || contains "warn" (lower (op_message o)))
        (operations log)
  ∧ (length (screenshots log) ≤ length (errors log))%nat.

Lemma track_step_log c st :
  monitoring_log
    (track_step now (call_phase c) (call_step c) (call_status c)
       (call_message c) (call_details c) (call_error c) (call_driver c) st)
  = monitoring_log
      (log_operation now "step" (call_phase c) (call_step c) (call_status c)
         (call_message c) (call_error c) (call_driver c) (call_details c) st).
Proof.
  unfold track_step.
  by destruct (phases (log_operation now _ _ _ _ _ _ _ _ st) !! call_phase c).
Qed.

Lemma log_operation_follows calls c st :
  log_follows calls (monitoring_log st) →
  log_follows (calls ++ [c])
    (monitoring_log
       (log_operation now "step" (call_phase c) (call_step c) (call_status c)
          (call_message c) (call_error c) (call_driver c) (call_details c)
          st)).
Proof.
  intros (Hops & Herr & Hwarn & Hshots). unfold log_operation.
  set (shot := match call_driver c with
               | Some d =>
                   if str_eqb (call_status c) "failed" then
                     match capture_error_screenshot d (call_phase c)
                             (call_step c) with
                     | Some path => if nonempty path then Some path else None
                     | None => None
                     end
                   else None
               | None => None
               end).
  assert (is_Some shot → str_eqb (call_status c) "failed" = true) as Hshot.
  { unfold shot. destruct (call_driver c); [|by intros [??]].
    destruct (str_eqb (call_status c) "failed"); [done|by intros [??]]. }
  clearbody shot.
  assert (∃ url snip,
            match call_driver c with
            | Some d =>
                match current_url d with
                | Ok u =>
                    (Some u,
                     match page_source d with
                     | Ok src => Some (String.substring 0 500 src)
                     | Raise _ => None
                     end)
                | Raise _ => (None, None)
                end
            | None => (None, None)
            end = (url, snip)) as (url & snip & ->).
  { destruct (call_driver c) as [d|]; [|by eexists _, _].
    destruct (current_url d); by eexists _, _. }
  unfold log_follows. cbv beta iota zeta.
  cbn [monitoring_log operations errors warnings screenshots].
  repeat split.
  - by rewrite !map_app, Hops.
  - rewrite List.filter_app. cbn [List.filter op_status].
    destruct (str_eqb (call_status c) "failed");
      by rewrite Herr, ?app_nil_r.
  - rewrite List.filter_app. cbn [List.filter op_message].
    destruct (_ || _); by rewrite Hwarn, ?app_nil_r.
  - destruct shot as [path|].
    + rewrite (Hshot ltac:(done)), !length_app. simpl. lia.
    + destruct (str_eqb (call_status c) "failed");
        rewrite ?length_app; simpl; lia.
Qed.

Lemma track_steps_log calls : ∀ st,
  empty_log (monitoring_log st) →
  log_follows calls (monitoring_log (track_steps now calls st)).
Proof.
  induction calls as [|c calls IH] using rev_ind;
    intros st (Hops & Herr & Hwarn & Hshots).
  - unfold log_follows. simpl. by rewrite Hops, Herr, Hwarn, Hshots.
  - unfold track_steps. rewrite fold_left_app. simpl.
    rewrite track_step_log. apply log_operation_follows. by apply IH.
Qed.

(** X22. Starting from an empty monitoring log, after any run of
    [track_step] calls the log holds one operation per call, in order; its
    error list is exactly the operations with status 'failed' and its
    warning list exactly those whose message mentions 'warn', whatever their
    status; and there are never more screenshots than errors. *)
Theorem monitoring_log_follows_calls (calls : list step_call) (st : tracker) :
  empty_log (monitoring_log st) →
  let log := monitoring_log (track_steps now calls st) in
  map op_status (operations log) = map call_status calls
  ∧ errors log
    = List.filter (fun o => str_eqb (op_status o) "failed") (operations log)
  ∧ warnings log
    = List.filter
        (fun o => contains "warning" (lower (op_message o))
                  || contains "warn" (lower (op_message o)))
        (operations log)
  ∧ (length (screenshots log) ≤ length (errors log))%nat.
Proof. intros Hempty. by apply track_steps_log. Qed.

(** X23. The metrics computed from such a log are consistent: the errors
    are at most the operations, and the success rate lies between 0 and
    100; it is 0 for a log without operations. *)
Theorem success_rate_bounds (calls : list step_call) (st : tracker) :
  empty_log (monitoring_log st) →
  let m := performance_metrics (monitoring_log (track_steps now calls st)) in
  (total_errors m ≤ total_operations m)%nat
  ∧ total_operations m = length calls
  ∧ (0 <= success_rate m)%Q ∧ (success_rate m <= 100)%Q
  ∧ (calls = [] → success_rate m = 0%Q).
Proof.
  intros Hempty. cbv zeta.
  destruct (track_steps_log calls st Hempty) as (Hops & Herr & _ & _).
  set (log := monitoring_log (track_steps now calls st)) in *.
  assert (length (errors log) ≤ length (operations log))%nat as Hle.
  { rewrite Herr. apply List.filter_length_le. }
  assert (length (operations log) = length calls) as Hlen.
  { by rewrite <- (length_map op_status), Hops, length_map. }
  unfold performance_metrics.
  cbn [total_errors total_operations success_rate].
  split; [done|]. split; [done|].
  destruct (operations log) as [|o ops] eqn:Hlog.
  { repeat split; try done. }
  assert (calls ≠ []) as Hcalls by (by destruct calls).
  set (n := length (o :: ops)) in *. set (e := length (errors log)) in *.
  assert (1 ≤ n)%nat as Hn by (unfold n; simpl; lia).
  replace (Nat.max n 1) with n by lia.
  destruct (Z.of_nat n) as [|pn|pn] eqn:Hpn; try lia.
  assert (0 ≤ Z.of_nat n - Z.of_nat e ≤ Z.pos pn) as Hbound by lia.
  rewrite Hpn in Hbound.
  repeat split; try done.
  - unfold Qle, Qdiv, Qmult, Qinv, inject_Z. simpl. nia.
  - unfold Qle, Qdiv, Qmult, Qinv, inject_Z. simpl. nia.
Qed.

End StepTrackerProperties.


Lemma monitoring_log_follows_calls_witness :
  map StepTracker.op_status
    (StepTracker.operations
       (StepTracker.monitoring_log
          (track_steps sample_clock startup_calls fresh_tracker)))
  = ["in_progress"; "in_progress"; "success"; "success"].
Proof.
  destruct (monitoring_log_follows_calls sample_clock startup_calls
              fresh_tracker) as (Hops & _).
  - repeat split; reflexivity.
  - rewrite Hops. reflexivity.
Defined.

Lemma success_rate_bounds_witness :
  (StepTracker.success_rate
     (StepTracker.performance_metrics
        (StepTracker.monitoring_log
           (track_steps sample_clock startup_calls fresh_tracker)))
   <= 100)%Q.
Proof.
  destruct (success_rate_bounds sample_clock startup_calls fresh_tracker)
    as (_ & _ & _ & Hmax & _).
  - repeat split; reflexivity.
  - exact Hmax.
Defined.

Lemma phase_status_follows_steps_witness :
  StepTracker.phases (track_steps sample_clock startup_calls fresh_tracker)
    !! "Phase 1" = None.
Proof.
  pose proof (phase_status_follows_steps sample_clock startup_calls
                fresh_tracker "Phase 1" eq_refl) as Hphase.
  destruct (StepTracker.phases _ !! "Phase 1") as [ph|]; [|reflexivity].
  destruct Hphase as (_ & _ & Hne). exfalso. apply Hne.
  vm_compute. reflexivity.
Defined.

Section CategoryBrandProperties.
Context `{FR : FloatRepr}.

Import CategoryBrand.

(** ** The forward fill of the categories *)

Lemma ffill_from_length : ∀ cells last,
  length (ffill_from last cells) = length cells.
Proof.
  induction cells as [|c cells IH]; intros last; [done|].
  simpl. destruct (notna c); simpl; by rewrite IH.
Qed.

Lemma ffill_from_spec : ∀ cells last k c,
  cells !! k = Some c →
  (notna c = true → ffill_from last cells !! k = Some c)
  ∧ (notna c = false →
     (∃ j v, (j < k)%nat ∧ cells !! j = Some v ∧ notna v = true
        ∧ (∀ i x, (j < i ≤ k)%nat → cells !! i = Some x → notna x = false)
        ∧ ffill_from last cells !! k = Some v)
     ∨ ((∀ i x, (i ≤ k)%nat → cells !! i = Some x → notna x = false)
        ∧ ffill_from last cells !! k = Some (default c last))).
Proof.
  induction cells as [|c0 cells IH]; intros last k c Hk; [done|].
  destruct k as [|k].
  - injection Hk as ->. simpl. split.
    + by intros ->.
    + intros Hc. rewrite Hc. right. split; [|done].
      intros [|i] x Hi Hx; [|lia]. by injection Hx as <-.
  - simpl in Hk. split.
    + intros Hc. simpl. destruct (notna c0); simpl; by apply IH.
    + intros Hc. simpl. destruct (notna c0) eqn:Hc0; simpl.
      * destruct (proj2 (IH (Some c0) _ _ Hk) Hc)
          as [(j & v & Hj & Hv & Hn & Hbetween & Hfill)|[Hall Hfill]].
        -- left. exists (S j), v. repeat split; try done; [lia|].
           intros [|i] x Hi Hx; [lia|]. apply (Hbetween i); [lia|done].
        -- left. exists 0%nat, c0. repeat split; try done; [lia|].
           intros [|i] x Hi Hx; [lia|]. apply (Hall i); [lia|done].
      * destruct (proj2 (IH last _ _ Hk) Hc)
          as [(j & v & Hj & Hv & Hn & Hbetween & Hfill)|[Hall Hfill]].
        -- left. exists (S j), v. repeat split; try done; [lia|].
           intros [|i] x Hi Hx; [lia|]. apply (Hbetween i); [lia|done].
        -- right. split; [|done].
           intros [|i] x Hi Hx.
           ++ by injection Hx as <-.
           ++ apply (Hall i); [lia|done].
Qed.

(** X24. The forward fill keeps the length of the column and every cell
    that is not missing; a missing cell takes the nearest cell above it
    that is not missing, and stays as it is when every cell above it is
    missing too. *)
Theorem ffill_takes_nearest_above (cells : list pyval) (k : nat) (c : pyval) :
  cells !! k = Some c →
  length (ffill cells) = length cells
  ∧ (notna c = true → ffill cells !! k = Some c)
  ∧ (notna c = false →
     (∃ j v, (j < k)%nat ∧ cells !! j = Some v ∧ notna v = true
        ∧ (∀ i x, (j < i ≤ k)%nat → cells !! i = Some x → notna x = false)
        ∧ ffill cells !! k = Some v)
     ∨ ((∀ i x, (i ≤ k)%nat → cells !! i = Some x → notna x = false)
        ∧ ffill cells !! k = Some c)).
Proof.
  intros Hk. split; [apply ffill_from_length|].
  exact (ffill_from_spec cells None k c Hk).
Qed.

(** ** The pairs kept from each sheet *)



(** X26. In the Competition sheet a row is kept exactly when its brand is
    present and not blank and its forward-filled category is not blank.  In
    particular a brand row that stands above the first category is kept,
    with its missing category: unlike the Enterprise branch, this one does
    not drop it. *)
Theorem competition_pairs_follow_fill (df : DataFrame)
    (pairs kept : list (pyval * pyval)) (k : nat) (c b : pyval) :
  category_brand_columns df = Ok pairs →
  competition_clean df = Ok (Some kept) →
  pairs !! k = Some (c, b) →
  (∀ c' b', (c', b') ∈ kept →
     notna b' = true ∧ strip (py_str b') ≠ "" ∧ strip (py_str c') ≠ "")
  ∧ (notna b = true → strip (py_str b) ≠ "" →
     ∀ c', ffill (map fst pairs) !! k = Some c' →
       strip (py_str c') ≠ "" → (c', b) ∈ kept)
  ∧ (notna b = true → strip (py_str b) ≠ "" →
     (∀ i x, (i ≤ k)%nat → map fst pairs !! i = Some x → notna x = false) →
     (c, b) ∈ kept).
Proof.
  unfold competition_clean. intros Hpairs Hclean Hk.
  destruct (negb _ || negb _); [done|]. rewrite Hpairs in Hclean.
  simpl in Hclean. injection Hclean as <-.
  assert (∀ c' b', (c', b') ∈ List.filter
            (fun cb => text_not_empty (fst cb) && text_not_empty (snd cb))
            (List.filter (fun cb => notna (snd cb))
               (zip (ffill (map fst pairs)) (map snd pairs)))
          ↔ (c', b') ∈ zip (ffill (map fst pairs)) (map snd pairs)
            ∧ notna b' = true ∧ strip (py_str c') ≠ ""
            ∧ strip (py_str b') ≠ "") as Hmem.
  { intros c' b'. rewrite list_elem_of_In, List.filter_In, List.filter_In.
    rewrite <- list_elem_of_In. simpl. unfold text_not_empty.
    rewrite andb_true_iff, !negb_true_iff, !str_eqb_neq. tauto. }
  assert (∀ c', ffill (map fst pairs) !! k = Some c' →
            (c', b) ∈ zip (ffill (map fst pairs)) (map snd pairs)) as Hzip.
  { intros c' Hc'. apply list_elem_of_lookup. exists k.
    apply lookup_zip_Some. split; [done|].
    by rewrite list_lookup_fmap, Hk. }
  split; [|split].
  - intros c' b' Hin. apply Hmem in Hin as (_ & Hb & Htc & Htb). done.
  - intros Hb Htb c' Hc' Htc. apply Hmem. repeat split; try done.
    by apply Hzip.
  - intros Hb Htb Hall.
    assert (map fst pairs !! k = Some c) as Hck
      by (by rewrite list_lookup_fmap, Hk).
    assert (notna c = false) as Hc by (by apply (Hall k c)).
    destruct (proj2 (ffill_from_spec _ None _ _ Hck) Hc)
      as [(j & v & Hj & Hv & Hn & _)|[_ Hfill]].
    { rewrite (Hall j v) in Hn; [done|lia|done]. }
    apply Hmem. repeat split; try done; [by apply Hzip|].
    by destruct c as [| | |[| |]|].
Qed.

End CategoryBrandProperties.

Lemma ffill_takes_nearest_above_witness :
  length (CategoryBrand.ffill [PFloat FNan; PStr "Toys"; PFloat FNan])
  = 3%nat.
Proof.
  exact (proj1 (ffill_takes_nearest_above
                  [PFloat FNan; PStr "Toys"; PFloat FNan] 2 (PFloat FNan)
                  eq_refl)).
Defined.


Lemma competition_pairs_follow_fill_witness :
  (PFloat FNan, PStr "Mega Bloks")
  ∈ [ (PFloat FNan, PStr "Mega Bloks"); (PStr "Toys", PStr "Lego");
      (PStr "Toys", PStr "Playmobil"); (PStr "Games", PStr "Hasbro") ].
Proof.
  destruct (@competition_pairs_follow_fill sample_float_repr
              competition_frame
              [ (PFloat FNan, PStr "Mega Bloks"); (PStr "Toys", PStr "Lego");
                (PFloat FNan, PStr "Playmobil"); (PFloat FNan, PFloat FNan);
                (PStr "Games", PStr "Hasbro") ]
              [ (PFloat FNan, PStr "Mega Bloks"); (PStr "Toys", PStr "Lego");
                (PStr "Toys", PStr "Playmobil");
                (PStr "Games", PStr "Hasbro") ]
              0 (PFloat FNan) (PStr "Mega Bloks"))
    as (_ & _ & Hkept).
  - vm_compute. reflexivity.
  - vm_compute. reflexivity.
  - reflexivity.
  - apply Hkept.
    + reflexivity.
    + vm_compute. discriminate.
    + intros [|i] x Hi Hx; [|lia]. by injection Hx as <-.
Defined.

Section RetailerSheetProperties.
Context `{FR : FloatRepr}.

(** ** The header of the retailer sheet *)

Lemma retailer_flag_step_spec a b c val :
  retailer_flag_step (a, b, c) val
  = (a || names_retailer val, b || names_retailer_target val,
     c || names_retailer_weight val).
Proof.
  unfold retailer_flag_step, names_retailer, names_retailer_target,
    names_retailer_weight.
  generalize (contains "retailer" val), (contains "target" val),
    (contains "weight" val). intros r t w.
  by destruct (nonempty val), r, t, w, a, b, c.
Qed.

Lemma retailer_flags_fold vals : ∀ a b c,
  fold_left retailer_flag_step vals (a, b, c)
  = (a || existsb names_retailer vals,
     b || existsb names_retailer_target vals,
     c || existsb names_retailer_weight vals).
Proof.
  induction vals as [|val vals IH]; intros a b c.
  - simpl. by rewrite !orb_false_r.
  - cbn [fold_left existsb]. rewrite (retailer_flag_step_spec a b c val), IH.
    by rewrite !orb_assoc.
Qed.

Lemma retailer_flags_complete row :
  retailer_flags (row_values_lower row) = (true, true, true)
  ↔ complete_retailer_header row = true.
Proof.
  unfold retailer_flags, complete_retailer_header.
  rewrite retailer_flags_fold. simpl.
  destruct (existsb names_retailer _), (existsb names_retailer_target _),
    (existsb names_retailer_weight _); simpl; split; congruence.
Qed.

Lemma retailer_header_loop_step n i row rest :
  retailer_header_loop (S n) i (row :: rest)
  = if complete_retailer_header row then Some i
    else retailer_header_loop n (S i) rest.
Proof.
  simpl. pose proof (retailer_flags_complete row) as [Hyes Hno].
  destruct (retailer_flags (row_values_lower row)) as [[[] []] []];
    destruct (complete_retailer_header row); try done;
    try (by discriminate (Hyes eq_refl)); by discriminate (Hno eq_refl).
Qed.

Lemma retailer_header_loop_spec : ∀ n temp_df i,
  match retailer_header_loop n i temp_df with
  | Some r =>
      ∃ k row, r = (i + k)%nat ∧ (k < n)%nat ∧ temp_df !! k = Some row
        ∧ complete_retailer_header row = true
        ∧ ∀ k' row', (k' < k)%nat → temp_df !! k' = Some row' →
            complete_retailer_header row' = false
  | None =>
      ∀ k row, (k < n)%nat → temp_df !! k = Some row →
        complete_retailer_header row = false
  end.
Proof.
  induction n as [|n IH]; intros temp_df i; [simpl; intros; lia|].
  destruct temp_df as [|row rest]; [by simpl|].
  rewrite retailer_header_loop_step.
  destruct (complete_retailer_header row) eqn:Hrow.
  - exists 0%nat, row. rewrite Nat.add_0_r.
    repeat split; try done; [lia|intros; lia].
  - specialize (IH rest (S i)).
    destruct (retailer_header_loop n (S i) rest) as [r|].
    + destruct IH as (k & row' & -> & Hk & Hlook & Hc & Hbefore).
      exists (S k), row'. repeat split; try done; try lia.
      intros [|k'] row'' Hlt Hlook'.
      * by injection Hlook' as <-.
      * apply (Hbefore k'); [lia|done].
    + intros [|k] row' Hk Hlook.
      * by injection Hlook as <-.
      * apply (IH k); [lia|done].
Qed.

(** X27. The header of the retailer sheet is the first of its first 15
    rows that names the retailer, the retailer target and the retailer
    weight in three cells (a cell is counted for one of them only, so a
    sentence holding all the words does not make a header); when no row
    does, row 9 is read as the header. *)
Theorem retailer_header_is_first_complete_row
    (temp_retailer_df : list (list pyval)) :
  (∃ row, (retailer_header_row temp_retailer_df < 15)%nat
     ∧ temp_retailer_df !! retailer_header_row temp_retailer_df = Some row
     ∧ complete_retailer_header row = true
     ∧ ∀ k' row', (k' < retailer_header_row temp_retailer_df)%nat →
         temp_retailer_df !! k' = Some row' →
         complete_retailer_header row' = false)
  ∨ (retailer_header_row temp_retailer_df = 9%nat
     ∧ ∀ k row, (k < 15)%nat → temp_retailer_df !! k = Some row →
         complete_retailer_header row = false).
Proof.
  unfold retailer_header_row.
  pose proof (retailer_header_loop_spec 15 temp_retailer_df 0) as Hspec.
  destruct (retailer_header_loop 15 0 temp_retailer_df) as [r|]; simpl.
  - left. destruct Hspec as (k & row & -> & Hk & Hrow & Hc & Hbefore).
    by exists row.
  - by right.
Qed.

(** ** The values of the retailer sheet *)

Lemma extract_number_none_text s :
  extract_number (PStr s) = PNone →
  nonempty (strip s) = false ∨ py_float (strip s) = None.
Proof.
  unfold extract_number. simpl isna. cbn [orb].
  destruct (is_empty_str (PStr s)) eqn:He.
  { destruct s; [|done]. by left. }
  destruct (contains "%" (strip s)).
  - destruct (re_search_number (strip s)); [|done].
    by destruct (py_float _).
  - destruct (py_float (strip s)); [done|by right].
Qed.

Lemma retailer_fallback_idle cell :
  retailer_fallback (extract_number (raw_cell cell)) (raw_cell cell)
  = extract_number (raw_cell cell).
Proof.
  unfold raw_cell. destruct (notna cell) eqn:Hna; [|done].
  destruct cell as [|b|z|[| |q]|s]; try done.
  destruct (extract_number (PStr s)) eqn:Hn; try done.
  unfold retailer_fallback.
  destruct (extract_number_none_text _ Hn) as [Hs | Hs]; rewrite Hs; [done|].
  by destruct (nonempty (strip s)).
Qed.

Lemma extract_number_whole_percent ip :
  is_numeral ip None = true → Z.of_N (digits_N 0 ip) < 2 ^ 53 →
  extract_number (PStr (ip +:+ "%"))
  = PFloat (FFin (inject_Z (Z.of_N (digits_N 0 ip)))).
Proof.
  intros Hnum Hsmall.
  destruct (numeral_text_numchars _ _ Hnum) as [Hchars Hne].
  simpl numeral_text in Hchars, Hne.
  rewrite extract_number_percent_text
    by (by rewrite contains_percent_app, orb_true_r).
  pose proof (re_search_first_run "" ip "%" eq_refl Hchars Hne eq_refl)
    as Hrun.
  rewrite append_empty_l in Hrun. rewrite Hrun.
  pose proof (py_float_numeral ip None Hnum) as Hfloat.
  simpl numeral_text in Hfloat. rewrite Hfloat. f_equal.
  unfold numeral_value. simpl default. rewrite append_empty_r.
  apply binary64_whole. lia.
Qed.



(** X28. The value kept for a retailer target or weight: the fallback
    conversion never contributes (what it would read, [extract_number] has
    read already), so the value is the conversion of what [extract_number]
    returns; and a whole-number percentage below [2^53] is kept as that
    number, except that "1%" (like a cell holding 1) becomes 100. *)
Theorem retailer_cell_value_cases (cell : pyval) (ip : string) :
  retailer_cell_value cell = percent_scale (extract_number (raw_cell cell))
  ∧ (is_numeral ip None = true → Z.of_N (digits_N 0 ip) < 2 ^ 53 →
     retailer_cell_value (PStr (ip +:+ "%"))
     = PFloat (FFin (if Z.of_N (digits_N 0 ip) =? 1 then 100
                     else inject_Z (Z.of_N (digits_N 0 ip))))).
Proof.
  split.
  - unfold retailer_cell_value. cbv zeta. by rewrite retailer_fallback_idle.
  - intros Hnum Hsmall. unfold retailer_cell_value. cbv zeta.
    rewrite retailer_fallback_idle.
    assert (raw_cell (PStr (ip +:+ "%")) = PStr (ip +:+ "%")) as -> by done.
    rewrite (extract_number_whole_percent _ Hnum Hsmall).
    set (z := Z.of_N (digits_N 0 ip)).
    assert (0 ≤ z) as Hz by (unfold z; lia).
    assert (Qle_bool (inject_Z z) 0 = (z <=? 0)) as Hle0.
    { unfold Qle_bool, inject_Z. cbn [Qnum Qden]. f_equal; lia. }
    assert (Qle_bool 1 (inject_Z z) = (1 <=? z)) as Hle1.
    { unfold Qle_bool, inject_Z. cbn [Qnum Qden]. f_equal; lia. }
    assert (Qeq_bool (inject_Z z) 1 = (z =? 1)) as Heq1.
    { unfold Qeq_bool, inject_Z. cbn [Qnum Qden]. f_equal; lia. }
    unfold percent_scale. cbn [is_int_or_float number_of].
    rewrite Hle0, Hle1, Heq1.
    destruct (z =? 1) eqn:Hone.
    + apply Z.eqb_eq in Hone. rewrite Hone. reflexivity.
    + apply Z.eqb_neq in Hone.
      destruct (z <=? 0) eqn:H0; cbn [negb andb]; [done|].
      apply Z.leb_gt in H0.
      assert ((1 <=? z) = true) as -> by (apply Z.leb_le; lia). done.
Qed.

(** ** The retailer mapping *)



Lemma dict_item_set_same mapping key data :
  dict_item (dict_set mapping key data) key = Ok data.
Proof.
  induction mapping as [|[k0 d0] mapping IH]; simpl.
  - by rewrite str_eqb_refl.
  - destruct (str_eqb k0 key) eqn:Hkey; simpl; by rewrite Hkey.
Qed.

Lemma dict_item_set_other mapping key data k :
  k ≠ key → dict_item (dict_set mapping key data) k = dict_item mapping k.
Proof.
  intros Hk. induction mapping as [|[k0 d0] mapping IH]; simpl.
  - assert (str_eqb key k = false) as -> by (by apply str_eqb_neq). done.
  - destruct (str_eqb k0 key) eqn:Hkey; simpl.
    + apply str_eqb_eq in Hkey as ->.
      assert (str_eqb key k = false) as -> by (by apply str_eqb_neq). done.
    + by rewrite IH.
Qed.

(** What one row does to the mapping. *)
Lemma add_retailer_row_cases cols nc tc wc mapping row mapping' :
  add_retailer_row cols nc tc wc mapping row = Ok mapping' →
  ∃ name, cell_text cols row nc = Ok name
    ∧ ((name = "" ∨ name = "nan") ∧ mapping' = mapping
       ∨ name ≠ "" ∧ name ≠ "nan"
         ∧ ∃ t w, row_item cols row tc = Ok t ∧ row_item cols row wc = Ok w
           ∧ mapping'
             = dict_set mapping (lower name)
                 {| retailer_target := retailer_cell_value t;
                    retailer_weight := retailer_cell_value w |}).
Proof.
  unfold add_retailer_row. intros Hrow.
  apply rbind_ok in Hrow as (name & Hname & Hrow). exists name.
  split; [done|]. unfold nonempty in Hrow. rewrite negb_involutive in Hrow.
  destruct (str_eqb name "") eqn:He; simpl in Hrow.
  { injection Hrow as <-. left. split; [|done]. left. by apply str_eqb_eq. }
  destruct (str_eqb name "nan") eqn:Hn; simpl in Hrow.
  { injection Hrow as <-. left. split; [|done]. right. by apply str_eqb_eq. }
  apply rbind_ok in Hrow as (t & Ht & Hrow).
  apply rbind_ok in Hrow as (w & Hw & Hrow). injection Hrow as <-.
  right. apply str_eqb_neq in He, Hn. repeat split; try done.
  by exists t, w.
Qed.

Lemma build_retailer_mapping_app cols nc tc wc : ∀ rs1 rs2 mapping mapping',
  build_retailer_mapping cols nc tc wc mapping (rs1 ++ rs2) = Ok mapping' →
  ∃ mapping1,
    build_retailer_mapping cols nc tc wc mapping rs1 = Ok mapping1
    ∧ build_retailer_mapping cols nc tc wc mapping1 rs2 = Ok mapping'.
Proof.
  induction rs1 as [|row rs1 IH]; intros rs2 mapping mapping' Hbuild.
  { by exists mapping. }
  simpl in Hbuild. apply rbind_ok in Hbuild as (m0 & Hrow & Hbuild).
  destruct (IH _ _ _ Hbuild) as (m1 & H1 & H2).
  exists m1. split; [|done]. simpl. by rewrite Hrow.
Qed.


Lemma build_retailer_mapping_keeps cols nc tc wc key : ∀ rs mapping mapping',
  build_retailer_mapping cols nc tc wc mapping rs = Ok mapping' →
  (∀ r nm, r ∈ rs → cell_text cols r nc = Ok nm → lower nm ≠ key) →
  dict_item mapping' key = dict_item mapping key.
Proof.
  induction rs as [|row rs IH]; intros mapping mapping' Hbuild Hother.
  { by injection Hbuild as <-. }
  simpl in Hbuild. apply rbind_ok in Hbuild as (m0 & Hrow & Hbuild).
  rewrite (IH _ _ Hbuild)
    by (intros r nm Hr; apply Hother; by apply list_elem_of_further).
  destruct (add_retailer_row_cases _ _ _ _ _ _ _ Hrow)
    as (name & Hname & [[_ ->]|(_ & _ & t & w & _ & _ & ->)]); [done|].
  apply dict_item_set_other. intros ->.
  by apply (Hother row name (list_elem_of_here _ _) Hname).
Qed.


(** X30. When several rows of the retailer sheet name the same retailer,
    case apart, the mapping holds the target and the weight of the last of
    them, each converted from its cell. *)
Theorem retailer_mapping_last_row_wins (cols : list string)
    (nc tc wc name : string) (rs1 rs2 : list (list pyval))
    (row : list pyval) (mapping : RetailerMapping) :
  build_retailer_mapping cols nc tc wc [] (rs1 ++ row :: rs2) = Ok mapping →
  cell_text cols row nc = Ok name → name ≠ "" → name ≠ "nan" →
  (∀ r nm, r ∈ rs2 → cell_text cols r nc = Ok nm → lower nm ≠ lower name) →
  ∃ t w, row_item cols row tc = Ok t ∧ row_item cols row wc = Ok w
    ∧ dict_item mapping (lower name)
      = Ok {| retailer_target := retailer_cell_value t;
              retailer_weight := retailer_cell_value w |}.
Proof.
  intros Hbuild Hname Hne Hnn Hlast.
  apply build_retailer_mapping_app in Hbuild as (m1 & _ & Hbuild).
  simpl in Hbuild. apply rbind_ok in Hbuild as (m2 & Hrow & Hbuild).
  rewrite (build_retailer_mapping_keeps _ _ _ _ _ _ _ _ Hbuild Hlast).
  destruct (add_retailer_row_cases _ _ _ _ _ _ _ Hrow)
    as (name' & Hname' & [[Hblank _]|(_ & _ & t & w & Ht & Hw & ->)]).
  - rewrite Hname in Hname'. injection Hname' as <-. by destruct Hblank.
  - rewrite Hname in Hname'. injection Hname' as <-.
    exists t, w. repeat split; try done. apply dict_item_set_same.
Qed.

End RetailerSheetProperties.

Lemma retailer_header_is_first_complete_row_witness :
  @retailer_header_row sample_float_repr retailer_grid = 1%nat.
Proof.
  destruct (@retailer_header_is_first_complete_row sample_float_repr
              retailer_grid) as [(row & _)|[Hdefault _]].
  - vm_compute. reflexivity.
  - vm_compute in Hdefault. discriminate Hdefault.
Defined.

Lemma retailer_cell_value_cases_witness :
  retailer_cell_value (PStr "80%") = PFloat (FFin 80)
  ∧ retailer_cell_value (PStr "1%") = PFloat (FFin 100).
Proof.
  split.
  - exact (proj2 (retailer_cell_value_cases PNone "80") eq_refl
             ltac:(vm_compute; reflexivity)).
  - exact (proj2 (retailer_cell_value_cases PNone "1") eq_refl
             ltac:(vm_compute; reflexivity)).
Defined.


Lemma retailer_mapping_last_row_wins_witness :
  ∃ t w,
    dict_item
      [("shop-toys-es",
        {| retailer_target := PFloat (FFin 100);
           retailer_weight := PInt 30 |})] "shop-toys-es"
    = Ok {| retailer_target := retailer_cell_value t;
            retailer_weight := retailer_cell_value w |}.
Proof.
  destruct (@retailer_mapping_last_row_wins sample_float_repr
              retailer_sheet_columns "Retailer" "Retailer Target"
              "Retailer Weight" "SHOP-TOYS-ES"
              [ [PStr "Shop-Toys-ES"; PStr "80%"; PInt 25];
                [PFloat FNan; PStr "10%"; PInt 5] ]
              []
              [PStr "SHOP-TOYS-ES"; PStr "1%"; PInt 30]
              [("shop-toys-es",
                {| retailer_target := PFloat (FFin 100);
                   retailer_weight := PInt 30 |})])
    as (t & w & _ & _ & Hitem).
  - vm_compute. reflexivity.
  - reflexivity.
  - discriminate.
  - discriminate.
  - intros r nm Hr. by apply elem_of_nil in Hr.
  - by exists t, w.
Defined.
